(** * A user-level thread library: the public operations and signal handlers
      of [ex2/uthreads.cpp], as state transformers.

    The library keeps six process-wide objects (thread registry, scheduler,
    sleep queue, two timers, quantum counter).  Every public operation and
    each of the two signal handlers runs with the two managed signals masked,
    so it is modelled as one atomic step on the record [lib] of those objects.
    A step also produces the list of externally visible effects it performed
    (diagnostic lines, timer restarts, context switches, memory release). *)

From Stdlib Require Import ZArith List Lia.
From stdpp Require Import base option list gmap strings.

Local Open Scope string_scope.
Local Open Scope list_scope.
Local Open Scope Z_scope.

(** ** Data *)

(** [class thread] of [ex2/thread.h]: the stack buffer and the saved machine
    context are not represented, the three bookkeeping fields are. *)
Record thread := Thread {
  _quants : Z;
  _isBlocked : bool;
  _isSleeping : bool
}.

Definition setBlocked (isBlocked : bool) (t : thread) : thread :=
  {| _quants := _quants t; _isBlocked := isBlocked; _isSleeping := _isSleeping t |}.
Definition getBlocked (t : thread) : bool := _isBlocked t.
Definition setSleep (isSleeping : bool) (t : thread) : thread :=
  {| _quants := _quants t; _isBlocked := _isBlocked t; _isSleeping := isSleeping |}.
Definition getSleep (t : thread) : bool := _isSleeping t.
Definition getQuants (t : thread) : Z := _quants t.
Definition updateQuants (t : thread) : thread :=
  {| _quants := _quants t + 1; _isBlocked := _isBlocked t; _isSleeping := _isSleeping t |}.

(** [struct timeval] and the entries of the sleep queue. *)
Record timeval := Timeval { tv_sec : Z; tv_usec : Z }.
Record wake_up_info := WakeUp { id : Z; awaken_tv : timeval }.

(** The scheduler: the ready queue and the id of the running thread. *)
Record scheduler := Scheduler { ready : list Z; running : Z }.

(** The virtual timer: its period and whether it has been started. *)
Record virtual_timer := VTimer { vt_quantum : Z; vt_armed : bool }.

(** The static globals of [uthreads.cpp]. [rTimer] holds the delay the
    one-shot real timer was last started with. *)
Record lib := Lib {
  manager : gmap Z thread;
  sched : scheduler;
  sleepingThreads : list wake_up_info;
  vTimer : virtual_timer;
  rTimer : option Z;
  totalQuants : Z
}.

(** What a step does to the world outside [lib]. *)
Inductive effect :=
| Cerr (msg : string)
| ClearMem
| VTimerStart
| RTimerStart (usec : Z)
| SwitchContext (from to : Z).

(** How a step ends. [Ok a s log]: the call returns [a] to its caller (for a
    call that switched to another thread: once its thread is resumed) and [s]
    is the library state it leaves.  [Exit]: the process exits.  [Gone]: the
    calling context was destroyed and control passed to another thread for
    good.  [Fault]: a null pointer was dereferenced. *)
Inductive result (A : Type) :=
| Ok (a : A) (s : lib) (log : list effect)
| Exit (code : Z) (log : list effect)
| Gone (s : lib) (log : list effect)
| Fault (log : list effect).
Arguments Ok {A} a s log.
Arguments Exit {A} code log.
Arguments Gone {A} s log.
Arguments Fault {A} log.

Definition M (A : Type) : Type := lib -> result A.

Definition ret {A} (a : A) : M A := fun s => Ok a s [].

Definition bind {A B} (m : M A) (f : A -> M B) : M B := fun s =>
  match m s with
  | Ok a s1 l1 =>
      match f a s1 with
      | Ok b s2 l2 => Ok b s2 (l1 ++ l2)
      | Exit c l2 => Exit c (l1 ++ l2)
      | Gone s2 l2 => Gone s2 (l1 ++ l2)
      | Fault l2 => Fault (l1 ++ l2)
      end
  | Exit c l1 => Exit c l1
  | Gone s1 l1 => Gone s1 l1
  | Fault l1 => Fault l1
  end.

Notation "x <- m ;; k" := (bind m (fun x => k))
  (at level 100, m at next level, right associativity).
Notation "m ;;; k" := (bind m (fun _ => k))
  (at level 100, right associativity).

Definition get : M lib := fun s => Ok s s [].
Definition emit (e : effect) : M unit := fun s => Ok tt s [e].
Definition exit {A} (code : Z) : M A := fun _ => Exit code [].
Definition fault {A} : M A := fun _ => Fault [].

Definition set_manager (m : gmap Z thread) (s : lib) : lib :=
  {| manager := m; sched := sched s; sleepingThreads := sleepingThreads s;
     vTimer := vTimer s; rTimer := rTimer s; totalQuants := totalQuants s |}.
Definition set_sched (sc : scheduler) (s : lib) : lib :=
  {| manager := manager s; sched := sc; sleepingThreads := sleepingThreads s;
     vTimer := vTimer s; rTimer := rTimer s; totalQuants := totalQuants s |}.
Definition set_sleepingThreads (q : list wake_up_info) (s : lib) : lib :=
  {| manager := manager s; sched := sched s; sleepingThreads := q;
     vTimer := vTimer s; rTimer := rTimer s; totalQuants := totalQuants s |}.
Definition set_vTimer (v : virtual_timer) (s : lib) : lib :=
  {| manager := manager s; sched := sched s; sleepingThreads := sleepingThreads s;
     vTimer := v; rTimer := rTimer s; totalQuants := totalQuants s |}.
Definition set_rTimer (r : option Z) (s : lib) : lib :=
  {| manager := manager s; sched := sched s; sleepingThreads := sleepingThreads s;
     vTimer := vTimer s; rTimer := r; totalQuants := totalQuants s |}.
Definition set_totalQuants (n : Z) (s : lib) : lib :=
  {| manager := manager s; sched := sched s; sleepingThreads := sleepingThreads s;
     vTimer := vTimer s; rTimer := rTimer s; totalQuants := n |}.

(** ** Constants of [uthreads.cpp] *)

Definition CONVERT_CONST_SEC_TO_NSEC : Z := 1000000000.
Definition CONVERT_CONST_MSEC_TO_NSEC : Z := 1000.
Definition sysError : Z := -2.
Definition libErrorSyntax : string := "thread library error: ".
Definition sysErrorSyntax : string := "system error: ".

(** Signal numbers of [<signal.h>] on Linux. *)
Definition SIGALRM : Z := 14.
Definition SIGVTALRM : Z := 26.

(** Conversion to a 32-bit [int] (two's complement wrap-around). *)
Definition to_int (x : Z) : Z := (x + 2147483648) mod 4294967296 - 2147483648.

(** ** The sleep queue *)

(** [timercmp(a, b, <)]. *)
Definition timer_lt (a b : timeval) : bool :=
  if tv_sec a =? tv_sec b then tv_usec a <? tv_usec b else tv_sec a <? tv_sec b.

(** [timeradd(a, b, res)]. *)
Definition timeradd (a b : timeval) : timeval :=
  let sec := tv_sec a + tv_sec b in
  let usec := tv_usec a + tv_usec b in
  if 1000000 <=? usec then {| tv_sec := sec + 1; tv_usec := usec - 1000000 |}
  else {| tv_sec := sec; tv_usec := usec |}.

(** Modelled from the spec: [SleepingThreadsList] ([sleeping_threads_list.h]
    is not among the sources).  "Insert(id, wake_at) into sorted position by
    wake_at", "stable under equal wake times": the new entry goes before the
    first entry that wakes strictly later. *)
Fixpoint sleeping_add (tid : Z) (t : timeval) (q : list wake_up_info)
  : list wake_up_info :=
  match q with
  | [] => [WakeUp tid t]
  | w :: q' =>
      if timer_lt t (awaken_tv w) then WakeUp tid t :: w :: q'
      else w :: sleeping_add tid t q'
  end.

(** Modelled from the spec: "Peek returns the head (earliest wake) without
    removal"; the null pointer of the source is [None]. *)
Definition sleeping_peek (q : list wake_up_info) : option wake_up_info := head q.

(** Modelled from the spec: "Pop removes the head". *)
Definition sleeping_pop (q : list wake_up_info) : list wake_up_info := tail q.

(** ** The ready queue and the scheduler *)

(** Modelled from the spec: [scheduler::addThread] ([scheduler.h] is not
    among the sources).  "Append to tail", "A thread is present at most
    once": an id that is already queued is not appended again. *)
Definition sched_addThread (tid : Z) (sc : scheduler) : scheduler :=
  if decide (tid ∈ ready sc) then sc
  else {| ready := ready sc ++ [tid]; running := running sc |}.

(** Modelled from the spec: "remove-by-ID anywhere". *)
Definition remove_id (tid : Z) (q : list Z) : list Z :=
  filter (fun x => x ≠ tid) q.

(** Modelled from the spec: [scheduler::whosNextTimeout].  "rotate the head to
    the tail; new head is next runner.  If the queue has one entry, the same
    thread continues". *)
Definition sched_whosNextTimeout (sc : scheduler) : Z * scheduler :=
  match ready sc with
  | [] => (running sc, sc)
  | h :: t =>
      let q := t ++ [h] in
      let r := default h (head q) in
      (r, {| ready := q; running := r |})
  end.

(** Modelled from the spec: [scheduler::whosNextTermination].  "remove id from
    the queue; new head runs". With nothing left in the queue the running id
    is kept. *)
Definition sched_whosNextTermination (tid : Z) (sc : scheduler) : Z * scheduler :=
  let q := remove_id tid (ready sc) in
  let r := default (running sc) (head q) in
  (r, {| ready := q; running := r |}).

(** Modelled from the spec: [scheduler::whosNextBlock].  "remove id; if it was
    running, new head runs (scheduling decision); if not, no switch". *)
Definition sched_whosNextBlock (tid : Z) (sc : scheduler) : Z * scheduler :=
  let q := remove_id tid (ready sc) in
  let r := if decide (tid = running sc)
           then default (running sc) (head q) else running sc in
  (r, {| ready := q; running := r |}).

(** Modelled from the spec: [scheduler::whosNextSleep].  "identical to
    self-block of the running thread". *)
Definition sched_whosNextSleep (sc : scheduler) : Z * scheduler :=
  sched_whosNextBlock (running sc) sc.

(** ** The thread registry *)

(** Modelled from the spec: the worker record built by the constructor of
    [thread] ([thread.cpp] is not among the sources).  "quantum count ...
    starts at 0, becomes 1 the first time it runs". *)
Definition new_thread : thread :=
  {| _quants := 0; _isBlocked := false; _isSleeping := false |}.

(** Modelled from the spec: the record of thread 0, made by
    [thread_manager::threadManagerSetup].  "Thread 0 is created synthetically
    at library init: ... quantum count initialized to 1, immediately made
    running". *)
Definition main_thread : thread :=
  {| _quants := 1; _isBlocked := false; _isSleeping := false |}.

(** Modelled from the spec: [thread_manager::killThread]
    ([thread_manager.h] is not among the sources).  "removes the record",
    NoSuchThread is -1.  The registry has no handle on the two queues, which
    are globals of [uthreads.cpp]. *)
Definition manager_killThread (tid : Z) (m : gmap Z thread) : Z * gmap Z thread :=
  match m !! tid with
  | Some _ => (0, delete tid m)
  | None => (-1, m)
  end.

(** Modelled from the spec: the flag mutators [blockThread], [unBlockThread],
    [putThreadToSleep] and [wakeThread] "return NoSuchThread when no record
    exists"; on a record whose flag already has the value they change
    nothing and still report that the thread exists. *)
Definition manager_setFlag (f : thread -> thread) (tid : Z) (m : gmap Z thread)
  : Z * gmap Z thread :=
  match m !! tid with
  | Some t => (0, <[tid := f t]> m)
  | None => (-1, m)
  end.
Definition manager_blockThread := manager_setFlag (setBlocked true).
Definition manager_unBlockThread := manager_setFlag (setBlocked false).
Definition manager_putThreadToSleep := manager_setFlag (setSleep true).
Definition manager_wakeThread := manager_setFlag (setSleep false).

(** Modelled from the spec: the getters [isThreadBlocked], [isThreadAsleep]
    and [getThreadQuants] (-1 when there is no such thread). *)
Definition manager_isThreadBlocked (tid : Z) (m : gmap Z thread) : bool :=
  match m !! tid with Some t => getBlocked t | None => false end.
Definition manager_isThreadAsleep (tid : Z) (m : gmap Z thread) : bool :=
  match m !! tid with Some t => getSleep t | None => false end.
Definition manager_getThreadQuants (tid : Z) (m : gmap Z thread) : Z :=
  match m !! tid with Some t => getQuants t | None => -1 end.

(** Modelled from the spec: the id chosen by [thread_manager::createThread],
    "the smallest unused ID in [1, MAX_THREAD_NUM)". *)
Definition smallest_unused (max : Z) (m : gmap Z thread) : option Z :=
  List.find (fun i => bool_decide (m !! i = None)) (seqZ 1 (max - 1)).

(** ** The operating system *)

(** Which of the system calls made during one step succeed. *)
Record OS := {
  sigprocmask_ok : bool;
  setitimer_ok : bool;
  sigaddset_ok : bool;
  sigaction_ok : bool;
  alloc_ok : bool
}.

Definition modify (f : lib -> lib) : M unit := fun s => Ok tt (f s) [].

Definition manager_op (f : gmap Z thread -> Z * gmap Z thread) : M Z := fun s =>
  let '(r, m) := f (manager s) in Ok r (set_manager m s) [].

Definition sched_op (f : scheduler -> Z * scheduler) : M Z := fun s =>
  let '(r, sc) := f (sched s) in Ok r (set_sched sc s) [].

Section Library.

(** [MAX_THREAD_NUM] comes from [uthreads.h], which is not among the sources. *)
Variable MAX_THREAD_NUM : Z.
Variable os : OS.

(** Modelled from the spec: [thread_manager::createThread].  "Fails with
    TooManyThreads when the live count equals MAX_THREAD_NUM" (-1); a failed
    stack allocation is the system error -2. *)
Definition manager_createThread (m : gmap Z thread) : Z * gmap Z thread :=
  if MAX_THREAD_NUM <=? Z.of_nat (size m) then (-1, m)
  else match smallest_unused MAX_THREAD_NUM m with
       | None => (-1, m)
       | Some newTid =>
           if alloc_ok os then (newTid, <[newTid := new_thread]> m)
           else (sysError, m)
       end.

(** Modelled from the spec: [thread_manager::switchContext].  "Save the from
    thread's machine context", "mark to running; increment to's quantum
    count; ... restore to's saved context".  A caller whose record was just
    removed is never resumed. *)
Definition switchContext (from to : Z) : M unit := fun s =>
  let s' := set_manager (alter updateQuants to (manager s)) s in
  match manager s !! from with
  | Some _ => Ok tt s' [SwitchContext from to]
  | None => Gone s' [SwitchContext from to]
  end.

(** Modelled from the spec: [virtual_timer::start] ([virtual_timer.h] is not
    among the sources); negative when the system call fails. *)
Definition vTimer_start : M Z := fun s =>
  if setitimer_ok os
  then Ok 0 (set_vTimer {| vt_quantum := vt_quantum (vTimer s); vt_armed := true |} s)
          [VTimerStart]
  else Ok (-1) s [].

(** Modelled from the spec: [real_timer::start] ([real_timer.h] is not among
    the sources).  "Started with a microsecond delay"; "Starting it again
    before expiry cancels the previous deadline". *)
Definition rTimer_start (usec : Z) : M unit := fun s =>
  Ok tt (set_rTimer (Some usec) s) [RTimerStart usec].

(** *** Memory management and masking *)

Definition clearMem : M unit := emit ClearMem.

Definition exitProg {A} (errMsg : string) : M A :=
  clearMem ;;; emit (Cerr (sysErrorSyntax +:+ errMsg)) ;;; exit 1.

Definition maskSignals : M unit :=
  if sigprocmask_ok os then ret tt else exitProg "Failed to set signal masking.".

Definition unmaskSignals : M unit :=
  if sigprocmask_ok os then ret tt else exitProg "Failed to undo signal masking.".

Definition getRunning : M Z := fun s => Ok (running (sched s)) s [].
Definition addThread (tid : Z) : M unit := modify (fun s => set_sched (sched_addThread tid (sched s)) s).
Definition incr_totalQuants : M unit := modify (fun s => set_totalQuants (totalQuants s + 1) s).

(** [if(vTimer->start() < 0) exitProg(...)]. *)
Definition start_quantum : M unit :=
  r <- vTimer_start ;;
  if r <? 0 then exitProg "Failed to start _timer." else ret tt.

(** *** Sleep *)

Definition calcWakUpTimeval (now : timeval) (usecs_to_sleep : Z) : timeval :=
  let time_to_sleep :=
    {| tv_sec := Z.quot usecs_to_sleep 1000000;
       tv_usec := Z.rem usecs_to_sleep 1000000 |} in
  timeradd now time_to_sleep.

(** *** Signal handlers *)

Definition handleQuantumTimeout (sig : Z) : M unit :=
  if sig =? SIGVTALRM then
    start_quantum ;;;
    incr_totalQuants ;;;
    currRun <- getRunning ;;
    nextToRun <- sched_op sched_whosNextTimeout ;;
    switchContext currRun nextToRun
  else ret tt.

(** The [do ... while] loop of [handleSleepTimeout]; [q] is the sleep queue
    at the start of the iteration and [clock] gives the reading of
    [gettimeofday] in each iteration.  On an empty queue [peek] returns the
    null pointer, which [threadToAwake->id] dereferences. *)
Fixpoint wake_loop (clock : nat -> timeval) (inLoop : nat) (q : list wake_up_info)
  : M unit :=
  match q with
  | [] => fault
  | threadToAwake :: rest =>
      let inLoop := S inLoop in
      let toWakeTid := id threadToAwake in
      modify (set_sleepingThreads (sleeping_pop q)) ;;;
      (r <- manager_op (manager_wakeThread toWakeTid) ;;
       if r =? 0 then
         s <- get ;;
         if negb (manager_isThreadBlocked toWakeTid (manager s))
         then addThread toWakeTid else ret tt
       else ret tt) ;;;
      match rest with
      | nextToWake :: _ =>
          let now := clock inLoop in
          let nextWakingTime := awaken_tv nextToWake in
          let totalTime :=
            to_int ((tv_sec nextWakingTime - tv_sec now) * CONVERT_CONST_SEC_TO_NSEC +
                    (tv_usec nextWakingTime - tv_usec now) * CONVERT_CONST_MSEC_TO_NSEC) in
          if totalTime <=? 0 then wake_loop clock inLoop rest
          else rTimer_start totalTime
      | [] => ret tt
      end
  end.

Definition handleSleepTimeout (sig : Z) (clock : nat -> timeval) : M unit :=
  if sig =? SIGALRM then
    s <- get ;; wake_loop clock 0 (sleepingThreads s)
  else ret tt.

(** *** Library functionality *)

(** Modelled from the spec: [thread_manager::threadManagerSetup] registers
    the record of thread 0; it reports the system error -2 when that fails. *)
Definition threadManagerSetup : M Z := fun s =>
  if alloc_ok os then Ok 0 (set_manager {[ 0 := main_thread ]} s) []
  else Ok sysError s [].

(** Modelled from the spec: a fresh [scheduler] holds the main thread,
    "immediately made running". *)
Definition new_scheduler : scheduler := {| ready := [0]; running := 0 |}.

Definition uthread_init (quantum_usecs : Z) : M Z :=
  if 0 <? quantum_usecs then
    modify (set_manager ∅) ;;;
    r <- threadManagerSetup ;;
    if r =? sysError then clearMem ;;; exit 1
    else
      modify (set_vTimer {| vt_quantum := quantum_usecs; vt_armed := false |}) ;;;
      modify (set_rTimer None) ;;;
      modify (set_sched new_scheduler) ;;;
      modify (set_sleepingThreads []) ;;;
      (if sigaddset_ok os then ret tt
       else exitProg "Failed to initialize signal set to block.") ;;;
      (if sigaction_ok os then ret tt else exitProg "sigaction had failed.") ;;;
      (if sigaction_ok os then ret tt else exitProg "sigaction had failed.") ;;;
      start_quantum ;;;
      incr_totalQuants ;;;
      ret 0
  else
    emit (Cerr (libErrorSyntax +:+ "quantum_usec should be non-negative.")) ;;;
    ret (-1).

Definition uthread_spawn : M Z :=
  maskSignals ;;;
  newTid <- manager_op manager_createThread ;;
  if newTid =? sysError then clearMem ;;; exit 1
  else if newTid =? -1 then
    emit (Cerr (libErrorSyntax +:+ "Number of threads > MAX_THREAD_NUMBER.")) ;;;
    unmaskSignals ;;;
    ret (-1)
  else
    addThread newTid ;;;
    unmaskSignals ;;;
    ret newTid.

Definition uthread_terminate (tid : Z) : M Z :=
  maskSignals ;;;
  currRunning <- getRunning ;;
  if negb (tid =? 0) then
    r <- manager_op (manager_killThread tid) ;;
    if negb (r =? -1) then
      nextToRun <- sched_op (sched_whosNextTermination tid) ;;
      (if negb (nextToRun =? currRunning) then
         start_quantum ;;;
         incr_totalQuants ;;;
         switchContext currRunning nextToRun
       else ret tt) ;;;
      unmaskSignals ;;;
      ret 0
    else
      emit (Cerr (libErrorSyntax +:+ "Thread doesn't exit.")) ;;;
      unmaskSignals ;;;
      ret (-1)
  else
    clearMem ;;;
    unmaskSignals ;;;
    exit 0.

Definition uthread_block (tid : Z) : M Z :=
  maskSignals ;;;
  currRunning <- getRunning ;;
  if negb (tid =? 0) then
    r <- manager_op (manager_blockThread tid) ;;
    if negb (r =? -1) then
      nextToRun <- sched_op (sched_whosNextBlock tid) ;;
      (if negb (nextToRun =? currRunning) then
         start_quantum ;;;
         incr_totalQuants ;;;
         switchContext currRunning nextToRun
       else ret tt) ;;;
      unmaskSignals ;;;
      ret 0
    else
      emit (Cerr (libErrorSyntax +:+ "Thread doesn't exit.")) ;;;
      unmaskSignals ;;;
      ret (-1)
  else
    emit (Cerr (libErrorSyntax +:+ "Blocking the main thread is forbidden.")) ;;;
    unmaskSignals ;;;
    ret (-1).

Definition uthread_resume (tid : Z) : M Z :=
  maskSignals ;;;
  r <- manager_op (manager_unBlockThread tid) ;;
  if negb (r =? -1) then
    s <- get ;;
    (if negb (manager_isThreadAsleep tid (manager s)) then addThread tid else ret tt) ;;;
    unmaskSignals ;;;
    ret 0
  else
    emit (Cerr (libErrorSyntax +:+ "Thread doesn't exit.")) ;;;
    unmaskSignals ;;;
    ret (-1).

(** [usec] is the [unsigned int] argument, [now] the reading of
    [gettimeofday] in [calcWakUpTimeval], whose parameter is an [int]. *)
Definition uthread_sleep (usec : Z) (now : timeval) : M Z :=
  maskSignals ;;;
  runningThreadTid <- getRunning ;;
  s <- get ;;
  let oldFirstToWake := sleeping_peek (sleepingThreads s) in
  if negb (runningThreadTid =? 0) then
    let t := calcWakUpTimeval now (to_int usec) in
    modify (set_sleepingThreads (sleeping_add runningThreadTid t (sleepingThreads s))) ;;;
    s1 <- get ;;
    (match oldFirstToWake, sleeping_peek (sleepingThreads s1) with
     | None, _ => rTimer_start usec
     | Some old, Some new =>
         if negb (id old =? id new) then rTimer_start usec else ret tt
     | Some _, None => fault
     end) ;;;
    manager_op (manager_putThreadToSleep runningThreadTid) ;;;
    nextToRun <- sched_op sched_whosNextSleep ;;
    start_quantum ;;;
    incr_totalQuants ;;;
    switchContext runningThreadTid nextToRun ;;;
    unmaskSignals ;;;
    ret 0
  else
    emit (Cerr (libErrorSyntax +:+ "The main thread can't sleep.")) ;;;
    unmaskSignals ;;;
    ret (-1).

Definition uthread_get_tid : M Z :=
  maskSignals ;;;
  retVal <- getRunning ;;
  unmaskSignals ;;;
  ret retVal.

Definition uthread_get_total_quantums : M Z := fun s => Ok (totalQuants s) s [].

Definition uthread_get_quantums (tid : Z) : M Z :=
  maskSignals ;;;
  s <- get ;;
  let threadQuants := manager_getThreadQuants tid (manager s) in
  if negb (threadQuants =? -1) then
    unmaskSignals ;;;
    ret threadQuants
  else
    emit (Cerr (libErrorSyntax +:+ "Thread doesn't exit.")) ;;;
    unmaskSignals ;;;
    ret (-1).

End Library.

(** The static globals when the program starts: [totalQuants] is 0 and the
    five pointers are null; the objects shown stand for "no object yet". *)
Definition boot : lib :=
  {| manager := ∅;
     sched := {| ready := []; running := 0 |};
     sleepingThreads := [];
     vTimer := {| vt_quantum := 0; vt_armed := false |};
     rTimer := None;
     totalQuants := 0 |}.

(** ** Steps of the library *)

(** The calls a host program can make and the two signals the operating
    system can deliver. *)
Inductive call :=
| Init (quantum_usecs : Z)
| Spawn
| Terminate (tid : Z)
| Block (tid : Z)
| Resume (tid : Z)
| Sleep (usec : Z) (now : timeval)
| GetTid
| GetTotalQuantums
| GetQuantums (tid : Z)
| QuantumTimeout (sig : Z)
| SleepTimeout (sig : Z) (clock : nat -> timeval).

(** A handler returns nothing: its step carries the value 0. *)
Definition void (m : M unit) : M Z := fun s =>
  match m s with
  | Ok _ s' l => Ok 0 s' l
  | Exit c l => Exit c l
  | Gone s' l => Gone s' l
  | Fault l => Fault l
  end.

Definition step (MAX_THREAD_NUM : Z) (os : OS) (c : call) : M Z :=
  match c with
  | Init quantum_usecs => uthread_init os quantum_usecs
  | Spawn => uthread_spawn MAX_THREAD_NUM os
  | Terminate tid => uthread_terminate os tid
  | Block tid => uthread_block os tid
  | Resume tid => uthread_resume os tid
  | Sleep usec now => uthread_sleep os usec now
  | GetTid => uthread_get_tid os
  | GetTotalQuantums => uthread_get_total_quantums
  | GetQuantums tid => uthread_get_quantums os tid
  | QuantumTimeout sig => void (handleQuantumTimeout os sig)
  | SleepTimeout sig clock => void (handleSleepTimeout sig clock)
  end.

(** The library state a step leaves behind, when the process survives it. *)
Definition final {A} (r : result A) : option (lib * list effect) :=
  match r with
  | Ok _ s l | Gone s l => Some (s, l)
  | Exit _ _ | Fault _ => None
  end.

Definition is_switch (e : effect) : bool :=
  match e with SwitchContext _ _ => true | _ => false end.

(** Number of context switches among the effects of a step. *)
Definition switches (log : list effect) : nat :=
  length (List.filter is_switch log).

(** The states the library can be in: after a successful [uthread_init] at
    program start, and after any further call or signal. *)
Inductive reachable (MAX_THREAD_NUM : Z) : lib -> Prop :=
| reach_init os quantum_usecs s log :
    uthread_init os quantum_usecs boot = Ok 0 s log ->
    reachable MAX_THREAD_NUM s
| reach_step os c s s' log :
    reachable MAX_THREAD_NUM s ->
    (forall q, c <> Init q) ->
    final (step MAX_THREAD_NUM os c s) = Some (s', log) ->
    reachable MAX_THREAD_NUM s'.

(** What holds of the registry and the scheduler in every reachable state:
    the running thread heads the ready queue, no id is queued twice, queued
    threads are registered and neither blocked nor sleeping, the main thread
    is queued, and no quantum count is negative. *)
Record wf_ms (m : gmap Z thread) (sc : scheduler) : Prop := {
  wf_head : head (ready sc) = Some (running sc);
  wf_nodup : NoDup (ready sc);
  wf_ready : forall tid, tid ∈ ready sc ->
    exists t, m !! tid = Some t /\ _isBlocked t = false /\ _isSleeping t = false;
  wf_main : 0 ∈ ready sc;
  wf_quants : forall tid t, m !! tid = Some t -> 0 <= _quants t
}.

Definition wf (s : lib) : Prop := wf_ms (manager s) (sched s).

(** A call that the library rejects: bad input, unknown id or no room. *)
Inductive rejected (MAX_THREAD_NUM : Z) (s : lib) : call -> Prop :=
| rej_init q : q <= 0 -> rejected MAX_THREAD_NUM s (Init q)
| rej_block_main : rejected MAX_THREAD_NUM s (Block 0)
| rej_sleep_main usec now :
    running (sched s) = 0 -> rejected MAX_THREAD_NUM s (Sleep usec now)
| rej_terminate tid :
    tid <> 0 -> manager s !! tid = None -> rejected MAX_THREAD_NUM s (Terminate tid)
| rej_block tid : manager s !! tid = None -> rejected MAX_THREAD_NUM s (Block tid)
| rej_resume tid : manager s !! tid = None -> rejected MAX_THREAD_NUM s (Resume tid)
| rej_get_quantums tid :
    manager s !! tid = None -> rejected MAX_THREAD_NUM s (GetQuantums tid)
| rej_spawn :
    MAX_THREAD_NUM <= Z.of_nat (size (manager s)) -> rejected MAX_THREAD_NUM s Spawn.

(** An operating system whose calls all succeed. *)
Definition os_ok : OS :=
  {| sigprocmask_ok := true; setitimer_ok := true; sigaddset_ok := true;
     sigaction_ok := true; alloc_ok := true |}.

(** ** The wake handler, iteration by iteration *)

(** What one iteration of the loop of [handleSleepTimeout] does to the
    registry and the ready queue for the popped id [tid]. *)
Definition wake_entry (tid : Z) (s : lib) : lib :=
  match manager s !! tid with
  | Some t =>
      let s1 := set_manager (<[tid := setSleep false t]> (manager s)) s in
      if _isBlocked t then s1 else set_sched (sched_addThread tid (sched s1)) s1
  | None => s
  end.

(** All the entries popped by one invocation, oldest first. *)
Definition wake_all (popped : list wake_up_info) (s : lib) : lib :=
  foldl (fun s w => wake_entry (id w) s) s popped.

(** The value the handler assigns to [totalTime] for the new head. *)
Definition totalTime_of (nextToWake : wake_up_info) (now : timeval) : Z :=
  to_int ((tv_sec (awaken_tv nextToWake) - tv_sec now) * CONVERT_CONST_SEC_TO_NSEC +
          (tv_usec (awaken_tv nextToWake) - tv_usec now) * CONVERT_CONST_MSEC_TO_NSEC).

(** The time from [now] to the wake time of an entry, in microseconds. *)
Definition usec_until (nextToWake : wake_up_info) (now : timeval) : Z :=
  (tv_sec (awaken_tv nextToWake) - tv_sec now) * 1000000 +
  (tv_usec (awaken_tv nextToWake) - tv_usec now).

(** The state after a sequence of calls and signals, when the process
    survives all of them. *)
Fixpoint run_calls (MAX_THREAD_NUM : Z) (os : OS) (cs : list call) (s : lib)
  : option lib :=
  match cs with
  | [] => Some s
  | c :: cs' =>
      match c, final (step MAX_THREAD_NUM os c s) with
      | Init _, _ => None
      | _, Some (s', _) => run_calls MAX_THREAD_NUM os cs' s'
      | _, None => None
      end
  end.

(** ** Scenarios *)

(** States of a run with [MAX_THREAD_NUM = 100] and a quantum of 100000
    microseconds.  [st_init]: right after [uthread_init]. *)
Definition st_init : lib :=
  {| manager := {[ 0 := main_thread ]};
     sched := new_scheduler;
     sleepingThreads := [];
     vTimer := {| vt_quantum := 100000; vt_armed := true |};
     rTimer := None;
     totalQuants := 1 |}.

(** After the main thread has spawned thread 1. *)
Definition st_spawned : lib :=
  {| manager := <[ 1 := new_thread ]> {[ 0 := main_thread ]};
     sched := {| ready := [0; 1]; running := 0 |};
     sleepingThreads := [];
     vTimer := {| vt_quantum := 100000; vt_armed := true |};
     rTimer := None;
     totalQuants := 1 |}.

(** After the first quantum has expired: thread 1 runs. *)
Definition st_running1 : lib :=
  {| manager := <[ 1 := Thread 1 false false ]> {[ 0 := main_thread ]};
     sched := {| ready := [1; 0]; running := 1 |};
     sleepingThreads := [];
     vTimer := {| vt_quantum := 100000; vt_armed := true |};
     rTimer := None;
     totalQuants := 2 |}.

(** After thread 1 has called [uthread_sleep(1000000)] at time 10 s. *)
Definition st_sleeping1 : lib :=
  {| manager := <[ 1 := Thread 1 false true ]> {[ 0 := Thread 2 false false ]};
     sched := {| ready := [0]; running := 0 |};
     sleepingThreads := [WakeUp 1 (Timeval 11 0)];
     vTimer := {| vt_quantum := 100000; vt_armed := true |};
     rTimer := Some 1000000;
     totalQuants := 3 |}.

(** After the main thread has then blocked the sleeping thread 1. *)
Definition st_blocked_sleeping1 : lib :=
  {| manager := <[ 1 := Thread 1 true true ]> {[ 0 := Thread 2 false false ]};
     sched := {| ready := [0]; running := 0 |};
     sleepingThreads := [WakeUp 1 (Timeval 11 0)];
     vTimer := {| vt_quantum := 100000; vt_armed := true |};
     rTimer := Some 1000000;
     totalQuants := 3 |}.

(** Threads 1 and 2 were spawned, ran in turn and went to sleep at time 10 s,
    for 1000000 and 1000500 microseconds. *)
Definition st_two_sleepers : lib :=
  {| manager := <[ 2 := Thread 1 false true ]>
                  (<[ 1 := Thread 1 false true ]> {[ 0 := Thread 2 false false ]});
     sched := {| ready := [0]; running := 0 |};
     sleepingThreads := [WakeUp 1 (Timeval 11 0); WakeUp 2 (Timeval 11 500)];
     vTimer := {| vt_quantum := 100000; vt_armed := true |};
     rTimer := Some 1000000;
     totalQuants := 4 |}.


(** After the wake handler has run in [st_blocked_sleeping1]. *)
Definition st_blocked_woken1 : lib :=
  {| manager := <[ 1 := Thread 1 true false ]> {[ 0 := Thread 2 false false ]};
     sched := {| ready := [0]; running := 0 |};
     sleepingThreads := [];
     vTimer := {| vt_quantum := 100000; vt_armed := true |};
     rTimer := Some 1000000;
     totalQuants := 3 |}.

(** After the wake handler has run in [st_two_sleepers] at time 11 s. *)
Definition st_one_sleeper : lib :=
  {| manager := <[ 2 := Thread 1 false true ]>
                  (<[ 1 := Thread 1 false false ]> {[ 0 := Thread 2 false false ]});
     sched := {| ready := [0; 1]; running := 0 |};
     sleepingThreads := [WakeUp 2 (Timeval 11 500)];
     vTimer := {| vt_quantum := 100000; vt_armed := true |};
     rTimer := Some 500000;
     totalQuants := 4 |}.

(** Threads 1 and 2 were spawned and ran in turn; at time 10 s thread 1 went
    to sleep for 5000000 microseconds and then thread 2 for 1000000. *)
Definition st_far_sleeper : lib :=
  {| manager := <[ 2 := Thread 1 false true ]>
                  (<[ 1 := Thread 1 false true ]> {[ 0 := Thread 2 false false ]});
     sched := {| ready := [0]; running := 0 |};
     sleepingThreads := [WakeUp 2 (Timeval 11 0); WakeUp 1 (Timeval 15 0)];
     vTimer := {| vt_quantum := 100000; vt_armed := true |};
     rTimer := Some 1000000;
     totalQuants := 4 |}.

(** After the wake handler has run in [st_far_sleeper] at time 11 s. *)
Definition st_far_woken : lib :=
  {| manager := <[ 2 := Thread 1 false false ]>
                  (<[ 1 := Thread 1 false false ]> {[ 0 := Thread 2 false false ]});
     sched := {| ready := [0; 2; 1]; running := 0 |};
     sleepingThreads := [];
     vTimer := {| vt_quantum := 100000; vt_armed := true |};
     rTimer := Some 1000000;
     totalQuants := 4 |}.

(** Threads 1 and 2 were spawned, thread 1 ran and went to sleep at time 10 s
    for 1000000 microseconds, and thread 2 runs. *)
Definition st_sleeper_beside : lib :=
  {| manager := <[ 2 := Thread 1 false false ]>
                  (<[ 1 := Thread 1 false true ]> {[ 0 := Thread 1 false false ]});
     sched := {| ready := [2; 0]; running := 2 |};
     sleepingThreads := [WakeUp 1 (Timeval 11 0)];
     vTimer := {| vt_quantum := 100000; vt_armed := true |};
     rTimer := Some 1000000;
     totalQuants := 3 |}.

(** After thread 2 has then terminated the sleeping thread 1. *)
Definition st_stale_entry : lib :=
  {| manager := <[ 2 := Thread 1 false false ]> {[ 0 := Thread 1 false false ]};
     sched := {| ready := [2; 0]; running := 2 |};
     sleepingThreads := [WakeUp 1 (Timeval 11 0)];
     vTimer := {| vt_quantum := 100000; vt_armed := true |};
     rTimer := Some 1000000;
     totalQuants := 3 |}.

(** After thread 2 has spawned a thread, which was given the id 1, and this
    thread has run, after two quantum expiries, and gone to sleep at time
    10 s + 300000 us for 2000000 microseconds. *)
Definition st_id_reused : lib :=
  {| manager := <[ 2 := Thread 2 false false ]>
                  (<[ 1 := Thread 1 false true ]> {[ 0 := Thread 2 false false ]});
     sched := {| ready := [2; 0]; running := 2 |};
     sleepingThreads := [WakeUp 1 (Timeval 11 0); WakeUp 1 (Timeval 12 300000)];
     vTimer := {| vt_quantum := 100000; vt_armed := true |};
     rTimer := Some 1000000;
     totalQuants := 6 |}.

(** After the wake handler has run in [st_id_reused] at time 11 s. *)
Definition st_woken_early : lib :=
  {| manager := <[ 2 := Thread 2 false false ]>
                  (<[ 1 := Thread 1 false false ]> {[ 0 := Thread 2 false false ]});
     sched := {| ready := [2; 0; 1]; running := 2 |};
     sleepingThreads := [WakeUp 1 (Timeval 12 300000)];
     vTimer := {| vt_quantum := 100000; vt_armed := true |};
     rTimer := Some 1300000000;
     totalQuants := 6 |}.

(** ** Measures used to state further properties *)

(** A [timeval] as a number of microseconds, and the range [timeradd]
    expects of [tv_usec]. *)
Definition timeval_usec (t : timeval) : Z := tv_sec t * 1000000 + tv_usec t.
Definition timeval_ok (t : timeval) : Prop := 0 <= tv_usec t < 1000000.

(** The calls that begin with [maskSignals]. *)
Definition masks (c : call) : bool :=
  match c with
  | Spawn | Terminate _ | Block _ | Resume _ | Sleep _ _ | GetTid | GetQuantums _ => true
  | Init _ | GetTotalQuantums | QuantumTimeout _ | SleepTimeout _ _ => false
  end.

(** The calls that use the sleep queue and the real timer. *)
Definition sleeps (c : call) : bool :=
  match c with
  | Init _ | Sleep _ _ | SleepTimeout _ _ => true
  | _ => false
  end.

(** The sum of the quantum counts of the registered threads. *)
Definition sum_quants (m : gmap Z thread) : Z :=
  map_fold (fun _ t acc => _quants t + acc) 0 m.

Definition is_terminate (c : call) : bool :=
  match c with Terminate _ => true | _ => false end.

(** The running thread is registered and has been given a quantum. *)
Definition has_run_ms (m : gmap Z thread) (sc : scheduler) : Prop :=
  exists t, m !! running sc = Some t /\ 1 <= _quants t.

Definition has_run (s : lib) : Prop := has_run_ms (manager s) (sched s).

Definition is_vstart (e : effect) : bool :=
  match e with VTimerStart => true | _ => false end.

Definition is_rstart (e : effect) : bool :=
  match e with RTimerStart _ => true | _ => false end.

(** Number of restarts of the virtual timer among the effects of a step. *)
Definition vstarts (log : list effect) : nat := length (List.filter is_vstart log).

(** The quanta counted by [totalQuants] that no registered thread accounts
    for. *)
Definition unattributed (s : lib) : Z := totalQuants s - sum_quants (manager s).

(** The two halves of a quantum expiry: the scheduler moves on to the next
    thread, and the thread now running is given its quantum. *)
Definition rotate (s : lib) : lib :=
  set_sched (sched_whosNextTimeout (sched s)).2 s.

Definition credit (s : lib) : lib :=
  {| manager := alter updateQuants (running (sched s)) (manager s);
     sched := sched s;
     sleepingThreads := sleepingThreads s;
     vTimer := {| vt_quantum := vt_quantum (vTimer s); vt_armed := true |};
     rTimer := rTimer s;
     totalQuants := totalQuants s + 1 |}.

(** A step that ends with the thread that ran at its start still registered,
    and with the same thread running when it made no context switch; or
    that exits the process. *)
Definition caller_kept {A} (s : lib) (r : result A) : Prop :=
  match r with
  | Ok _ s' log =>
      is_Some (manager s' !! running (sched s)) /\
      (switches log = 0%nat -> running (sched s') = running (sched s))
  | Exit _ _ => True
  | Gone _ _ | Fault _ => False
  end.

(** Between two registries, no thread registered in both has another quantum
    count. *)
Definition same_quants (m m' : gmap Z thread) : Prop :=
  forall tid t t', m !! tid = Some t -> m' !! tid = Some t' -> _quants t' = _quants t.

(** Between two states, a quantum count can only have grown by one, and then
    for the thread that runs in the second state. *)
Definition quants_step (s s' : lib) : Prop :=
  forall tid t t',
    manager s !! tid = Some t -> manager s' !! tid = Some t' ->
    _quants t' = _quants t \/
    (_quants t' = _quants t + 1 /\ tid = running (sched s')).

(** * Proofs *)

Lemma set_manager_id s : set_manager (manager s) s = s.
Proof. by destruct s. Qed.

Ltac unfold_ops :=
  unfold step, void, uthread_init, uthread_spawn, uthread_terminate, uthread_block,
    uthread_resume, uthread_sleep, uthread_get_tid, uthread_get_total_quantums,
    uthread_get_quantums, handleQuantumTimeout, handleSleepTimeout,
    threadManagerSetup, start_quantum, maskSignals, unmaskSignals, exitProg,
    clearMem, getRunning, addThread, incr_totalQuants, vTimer_start, rTimer_start,
    switchContext, manager_op, sched_op, modify, get, emit, exit, fault,
    bind, ret in *.


(** ** The ready queue *)

Lemma elem_of_remove_id tid q x : x ∈ remove_id tid q <-> x ∈ q /\ x <> tid.
Proof. unfold remove_id. rewrite list_elem_of_filter. tauto. Qed.

Lemma remove_id_absent tid q : tid ∉ q -> remove_id tid q = q.
Proof.
  unfold remove_id. induction q as [|x q IH]; intros Hn; [done|].
  rewrite not_elem_of_cons in Hn. destruct Hn as [Hne Hq].
  rewrite filter_cons_True by congruence. by rewrite IH.
Qed.

Lemma head_remove_id_ne tid q r :
  head q = Some r -> r <> tid -> head (remove_id tid q) = Some r.
Proof.
  destruct q as [|x q]; [done|]. simpl. intros [= ->] Hne.
  unfold remove_id. by rewrite filter_cons_True.
Qed.

Lemma head_default_Some (q : list Z) (d x : Z) :
  x ∈ q -> head q = Some (default d (head q)).
Proof. destruct q; [by rewrite elem_of_nil|done]. Qed.

(** ** Preservation of the invariant by the registry and scheduler operations *)

Lemma wf_ms_fresh : wf_ms {[ 0 := main_thread ]} new_scheduler.
Proof.
  split; simpl.
  - done.
  - apply NoDup_singleton.
  - intros tid Hin. apply list_elem_of_singleton in Hin as ->.
    exists main_thread. by rewrite lookup_singleton_eq.
  - by apply list_elem_of_singleton.
  - intros tid t Ht. apply lookup_singleton_Some in Ht as [_ <-]. simpl. lia.
Qed.

Lemma wf_ms_removed m m' sc tid r :
  wf_ms m sc -> tid <> 0 ->
  (forall x, x <> tid -> m' !! x = m !! x) ->
  (forall x t, m' !! x = Some t -> 0 <= _quants t) ->
  head (remove_id tid (ready sc)) = Some r ->
  wf_ms m' {| ready := remove_id tid (ready sc); running := r |}.
Proof.
  intros [Hh Hnd Hr Hm Hq] Hne Hm' Hq' Hr'. split; simpl.
  - done.
  - by apply NoDup_filter.
  - intros x Hx. apply elem_of_remove_id in Hx as [Hx Hxne].
    rewrite Hm' by done. by apply Hr.
  - apply elem_of_remove_id. done.
  - done.
Qed.

Lemma wf_ms_running_in m sc : wf_ms m sc -> running sc ∈ ready sc.
Proof. intros H. apply head_Some_elem_of, H. Qed.

Lemma wf_ms_head_after_remove m sc tid :
  wf_ms m sc -> tid <> 0 ->
  head (remove_id tid (ready sc))
  = Some (default (running sc) (head (remove_id tid (ready sc)))).
Proof.
  intros H Hne. apply head_default_Some with (x := 0).
  apply elem_of_remove_id. split; [apply H|done].
Qed.

Lemma wf_ms_whosNextTermination m sc tid :
  wf_ms m sc -> tid <> 0 ->
  wf_ms (delete tid m) (sched_whosNextTermination tid sc).2.
Proof.
  intros H Hne. unfold sched_whosNextTermination. simpl.
  eapply wf_ms_removed; eauto.
  - intros x Hx. by rewrite lookup_delete_ne.
  - intros x t Hx. apply lookup_delete_Some in Hx as [_ Hx]. eapply wf_quants; eauto.
  - by eapply wf_ms_head_after_remove.
Qed.

Lemma wf_ms_whosNextBlock m sc tid t f :
  wf_ms m sc -> tid <> 0 -> m !! tid = Some t -> _quants (f t) = _quants t ->
  wf_ms (<[tid := f t]> m) (sched_whosNextBlock tid sc).2.
Proof.
  intros H Hne Ht Hf. unfold sched_whosNextBlock. simpl.
  eapply wf_ms_removed; eauto.
  - intros x Hx. by rewrite lookup_insert_ne.
  - intros x t' Hx. apply lookup_insert_Some in Hx as [[_ <-]|[_ Hx]].
    + rewrite Hf. eapply wf_quants; eauto.
    + eapply wf_quants; eauto.
  - destruct (decide (tid = running sc)) as [->|Hnr].
    + by eapply wf_ms_head_after_remove.
    + apply head_remove_id_ne; [apply H|done].
Qed.

Lemma wf_ms_whosNextTimeout m sc :
  wf_ms m sc -> wf_ms m (sched_whosNextTimeout sc).2.
Proof.
  intros H. unfold sched_whosNextTimeout.
  destruct (ready sc) as [|h t] eqn:E; [done|]. simpl.
  destruct H as [Hh Hnd Hr Hm Hq]. rewrite E in *.
  apply NoDup_cons in Hnd as [Hnh Hnd].
  split; simpl.
  - destruct t; done.
  - apply NoDup_app. split; [done|]. split; [|apply NoDup_singleton].
    intros x Hx Hx'. apply list_elem_of_singleton in Hx' as ->. done.
  - intros x Hx. apply Hr. rewrite elem_of_app, list_elem_of_singleton in Hx.
    rewrite elem_of_cons. tauto.
  - rewrite elem_of_cons in Hm. rewrite elem_of_app, list_elem_of_singleton. tauto.
  - done.
Qed.

Lemma wf_ms_addThread m sc tid t :
  wf_ms m sc -> m !! tid = Some t -> _isBlocked t = false -> _isSleeping t = false ->
  wf_ms m (sched_addThread tid sc).
Proof.
  intros H Ht Hb Hs. unfold sched_addThread.
  destruct (decide (tid ∈ ready sc)) as [Hin|Hnin]; [done|].
  destruct H as [Hh Hnd Hr Hm Hq]. split; simpl.
  - destruct (ready sc); [done|]. done.
  - apply NoDup_app. split; [done|]. split; [|apply NoDup_singleton].
    intros x Hx Hx'. apply list_elem_of_singleton in Hx' as ->. done.
  - intros x Hx. rewrite elem_of_app, list_elem_of_singleton in Hx.
    destruct Hx as [Hx| ->]; [by apply Hr|eauto].
  - rewrite elem_of_app. tauto.
  - done.
Qed.

Lemma wf_ms_update m sc tid t t' :
  wf_ms m sc -> m !! tid = Some t ->
  0 <= _quants t' ->
  (tid ∈ ready sc -> _isBlocked t' = false /\ _isSleeping t' = false) ->
  wf_ms (<[tid := t']> m) sc.
Proof.
  intros [Hh Hnd Hr Hm Hq] Ht Hq' Hfl. split; try done.
  - intros x Hx. destruct (decide (x = tid)) as [->|Hne].
    + exists t'. rewrite lookup_insert_eq. destruct (Hfl Hx). done.
    + rewrite lookup_insert_ne by done. by apply Hr.
  - intros x tx Hx. apply lookup_insert_Some in Hx as [[_ <-]|[_ Hx]]; eauto.
Qed.

Lemma wf_ms_switch m sc to :
  wf_ms m sc -> wf_ms (alter updateQuants to m) sc.
Proof.
  intros H. destruct (m !! to) as [t|] eqn:Ht.
  - assert (alter updateQuants to m = <[to := updateQuants t]> m) as ->.
    { apply map_eq. intros i. rewrite lookup_alter. rewrite lookup_insert.
      repeat case_decide; subst; try done. by rewrite Ht. }
    eapply wf_ms_update; eauto.
    + simpl. pose proof (wf_quants _ _ H _ _ Ht). lia.
    + intros Hin. destruct (wf_ready _ _ H _ Hin) as (t0 & Ht0 & Hb & Hs).
      simpl. by simplify_eq.
  - assert (alter updateQuants to m = m) as ->; [|done].
    apply map_eq. intros i. rewrite lookup_alter. case_decide; subst; try done.
    by rewrite Ht.
Qed.

Lemma wf_ms_insert_fresh m sc tid t' :
  wf_ms m sc -> m !! tid = None -> 0 <= _quants t' -> wf_ms (<[tid := t']> m) sc.
Proof.
  intros [Hh Hnd Hr Hm Hq] Hnone Hq'. split; try done.
  - intros x Hx. destruct (Hr x Hx) as (t & Ht & Hfl).
    exists t. rewrite lookup_insert_ne; [done|]. intros ->. congruence.
  - intros x tx Hx. apply lookup_insert_Some in Hx as [[_ <-]|[_ Hx]]; eauto.
Qed.

Lemma smallest_unused_Some max m i :
  smallest_unused max m = Some i -> 1 <= i < max /\ m !! i = None.
Proof.
  unfold smallest_unused. intros H. apply find_some in H as [Hin Hf].
  apply list_elem_of_In, elem_of_seqZ in Hin.
  apply bool_decide_eq_true in Hf. split; [lia|done].
Qed.

(** ** Preservation of the invariant by the steps *)

Lemma wf_init os quantum_usecs s0 s log :
  uthread_init os quantum_usecs s0 = Ok 0 s log -> wf s.
Proof.
  unfold_ops. intros H.
  destruct (0 <? quantum_usecs); simpl in H; [|discriminate].
  destruct (alloc_ok os); simpl in H; [|discriminate].
  destruct (sigaddset_ok os); simpl in H; [|discriminate].
  destruct (sigaction_ok os); simpl in H; [|discriminate].
  destruct (setitimer_ok os); simpl in H; [|discriminate].
  injection H as <- _. apply wf_ms_fresh.
Qed.

Lemma wf_spawn MAX_THREAD_NUM os s s' log :
  wf s -> final (uthread_spawn MAX_THREAD_NUM os s) = Some (s', log) -> wf s'.
Proof.
  intros Hwf. unfold_ops.
  destruct (sigprocmask_ok os); simpl; [|discriminate].
  unfold manager_createThread.
  destruct (MAX_THREAD_NUM <=? Z.of_nat (size (manager s))); simpl.
  { intros [= <- _]. by rewrite set_manager_id. }
  destruct (smallest_unused MAX_THREAD_NUM (manager s)) as [newTid|] eqn:E; simpl.
  2:{ intros [= <- _]. by rewrite set_manager_id. }
  apply smallest_unused_Some in E as [Hrange Hnone].
  destruct (alloc_ok os); simpl; [|discriminate].
  unfold sysError.
  destruct (newTid =? -2) eqn:E1; [lia|].
  destruct (newTid =? -1) eqn:E2; [lia|]. simpl.
  intros [= <- _]. unfold wf. simpl.
  eapply wf_ms_addThread with (t := new_thread); try done.
  - apply wf_ms_insert_fresh; done.
  - by rewrite lookup_insert_eq.
Qed.

Lemma wf_terminate os tid s s' log :
  wf s -> final (uthread_terminate os tid s) = Some (s', log) -> wf s'.
Proof.
  intros Hwf. unfold_ops.
  destruct (sigprocmask_ok os); simpl; [|discriminate].
  destruct (tid =? 0) eqn:E0; simpl; [discriminate|].
  unfold manager_killThread.
  destruct (manager s !! tid) as [t|] eqn:Ht; simpl.
  2:{ intros [= <- _]. by rewrite set_manager_id. }
  pose proof (wf_ms_whosNextTermination _ _ tid Hwf ltac:(lia)) as Hwf'.
  destruct (negb _); simpl.
  - destruct (setitimer_ok os); simpl; [|discriminate].
    destruct (delete tid (manager s) !! running (sched s)); simpl;
      intros [= <- _]; by apply wf_ms_switch.
  - by intros [= <- _].
Qed.

Lemma wf_block os tid s s' log :
  wf s -> final (uthread_block os tid s) = Some (s', log) -> wf s'.
Proof.
  intros Hwf. unfold_ops.
  destruct (sigprocmask_ok os); simpl; [|discriminate].
  destruct (tid =? 0) eqn:E0; simpl; [by intros [= <- _]|].
  unfold manager_blockThread, manager_setFlag.
  destruct (manager s !! tid) as [t|] eqn:Ht; simpl.
  2:{ intros [= <- _]. by rewrite set_manager_id. }
  pose proof (wf_ms_whosNextBlock _ _ tid t (setBlocked true) Hwf ltac:(lia) Ht eq_refl)
    as Hwf'.
  destruct (negb _); simpl.
  - destruct (setitimer_ok os); simpl; [|discriminate].
    destruct (<[tid:=setBlocked true t]> (manager s) !! running (sched s)); simpl;
      intros [= <- _]; by apply wf_ms_switch.
  - by intros [= <- _].
Qed.

Lemma wf_resume os tid s s' log :
  wf s -> final (uthread_resume os tid s) = Some (s', log) -> wf s'.
Proof.
  intros Hwf. unfold_ops.
  destruct (sigprocmask_ok os); simpl; [|discriminate].
  unfold manager_unBlockThread, manager_setFlag.
  destruct (manager s !! tid) as [t|] eqn:Ht; simpl.
  2:{ intros [= <- _]. by rewrite set_manager_id. }
  assert (wf_ms (<[tid:=setBlocked false t]> (manager s)) (sched s)) as Hwf1.
  { eapply wf_ms_update; eauto.
    - simpl. eapply wf_quants; eauto.
    - intros Hin. destruct (wf_ready _ _ Hwf _ Hin) as (t0 & Ht0 & Hb & Hs).
      simpl. by simplify_eq. }
  unfold manager_isThreadAsleep. simpl.
  rewrite (lookup_insert_eq (manager s)). simpl.
  destruct (_isSleeping t) eqn:Hs; simpl; intros [= <- _]; [done|].
  unfold wf. simpl.
  apply (wf_ms_addThread _ _ tid (setBlocked false t)); [done|apply lookup_insert_eq|done|done].
Qed.

Lemma sleeping_add_peek tid t q : is_Some (sleeping_peek (sleeping_add tid t q)).
Proof. destruct q as [|w q]; simpl; [eauto|]. destruct (timer_lt _ _); simpl; eauto. Qed.

Lemma wf_sleep os usec now s s' log :
  wf s -> final (uthread_sleep os usec now s) = Some (s', log) -> wf s'.
Proof.
  intros Hwf. unfold_ops.
  destruct (sigprocmask_ok os); simpl; [|discriminate].
  destruct (running (sched s) =? 0) eqn:E0; simpl; [by intros [= <- _]|].
  destruct (wf_ready _ _ Hwf _ (wf_ms_running_in _ _ Hwf)) as (t & Ht & Hb & Hs).
  pose proof (wf_ms_whosNextBlock _ _ (running (sched s)) t (setSleep true)
                Hwf ltac:(lia) Ht eq_refl) as Hwf'.
  destruct (sleeping_add_peek (running (sched s)) (calcWakUpTimeval now (to_int usec))
              (sleepingThreads s)) as [new ->].
  unfold manager_putThreadToSleep, manager_setFlag.
  destruct (sleeping_peek (sleepingThreads s)) as [old|];
    [destruct (negb (id old =? id new))|]; simpl; rewrite Ht; simpl;
    (destruct (setitimer_ok os); simpl; [|discriminate]);
    rewrite (lookup_insert_eq (manager s)); simpl;
    intros [= <- _]; by apply wf_ms_switch.
Qed.

Lemma wf_quantum os sig s s' log :
  wf s -> final (handleQuantumTimeout os sig s) = Some (s', log) -> wf s'.
Proof.
  intros Hwf. unfold_ops.
  destruct (sig =? SIGVTALRM); simpl; [|by intros [= <- _]].
  destruct (setitimer_ok os); simpl; [|discriminate].
  pose proof (wf_ms_whosNextTimeout _ _ Hwf) as Hwf'.
  destruct (sched_whosNextTimeout (sched s)) as [next sc'] eqn:E. simpl in *.
  destruct (manager s !! running (sched s)); simpl;
    intros [= <- _]; by apply wf_ms_switch.
Qed.

Lemma wf_observers os tid s s' log :
  wf s ->
  final (uthread_get_tid os s) = Some (s', log) \/
  final (uthread_get_total_quantums s) = Some (s', log) \/
  final (uthread_get_quantums os tid s) = Some (s', log) ->
  wf s'.
Proof.
  intros Hwf. unfold_ops.
  destruct (sigprocmask_ok os); simpl.
  - destruct (negb _); simpl; intros [H|[H|H]]; by injection H as <- _.
  - intros [H|[H|H]]; try discriminate. by injection H as <- _.
Qed.

(** ** The wake handler *)

Lemma wake_entry_sleeping tid r s :
  wake_entry tid (set_sleepingThreads r s) = set_sleepingThreads r (wake_entry tid s).
Proof.
  unfold wake_entry. simpl. destruct (manager s !! tid) as [t|]; [|done].
  by destruct (_isBlocked t).
Qed.

Lemma wake_all_sleeping popped r s :
  wake_all popped (set_sleepingThreads r s) = set_sleepingThreads r (wake_all popped s).
Proof.
  revert s. induction popped as [|w popped IH]; intros s; [done|].
  simpl. by rewrite wake_entry_sleeping, IH.
Qed.

Lemma result_eta {A} (r : result A) :
  match r with
  | Ok b s2 l2 => Ok b s2 l2
  | Exit c l2 => Exit c l2
  | Gone s2 l2 => Gone s2 l2
  | Fault l2 => Fault l2
  end = r.
Proof. by destruct r. Qed.

Lemma wake_loop_cons clock inLoop w rest s :
  wake_loop clock inLoop (w :: rest) s =
  let s1 := wake_entry (id w) (set_sleepingThreads rest s) in
  match rest with
  | nextToWake :: _ =>
      let d := totalTime_of nextToWake (clock (S inLoop)) in
      if d <=? 0 then wake_loop clock (S inLoop) rest s1
      else Ok tt (set_rTimer (Some d) s1) [RTimerStart d]
  | [] => Ok tt s1 []
  end.
Proof.
  simpl. unfold_ops. simpl. unfold wake_entry, manager_wakeThread, manager_setFlag,
    manager_isThreadBlocked, totalTime_of. simpl.
  destruct (manager s !! id w) as [t|] eqn:Ht; simpl.
  - rewrite (lookup_insert_eq (manager s)). simpl. unfold getBlocked. simpl.
    destruct (_isBlocked t); simpl.
    + destruct rest as [|nxt rest']; [done|].
      destruct (_ <=? 0); [|done].
      by rewrite !result_eta.
    + destruct rest as [|nxt rest']; [done|].
      destruct (_ <=? 0); [|done].
      by rewrite !result_eta.
  - assert (set_manager (manager s) (set_sleepingThreads rest s)
            = set_sleepingThreads rest s) as -> by (by destruct s).
    destruct rest as [|nxt rest']; [done|].
    destruct (_ <=? 0); [|done].
    by rewrite !result_eta.
Qed.

(** One invocation pops a non-empty prefix of the sleep queue, wakes its
    entries in order, and restarts the real timer exactly when entries are
    left. *)
Lemma wake_loop_spec clock q : forall inLoop s,
  q <> [] ->
  exists popped rest,
    q = popped ++ rest /\ popped <> [] /\
    let s1 := set_sleepingThreads rest (wake_all popped s) in
    match rest with
    | [] => wake_loop clock inLoop q s = Ok tt s1 []
    | nextToWake :: _ =>
        let d := totalTime_of nextToWake (clock (inLoop + length popped)%nat) in
        0 < d /\
        wake_loop clock inLoop q s = Ok tt (set_rTimer (Some d) s1) [RTimerStart d]
    end.
Proof.
  induction q as [|w rest IH]; intros inLoop s Hq; [done|].
  rewrite wake_loop_cons. cbv zeta.
  destruct rest as [|nxt rest'].
  { exists [w], []. split; [done|]. split; [done|]. simpl.
    by rewrite wake_entry_sleeping. }
  destruct (totalTime_of nxt (clock (S inLoop)) <=? 0) eqn:Ed.
  - destruct (IH (S inLoop)
                (wake_entry (id w) (set_sleepingThreads (nxt :: rest') s))
                ltac:(done))
      as (popped & rest & Heq & Hne & Hrun).
    exists (w :: popped), rest. split; [by rewrite Heq|]. split; [done|].
    cbv zeta in Hrun |- *.
    assert (set_sleepingThreads rest
              (wake_all popped (wake_entry (id w) (set_sleepingThreads (nxt :: rest') s)))
            = set_sleepingThreads rest (wake_all (w :: popped) s)) as Hst.
    { simpl. by rewrite wake_entry_sleeping, wake_all_sleeping. }
    rewrite Hst in Hrun.
    replace (inLoop + length (w :: popped))%nat with (S inLoop + length popped)%nat
      by (simpl; lia).
    done.
  - exists [w], (nxt :: rest'). split; [done|]. split; [done|].
    cbv zeta. simpl length. replace (inLoop + 1)%nat with (S inLoop) by lia.
    split; [lia|]. simpl. by rewrite wake_entry_sleeping.
Qed.

Lemma wake_entry_frame tid s :
  running (sched (wake_entry tid s)) = running (sched s) /\
  sleepingThreads (wake_entry tid s) = sleepingThreads s /\
  vTimer (wake_entry tid s) = vTimer s /\
  rTimer (wake_entry tid s) = rTimer s /\
  totalQuants (wake_entry tid s) = totalQuants s.
Proof.
  unfold wake_entry. destruct (manager s !! tid) as [t|]; [|done].
  destruct (_isBlocked t); simpl; [done|].
  unfold sched_addThread. by destruct (decide _).
Qed.

Lemma wake_all_frame popped : forall s,
  running (sched (wake_all popped s)) = running (sched s) /\
  sleepingThreads (wake_all popped s) = sleepingThreads s /\
  vTimer (wake_all popped s) = vTimer s /\
  rTimer (wake_all popped s) = rTimer s /\
  totalQuants (wake_all popped s) = totalQuants s.
Proof.
  induction popped as [|w popped IH]; intros s; [done|]. simpl.
  destruct (IH (wake_entry (id w) s)) as (-> & -> & -> & -> & ->).
  apply wake_entry_frame.
Qed.

Lemma wake_entry_manager tid s x :
  manager (wake_entry tid s) !! x =
  if decide (x = tid) then setSleep false <$> manager s !! x else manager s !! x.
Proof.
  unfold wake_entry. destruct (manager s !! tid) as [t|] eqn:Ht.
  - assert (manager (if _isBlocked t
                     then set_manager (<[tid:=setSleep false t]> (manager s)) s
                     else set_sched
                            (sched_addThread tid
                               (sched (set_manager (<[tid:=setSleep false t]> (manager s)) s)))
                            (set_manager (<[tid:=setSleep false t]> (manager s)) s))
            = <[tid:=setSleep false t]> (manager s)) as -> by (by destruct (_isBlocked t)).
    rewrite lookup_insert. destruct (decide (tid = x)) as [->|Hne].
    + rewrite decide_True by done. by rewrite Ht.
    + by rewrite decide_False by congruence.
  - destruct (decide (x = tid)) as [->|]; [by rewrite Ht|done].
Qed.

Lemma wake_all_manager popped : forall s x,
  manager (wake_all popped s) !! x =
  if decide (x ∈ id <$> popped) then setSleep false <$> manager s !! x
  else manager s !! x.
Proof.
  induction popped as [|w popped IH]; intros s x.
  - destruct (decide _) as [H|]; [by apply elem_of_nil in H|done].
  - change (wake_all (w :: popped) s) with (wake_all popped (wake_entry (id w) s)).
    rewrite IH, wake_entry_manager. rewrite fmap_cons.
    destruct (decide (x = id w)) as [->|Hne];
      destruct (decide (_ ∈ id <$> popped)) as [Hin|Hnin];
      destruct (decide (_ ∈ _ :: _)) as [Hin'|Hnin']; try done.
    + by destruct (manager s !! id w).
    + exfalso. apply Hnin'. by apply list_elem_of_further.
    + exfalso. apply Hnin'. apply list_elem_of_here.
    + exfalso. apply Hnin'. by apply list_elem_of_further.
    + exfalso. apply elem_of_cons in Hin' as [?|?]; done.
Qed.

(** The handler changes no blocked flag and no quantum count. *)
Lemma wake_all_flags popped s x :
  manager_isThreadBlocked x (manager (wake_all popped s))
  = manager_isThreadBlocked x (manager s) /\
  manager_getThreadQuants x (manager (wake_all popped s))
  = manager_getThreadQuants x (manager s).
Proof.
  unfold manager_isThreadBlocked, manager_getThreadQuants.
  rewrite wake_all_manager.
  destruct (decide _); [|done]. by destruct (manager s !! x).
Qed.

Lemma wake_entry_ready tid s :
  exists added,
    ready (sched (wake_entry tid s)) = ready (sched s) ++ added /\
    forall a, a ∈ added ->
      a = tid /\ (a ∉ ready (sched s)) /\
      exists t, manager s !! a = Some t /\ _isBlocked t = false.
Proof.
  unfold wake_entry. destruct (manager s !! tid) as [t|] eqn:Ht.
  2:{ exists []. rewrite app_nil_r. split; [done|]. intros a Ha.
      by apply elem_of_nil in Ha. }
  destruct (_isBlocked t) eqn:Hb; simpl.
  { exists []. rewrite app_nil_r. split; [done|]. intros a Ha.
    by apply elem_of_nil in Ha. }
  unfold sched_addThread. destruct (decide (tid ∈ ready (sched s))) as [Hin|Hnin]; simpl.
  - exists []. rewrite app_nil_r. split; [done|]. intros a Ha.
    by apply elem_of_nil in Ha.
  - exists [tid]. split; [done|]. intros a Ha.
    apply list_elem_of_singleton in Ha as ->. eauto.
Qed.

Lemma wake_all_ready popped : forall s,
  exists added,
    ready (sched (wake_all popped s)) = ready (sched s) ++ added /\
    forall a, a ∈ added ->
      a ∈ id <$> popped /\ (a ∉ ready (sched s)) /\
      exists t, manager s !! a = Some t /\ _isBlocked t = false.
Proof.
  induction popped as [|w popped IH]; intros s.
  - exists []. simpl. rewrite app_nil_r. split; [done|]. intros a Ha.
    by apply elem_of_nil in Ha.
  - simpl. destruct (IH (wake_entry (id w) s)) as (added2 & Hr2 & Ha2).
    destruct (wake_entry_ready (id w) s) as (added1 & Hr1 & Ha1).
    exists (added1 ++ added2). split.
    { rewrite Hr2, Hr1. by rewrite app_assoc. }
    intros a Ha. apply elem_of_app in Ha as [Ha|Ha].
    + destruct (Ha1 a Ha) as (-> & Hnin & Ht). split; [apply list_elem_of_here|done].
    + destruct (Ha2 a Ha) as (Hin & Hnin & t & Ht & Hb).
      split; [by apply list_elem_of_further|].
      rewrite Hr1 in Hnin. rewrite elem_of_app in Hnin.
      split; [tauto|].
      rewrite wake_entry_manager in Ht.
      destruct (decide (a = id w)); [|eauto].
      destruct (manager s !! a) as [t0|]; [|done]. simpl in Ht. injection Ht as <-.
      eauto.
Qed.

Lemma wf_wake_entry tid s : wf s -> wf (wake_entry tid s).
Proof.
  intros Hwf. unfold wake_entry. destruct (manager s !! tid) as [t|] eqn:Ht; [|done].
  assert (wf_ms (<[tid:=setSleep false t]> (manager s)) (sched s)) as Hwf1.
  { eapply wf_ms_update; eauto.
    - simpl. eapply wf_quants; eauto.
    - intros Hin. destruct (wf_ready _ _ Hwf _ Hin) as (t0 & Ht0 & Hb & Hs).
      simpl. by simplify_eq. }
  destruct (_isBlocked t) eqn:Hb; [done|].
  unfold wf. simpl.
  apply (wf_ms_addThread _ _ tid (setSleep false t)); [done|apply lookup_insert_eq|done|done].
Qed.

Lemma wf_wake_all popped : forall s, wf s -> wf (wake_all popped s).
Proof.
  induction popped as [|w popped IH]; intros s Hwf; [done|].
  simpl. by apply IH, wf_wake_entry.
Qed.

Lemma handleSleepTimeout_other_signal sig clock s :
  sig <> SIGALRM -> handleSleepTimeout sig clock s = Ok tt s [].
Proof.
  intros Hsig. unfold handleSleepTimeout.
  destruct (sig =? SIGALRM) eqn:E; [lia|done].
Qed.

Lemma handleSleepTimeout_loop clock s :
  handleSleepTimeout SIGALRM clock s = wake_loop clock 0 (sleepingThreads s) s.
Proof. unfold handleSleepTimeout, bind, get. simpl. apply result_eta. Qed.

Lemma handleSleepTimeout_spec clock s :
  sleepingThreads s <> [] ->
  exists popped rest,
    sleepingThreads s = popped ++ rest /\ popped <> [] /\
    let s1 := set_sleepingThreads rest (wake_all popped s) in
    match rest with
    | [] => handleSleepTimeout SIGALRM clock s = Ok tt s1 []
    | nextToWake :: _ =>
        let d := totalTime_of nextToWake (clock (length popped)) in
        0 < d /\
        handleSleepTimeout SIGALRM clock s
        = Ok tt (set_rTimer (Some d) s1) [RTimerStart d]
    end.
Proof.
  intros Hq. rewrite handleSleepTimeout_loop.
  apply (wake_loop_spec clock (sleepingThreads s) 0%nat s Hq).
Qed.

Lemma wf_wake sig clock s s' log :
  wf s -> final (handleSleepTimeout sig clock s) = Some (s', log) -> wf s'.
Proof.
  intros Hwf. destruct (decide (sig = SIGALRM)) as [->|Hsig].
  2:{ rewrite handleSleepTimeout_other_signal by done. by intros [= <- _]. }
  destruct (sleepingThreads s) as [|w q] eqn:Eq.
  { rewrite handleSleepTimeout_loop, Eq. discriminate. }
  destruct (handleSleepTimeout_spec clock s) as (popped & rest & _ & _ & Hrun).
  { by rewrite Eq. }
  cbv zeta in Hrun. destruct rest as [|nxt rest].
  - rewrite Hrun. intros [= <- _]. apply (wf_wake_all popped s Hwf).
  - destruct Hrun as [_ ->]. intros [= <- _]. apply (wf_wake_all popped s Hwf).
Qed.

Lemma final_void (m : M unit) s : final (void m s) = final (m s).
Proof. unfold void. by destruct (m s). Qed.

Lemma wf_step MAX_THREAD_NUM os c s s' log :
  wf s -> (forall q, c <> Init q) ->
  final (step MAX_THREAD_NUM os c s) = Some (s', log) -> wf s'.
Proof.
  intros Hwf Hc. destruct c; simpl; try rewrite final_void.
  - by destruct (Hc quantum_usecs).
  - by apply wf_spawn.
  - by apply wf_terminate.
  - by apply wf_block.
  - by apply wf_resume.
  - by apply wf_sleep.
  - intros H. eapply (wf_observers os 0); eauto.
  - intros H. eapply (wf_observers os 0); eauto.
  - intros H. eapply (wf_observers os tid); eauto.
  - by apply wf_quantum.
  - by apply wf_wake.
Qed.

(** Every reachable state satisfies the invariant. *)
Lemma reachable_wf MAX_THREAD_NUM s : reachable MAX_THREAD_NUM s -> wf s.
Proof.
  induction 1 as [os q s log Hinit|os c s s' log _ IH Hc Hstep].
  - by eapply wf_init.
  - by eapply wf_step.
Qed.

(** ** The quantum counter *)

Ltac finished := intros [= <- <-]; unfold switches; simpl.

Lemma counter_block os tid s s' log :
  final (uthread_block os tid s) = Some (s', log) ->
  totalQuants s' = totalQuants s + Z.of_nat (switches log) /\
  (switches log = 1%nat <-> running (sched s') <> running (sched s)) /\
  (switches log <= 1)%nat.
Proof.
  unfold_ops.
  destruct (sigprocmask_ok os); simpl; [|discriminate].
  destruct (tid =? 0) eqn:E0; simpl.
  { finished. split; [lia|]. split; [|lia]. split; [lia|done]. }
  unfold manager_blockThread, manager_setFlag.
  destruct (manager s !! tid) as [t|] eqn:Ht; simpl.
  2:{ finished. split; [lia|]. split; [|lia]. split; [lia|done]. }
  destruct (negb _) eqn:En; simpl.
  - destruct (setitimer_ok os); simpl; [|discriminate].
    apply negb_true_iff, Z.eqb_neq in En.
    destruct (<[tid:=setBlocked true t]> (manager s) !! running (sched s)); simpl;
      finished; (split; [lia|]); (split; [|lia]); split; done.
  - apply negb_false_iff, Z.eqb_eq in En.
    finished. split; [lia|]. split; [|lia]. split; [lia|done].
Qed.

Lemma counter_terminate os tid s s' log :
  final (uthread_terminate os tid s) = Some (s', log) ->
  totalQuants s' = totalQuants s + Z.of_nat (switches log) /\
  (switches log = 1%nat <-> running (sched s') <> running (sched s)) /\
  (switches log <= 1)%nat.
Proof.
  unfold_ops.
  destruct (sigprocmask_ok os); simpl; [|discriminate].
  destruct (tid =? 0) eqn:E0; simpl; [discriminate|].
  unfold manager_killThread.
  destruct (manager s !! tid) as [t|] eqn:Ht; simpl.
  2:{ finished. split; [lia|]. split; [|lia]. split; [lia|done]. }
  destruct (negb _) eqn:En; simpl.
  - destruct (setitimer_ok os); simpl; [|discriminate].
    apply negb_true_iff, Z.eqb_neq in En.
    destruct (delete tid (manager s) !! running (sched s)); simpl;
      finished; (split; [lia|]); (split; [|lia]); split; done.
  - apply negb_false_iff, Z.eqb_eq in En.
    finished. split; [lia|]. split; [|lia]. split; [lia|done].
Qed.

Lemma counter_sleep os usec now s s' log :
  final (uthread_sleep os usec now s) = Some (s', log) ->
  totalQuants s' = totalQuants s + Z.of_nat (switches log) /\
  (switches log = 1%nat <-> running (sched s) <> 0) /\
  (switches log <= 1)%nat.
Proof.
  unfold_ops.
  destruct (sigprocmask_ok os); simpl; [|discriminate].
  destruct (running (sched s) =? 0) eqn:E0; simpl.
  { finished. split; [lia|]. split; [|lia]. split; [lia|]. lia. }
  destruct (sleeping_add_peek (running (sched s)) (calcWakUpTimeval now (to_int usec))
              (sleepingThreads s)) as [new ->].
  destruct (sleeping_peek (sleepingThreads s)) as [old|];
    [destruct (negb (id old =? id new))|]; simpl.
  all: match goal with
       | |- context [manager_putThreadToSleep ?a ?b] =>
           destruct (manager_putThreadToSleep a b) as [r m] eqn:Ep
       end; simpl.
  all: destruct (setitimer_ok os); simpl; [|discriminate].
  all: match goal with
       | |- context [match ?x with Some _ => _ | None => _ end] => destruct x
       end; simpl.
  all: finished; (split; [lia|]); (split; [|lia]); split; [lia|done].
Qed.

Lemma counter_quantum os s s' log :
  final (handleQuantumTimeout os SIGVTALRM s) = Some (s', log) ->
  totalQuants s' = totalQuants s + 1 /\ switches log = 1%nat.
Proof.
  unfold_ops. simpl.
  destruct (setitimer_ok os); simpl; [|discriminate].
  destruct (sched_whosNextTimeout (sched s)) as [next sc'] eqn:E. simpl.
  destruct (manager s !! running (sched s)); simpl; by finished.
Qed.

Lemma counter_quantum_other os sig s s' log :
  sig <> SIGVTALRM ->
  final (handleQuantumTimeout os sig s) = Some (s', log) ->
  s' = s /\ log = [].
Proof.
  intros Hsig. unfold_ops. destruct (sig =? SIGVTALRM) eqn:E; [lia|].
  by intros [= <- <-].
Qed.

Lemma counter_spawn MAX_THREAD_NUM os s s' log :
  final (uthread_spawn MAX_THREAD_NUM os s) = Some (s', log) ->
  totalQuants s' = totalQuants s /\ switches log = 0%nat.
Proof.
  unfold_ops.
  destruct (sigprocmask_ok os); simpl; [|discriminate].
  destruct (manager_createThread MAX_THREAD_NUM os (manager s)) as [newTid m]. simpl.
  destruct (newTid =? sysError); simpl; [discriminate|].
  destruct (newTid =? -1); simpl; by finished.
Qed.

Lemma counter_resume os tid s s' log :
  final (uthread_resume os tid s) = Some (s', log) ->
  totalQuants s' = totalQuants s /\ switches log = 0%nat.
Proof.
  unfold_ops.
  destruct (sigprocmask_ok os); simpl; [|discriminate].
  destruct (manager_unBlockThread tid (manager s)) as [r m]. simpl.
  destruct (negb (r =? -1)); simpl; [|by finished].
  destruct (negb _); simpl; by finished.
Qed.

Lemma counter_observers os tid s s' log :
  final (uthread_get_tid os s) = Some (s', log) \/
  final (uthread_get_total_quantums s) = Some (s', log) \/
  final (uthread_get_quantums os tid s) = Some (s', log) ->
  s' = s /\ switches log = 0%nat.
Proof.
  unfold_ops.
  destruct (sigprocmask_ok os); simpl.
  - destruct (negb _); simpl; intros [H|[H|H]]; revert H; by finished.
  - intros [H|[H|H]]; try discriminate. revert H. by finished.
Qed.

Lemma counter_wake sig clock s s' log :
  final (handleSleepTimeout sig clock s) = Some (s', log) ->
  totalQuants s' = totalQuants s /\ switches log = 0%nat /\
  running (sched s') = running (sched s) /\ vTimer s' = vTimer s.
Proof.
  destruct (decide (sig = SIGALRM)) as [->|Hsig].
  2:{ rewrite handleSleepTimeout_other_signal by done. by finished. }
  destruct (sleepingThreads s) as [|w q] eqn:Eq.
  { rewrite handleSleepTimeout_loop, Eq. discriminate. }
  destruct (handleSleepTimeout_spec clock s) as (popped & rest & _ & _ & Hrun).
  { by rewrite Eq. }
  destruct (wake_all_frame popped s) as (Hr & _ & Hv & _ & Ht).
  cbv zeta in Hrun. destruct rest as [|nxt rest].
  - rewrite Hrun. by finished.
  - destruct Hrun as [_ ->]. by finished.
Qed.

(** ** The scenarios are reachable *)

Lemma st_init_reachable : reachable 100 st_init.
Proof. apply (reach_init 100 os_ok 100000 st_init [VTimerStart]). by vm_compute. Qed.

Lemma st_spawned_reachable : reachable 100 st_spawned.
Proof.
  apply (reach_step 100 os_ok Spawn st_init st_spawned [] st_init_reachable);
    [discriminate|by vm_compute].
Qed.

Lemma st_running1_reachable : reachable 100 st_running1.
Proof.
  apply (reach_step 100 os_ok (QuantumTimeout SIGVTALRM) st_spawned st_running1
           [VTimerStart; SwitchContext 0 1] st_spawned_reachable);
    [discriminate|by vm_compute].
Qed.

Lemma st_sleeping1_reachable : reachable 100 st_sleeping1.
Proof.
  apply (reach_step 100 os_ok (Sleep 1000000 (Timeval 10 0)) st_running1 st_sleeping1
           [RTimerStart 1000000; VTimerStart; SwitchContext 1 0] st_running1_reachable);
    [discriminate|by vm_compute].
Qed.

Lemma st_blocked_sleeping1_reachable : reachable 100 st_blocked_sleeping1.
Proof.
  apply (reach_step 100 os_ok (Block 1) st_sleeping1 st_blocked_sleeping1 []
           st_sleeping1_reachable);
    [discriminate|by vm_compute].
Qed.

Lemma run_calls_reachable MAX_THREAD_NUM os cs : forall s s',
  reachable MAX_THREAD_NUM s ->
  run_calls MAX_THREAD_NUM os cs s = Some s' ->
  reachable MAX_THREAD_NUM s'.
Proof.
  induction cs as [|c cs IH]; intros s s' Hs.
  - by intros [= <-].
  - destruct c; cbn [run_calls]; try discriminate;
      (match goal with
       | |- context [final ?r] => destruct (final r) as [[s1 log]|] eqn:E
       end; [|discriminate]);
      intros H; apply (IH s1); try done;
      eapply reach_step; eauto; discriminate.
Qed.

Lemma st_two_sleepers_reachable : reachable 100 st_two_sleepers.
Proof.
  apply (run_calls_reachable 100 os_ok
           [Spawn; Spawn; QuantumTimeout SIGVTALRM;
            Sleep 1000000 (Timeval 10 0); Sleep 1000500 (Timeval 10 0)]
           st_init st_two_sleepers st_init_reachable).
  by vm_compute.
Qed.

Lemma st_far_sleeper_reachable : reachable 100 st_far_sleeper.
Proof.
  apply (run_calls_reachable 100 os_ok
           [Spawn; Spawn; QuantumTimeout SIGVTALRM;
            Sleep 5000000 (Timeval 10 0); Sleep 1000000 (Timeval 10 0)]
           st_init st_far_sleeper st_init_reachable).
  by vm_compute.
Qed.

Lemma st_sleeper_beside_reachable : reachable 100 st_sleeper_beside.
Proof.
  apply (run_calls_reachable 100 os_ok
           [Spawn; Spawn; QuantumTimeout SIGVTALRM; Sleep 1000000 (Timeval 10 0)]
           st_init st_sleeper_beside st_init_reachable).
  by vm_compute.
Qed.

Lemma st_id_reused_reachable : reachable 100 st_id_reused.
Proof.
  apply (run_calls_reachable 100 os_ok
           [Terminate 1; Spawn; QuantumTimeout SIGVTALRM; QuantumTimeout SIGVTALRM;
            Sleep 2000000 (Timeval 10 300000)]
           st_sleeper_beside st_id_reused st_sleeper_beside_reachable).
  by vm_compute.
Qed.

Lemma counter_init os quantum_usecs s log :
  uthread_init os quantum_usecs boot = Ok 0 s log -> totalQuants s = 1.
Proof.
  unfold_ops.
  destruct (0 <? quantum_usecs); simpl; [|discriminate].
  destruct (alloc_ok os); simpl; [|discriminate].
  destruct (sigaddset_ok os); simpl; [|discriminate].
  destruct (sigaction_ok os); simpl; [|discriminate].
  destruct (setitimer_ok os); simpl; [|discriminate].
  by intros [= <- _].
Qed.

Lemma counter_step MAX_THREAD_NUM os c s s' log :
  (forall q, c <> Init q) ->
  final (step MAX_THREAD_NUM os c s) = Some (s', log) ->
  totalQuants s <= totalQuants s' /\
  totalQuants s' = totalQuants s + Z.of_nat (switches log) /\
  (switches log <= 1)%nat /\
  match c with
  | QuantumTimeout sig => sig = SIGVTALRM -> switches log = 1%nat
  | Sleep _ _ => switches log = 1%nat <-> running (sched s) <> 0
  | Block _ | Terminate _ =>
      switches log = 1%nat <-> running (sched s') <> running (sched s)
  | _ => switches log = 0%nat
  end.
Proof.
  intros Hc.
  destruct c; cbn [step]; try rewrite final_void; intros H.
  - by destruct (Hc quantum_usecs).
  - apply counter_spawn in H as [-> ->]. simpl. lia.
  - apply counter_terminate in H as (-> & Hiff & Hle). repeat split; try lia; apply Hiff.
  - apply counter_block in H as (-> & Hiff & Hle). repeat split; try lia; apply Hiff.
  - apply counter_resume in H as [-> ->]. simpl. lia.
  - apply counter_sleep in H as (-> & Hiff & Hle). repeat split; try lia; apply Hiff.
  - destruct (counter_observers os 0 s s' log) as [-> ->]; [tauto|]. simpl. lia.
  - destruct (counter_observers os 0 s s' log) as [-> ->]; [tauto|]. simpl. lia.
  - destruct (counter_observers os tid s s' log) as [-> ->]; [tauto|]. simpl. lia.
  - destruct (decide (sig = SIGVTALRM)) as [->|Hsig].
    + apply counter_quantum in H as [-> ->]. simpl. lia.
    + apply counter_quantum_other in H as [-> ->]; [|done]. unfold switches. simpl.
      repeat split; lia.
  - apply counter_wake in H as (-> & -> & _). simpl. lia.
Qed.

Lemma counter_run MAX_THREAD_NUM os cs : forall s s',
  run_calls MAX_THREAD_NUM os cs s = Some s' -> totalQuants s <= totalQuants s'.
Proof.
  induction cs as [|c cs IH]; intros s s'.
  - intros [= <-]. lia.
  - destruct c; cbn [run_calls]; try discriminate;
      (match goal with
       | |- context [final ?r] => destruct (final r) as [[s1 log]|] eqn:E
       end; [|discriminate]);
      intros H; apply IH in H;
      eapply counter_step in E as [Hle _]; try discriminate; lia.
Qed.

(** * The claims *)

(** C1. [uthread_get_total_quantums] returns 1 right after a successful
    [uthread_init] at program start.  In every later step the counter grows
    by the number of context switches of that step, which is 0 or 1: it is 1
    at a quantum expiry, at a sleep of a thread other than main, and at a
    block or terminate call exactly when the running thread changes; it is 0
    in every other step.  So the counter never decreases, over any sequence
    of calls and signals. *)
Theorem total_quantums_counter (MAX_THREAD_NUM : Z) (os : OS) :
  (forall quantum_usecs s log,
     uthread_init os quantum_usecs boot = Ok 0 s log ->
     uthread_get_total_quantums s = Ok 1 s []) /\
  (forall c s s' log,
     (forall q, c <> Init q) ->
     final (step MAX_THREAD_NUM os c s) = Some (s', log) ->
     totalQuants s <= totalQuants s' /\
     totalQuants s' = totalQuants s + Z.of_nat (switches log) /\
     (switches log <= 1)%nat /\
     match c with
     | QuantumTimeout sig => sig = SIGVTALRM -> switches log = 1%nat
     | Sleep _ _ => switches log = 1%nat <-> running (sched s) <> 0
     | Block _ | Terminate _ =>
         switches log = 1%nat <-> running (sched s') <> running (sched s)
     | _ => switches log = 0%nat
     end) /\
  (forall cs s s',
     run_calls MAX_THREAD_NUM os cs s = Some s' -> totalQuants s <= totalQuants s').
Proof.
  split; [|split].
  - intros q s log Hinit. unfold uthread_get_total_quantums.
    by rewrite (counter_init _ _ _ _ Hinit).
  - apply counter_step.
  - apply counter_run.
Qed.

Lemma total_quantums_counter_witness :
  uthread_get_total_quantums st_init = Ok 1 st_init [] /\
  totalQuants st_running1 = totalQuants st_spawned + 1.
Proof.
  destruct (total_quantums_counter 100 os_ok) as (Hinit & Hstep & _). split.
  - apply (Hinit 100000 st_init [VTimerStart]). by vm_compute.
  - destruct (Hstep (QuantumTimeout SIGVTALRM) st_spawned st_running1
                [VTimerStart; SwitchContext 0 1])
      as (_ & Heq & _ & Hone).
    + discriminate.
    + by vm_compute.
    + rewrite Heq, (Hone eq_refl). reflexivity.
Defined.

(** C8. A call rejected for bad inan unknown id or lack of room returns
    -1, writes one line that starts with "thread library error: ", and
    leaves the library state as it was: no timer is restarted and no context
    switch happens. *)
Theorem rejected_call_no_change (MAX_THREAD_NUM : Z) (os : OS) (s : lib) (c : call) :
  sigprocmask_ok os = true ->
  rejected MAX_THREAD_NUM s c ->
  exists msg, step MAX_THREAD_NUM os c s = Ok (-1) s [Cerr (libErrorSyntax +:+ msg)].
Proof.
  intros Hmask Hrej.
  destruct Hrej as [q Hq| |usec now Hrun|tid Hne Hnone|tid Hnone|tid Hnone|tid Hnone|Hfull];
    unfold_ops; rewrite ?Hmask; simpl.
  - destruct (0 <? q) eqn:E; [lia|]. eauto.
  - eauto.
  - rewrite Hrun. simpl. eauto.
  - destruct (tid =? 0) eqn:E; [lia|]. simpl.
    unfold manager_killThread. rewrite Hnone. simpl. rewrite ?Hmask.
    rewrite set_manager_id. eauto.
  - destruct (tid =? 0) eqn:E; simpl; [eauto|].
    unfold manager_blockThread, manager_setFlag. rewrite Hnone. simpl. rewrite ?Hmask.
    rewrite set_manager_id. eauto.
  - unfold manager_unBlockThread, manager_setFlag. rewrite Hnone. simpl. rewrite ?Hmask.
    rewrite set_manager_id. eauto.
  - unfold manager_getThreadQuants. rewrite Hnone. simpl. rewrite ?Hmask. eauto.
  - unfold manager_createThread.
    destruct (MAX_THREAD_NUM <=? Z.of_nat (size (manager s))) eqn:E; [|lia].
    simpl. rewrite ?Hmask. rewrite set_manager_id. eauto.
Qed.

Lemma rejected_call_no_change_witness :
  sigprocmask_ok os_ok = true /\
  rejected 100 st_spawned (Resume 7) /\
  exists msg,
    step 100 os_ok (Resume 7) st_spawned
    = Ok (-1) st_spawned [Cerr (libErrorSyntax +:+ msg)].
Proof.
  split; [reflexivity|]. split; [apply rej_resume; by vm_compute|].
  apply (rejected_call_no_change 100 os_ok st_spawned (Resume 7)).
  - reflexivity.
  - apply rej_resume. by vm_compute.
Defined.

(** C10. In a reachable state [uthread_get_tid], [uthread_get_total_quantums]
    and [uthread_get_quantums] of an existing thread return the running id,
    the counter and the thread's quantum count; they leave the library state
    as it is and have no effect outside it, and a second call right after
    the first returns the same value. *)
Theorem observers_pure (MAX_THREAD_NUM : Z) (os : OS) (s : lib) (tid : Z) (t : thread) :
  sigprocmask_ok os = true ->
  reachable MAX_THREAD_NUM s ->
  manager s !! tid = Some t ->
  (uthread_get_tid os s = Ok (running (sched s)) s [] /\
   uthread_get_total_quantums s = Ok (totalQuants s) s [] /\
   uthread_get_quantums os tid s = Ok (_quants t) s []) /\
  ((a <- uthread_get_tid os ;; b <- uthread_get_tid os ;; ret (a, b)) s
   = Ok (running (sched s), running (sched s)) s [] /\
   (a <- uthread_get_total_quantums ;; b <- uthread_get_total_quantums ;; ret (a, b)) s
   = Ok (totalQuants s, totalQuants s) s [] /\
   (a <- uthread_get_quantums os tid ;; b <- uthread_get_quantums os tid ;; ret (a, b)) s
   = Ok (_quants t, _quants t) s []).
Proof.
  intros Hmask Hreach Ht.
  pose proof (wf_quants _ _ (reachable_wf _ _ Hreach) _ _ Ht) as Hq.
  assert (uthread_get_tid os s = Ok (running (sched s)) s []) as Htid.
  { unfold_ops. by rewrite ?Hmask. }
  assert (uthread_get_quantums os tid s = Ok (_quants t) s []) as Hquants.
  { unfold_ops. rewrite ?Hmask. simpl. unfold manager_getThreadQuants. rewrite Ht.
    unfold getQuants. destruct (_quants t =? -1) eqn:E; [lia|]. simpl.
    by rewrite ?Hmask. }
  split; [done|].
  unfold bind at 1 3 5. rewrite Htid, Hquants.
  unfold bind. rewrite Htid, Hquants. done.
Qed.

Lemma observers_pure_witness :
  uthread_get_tid os_ok st_running1 = Ok 1 st_running1 [] /\
  uthread_get_total_quantums st_running1 = Ok 2 st_running1 [] /\
  uthread_get_quantums os_ok 0 st_running1 = Ok 1 st_running1 [].
Proof.
  apply (observers_pure 100 os_ok st_running1 0 main_thread).
  - reflexivity.
  - apply st_running1_reachable.
  - by vm_compute.
Defined.

(** C5 fails as stated: a thread that was spawned and has not run yet exists,
    and [uthread_get_quantums] returns 0 for it. *)
Lemma get_quantums_of_new_thread :
  reachable 100 st_spawned /\
  manager st_spawned !! 1 = Some new_thread /\
  uthread_get_quantums os_ok 1 st_spawned = Ok 0 st_spawned [] /\
  ~ (forall s tid, reachable 100 s -> is_Some (manager s !! tid) ->
       exists v s' log, uthread_get_quantums os_ok tid s = Ok v s' log /\ 1 <= v).
Proof.
  split; [apply st_spawned_reachable|]. split; [by vm_compute|].
  split; [by vm_compute|].
  intros H. destruct (H st_spawned 1 st_spawned_reachable) as (v & s' & log & Heq & Hv).
  - exists new_thread. by vm_compute.
  - vm_compute in Heq. injection Heq as <- _ _. lia.
Qed.

(** C5, amended. In a reachable state [uthread_get_quantums] of an existing
    thread returns its quantum count, which is at least 0, and the call
    returns -1 exactly when no thread has that id. *)
Theorem get_quantums_result (MAX_THREAD_NUM : Z) (os : OS) (s : lib) (tid : Z) :
  sigprocmask_ok os = true ->
  reachable MAX_THREAD_NUM s ->
  exists v log,
    uthread_get_quantums os tid s = Ok v s log /\
    (forall t, manager s !! tid = Some t -> v = _quants t /\ 0 <= v /\ log = []) /\
    (v = -1 <-> manager s !! tid = None).
Proof.
  intros Hmask Hreach. pose proof (reachable_wf _ _ Hreach) as Hwf.
  unfold_ops. rewrite ?Hmask. simpl. unfold manager_getThreadQuants.
  destruct (manager s !! tid) as [t|] eqn:Ht.
  - pose proof (wf_quants _ _ Hwf _ _ Ht) as Hq. unfold getQuants.
    destruct (_quants t =? -1) eqn:E; [lia|]. simpl. rewrite ?Hmask.
    eexists _, _. split; [done|]. split.
    + intros t' [= <-]. done.
    + split; [lia|done].
  - simpl. rewrite ?Hmask. eexists _, _. split; [done|]. split; [done|]. done.
Qed.

Lemma get_quantums_result_witness :
  exists v log,
    uthread_get_quantums os_ok 1 st_running1 = Ok v st_running1 log /\
    (forall t, manager st_running1 !! 1 = Some t -> v = _quants t /\ 0 <= v /\ log = []) /\
    (v = -1 <-> manager st_running1 !! 1 = None).
Proof.
  apply (get_quantums_result 100 os_ok st_running1 1).
  - reflexivity.
  - apply st_running1_reachable.
Defined.

Lemma setBlocked_same t : setBlocked (_isBlocked t) t = t.
Proof. by destruct t. Qed.

Lemma scheduler_eta sc : {| ready := ready sc; running := running sc |} = sc.
Proof. by destruct sc. Qed.

Lemma set_sched_manager_id s : set_sched (sched s) (set_manager (manager s) s) = s.
Proof. by destruct s. Qed.

(** C4. In a reachable state, resuming an existing thread that is not blocked
    and is in the ready queue (whose head is the running thread), and
    blocking a thread that is already blocked, return 0, change nothing in
    the library state and have no outside effect; the ready queue, the same
    before and after, lists no id twice. *)
Theorem resume_block_idempotent (MAX_THREAD_NUM : Z) (os : OS) (s : lib)
    (tid : Z) (t : thread) :
  sigprocmask_ok os = true ->
  reachable MAX_THREAD_NUM s ->
  manager s !! tid = Some t ->
  (_isBlocked t = false -> tid ∈ ready (sched s) ->
   uthread_resume os tid s = Ok 0 s []) /\
  (_isBlocked t = true -> uthread_block os tid s = Ok 0 s []) /\
  head (ready (sched s)) = Some (running (sched s)) /\
  NoDup (ready (sched s)).
Proof.
  intros Hmask Hreach Ht. pose proof (reachable_wf _ _ Hreach) as Hwf.
  split; [|split; [|split; [apply Hwf|apply Hwf]]].
  - intros Hb Hin.
    destruct (wf_ready _ _ Hwf _ Hin) as (t0 & Ht0 & _ & Hs). simplify_eq.
    unfold_ops. rewrite ?Hmask. simpl.
    unfold manager_unBlockThread, manager_setFlag. rewrite Ht. simpl.
    rewrite <- Hb, setBlocked_same, (insert_id (manager s)) by done.
    unfold manager_isThreadAsleep. simpl. rewrite Ht. unfold getSleep. rewrite Hs.
    simpl. rewrite ?Hmask. unfold sched_addThread.
    rewrite decide_True by done. by rewrite set_sched_manager_id.
  - intros Hb.
    assert (tid ∉ ready (sched s)) as Hnin.
    { intros Hin. destruct (wf_ready _ _ Hwf _ Hin) as (t0 & Ht0 & Hb0 & _).
      simplify_eq. congruence. }
    assert (tid <> 0) as Hne0.
    { intros ->. apply Hnin, Hwf. }
    assert (tid <> running (sched s)) as Hner.
    { intros ->. by apply Hnin, (wf_ms_running_in (manager s)). }
    unfold_ops. rewrite ?Hmask. simpl.
    destruct (tid =? 0) eqn:E0; [lia|]. simpl.
    unfold manager_blockThread, manager_setFlag. rewrite Ht. simpl.
    rewrite <- Hb, setBlocked_same, (insert_id (manager s)) by done.
    unfold sched_whosNextBlock. rewrite remove_id_absent by done.
    rewrite decide_False by done. rewrite scheduler_eta. simpl.
    rewrite Z.eqb_refl. simpl. rewrite ?Hmask. by rewrite set_sched_manager_id.
Qed.

Lemma resume_block_idempotent_witness :
  uthread_resume os_ok 1 st_spawned = Ok 0 st_spawned [] /\
  uthread_block os_ok 1 st_blocked_sleeping1 = Ok 0 st_blocked_sleeping1 [] /\
  NoDup (ready (sched st_spawned)).
Proof.
  destruct (resume_block_idempotent 100 os_ok st_spawned 1 new_thread)
    as (Hresume & _ & _ & Hnodup);
    [reflexivity|apply st_spawned_reachable|by vm_compute|].
  destruct (resume_block_idempotent 100 os_ok st_blocked_sleeping1 1 (Thread 1 true true))
    as (_ & Hblock & _);
    [reflexivity|apply st_blocked_sleeping1_reachable|by vm_compute|].
  split; [|split; [|done]].
  - apply Hresume; [reflexivity|]. vm_compute. apply list_elem_of_further, list_elem_of_here.
  - apply Hblock. reflexivity.
Defined.

Lemma wake_entry_adds tid s t :
  manager s !! tid = Some t -> _isBlocked t = false ->
  tid ∈ ready (sched (wake_entry tid s)).
Proof.
  intros Ht Hb. unfold wake_entry. rewrite Ht, Hb. simpl.
  unfold sched_addThread. destruct (decide (tid ∈ ready (sched s))); simpl; [done|].
  apply elem_of_app. right. by apply list_elem_of_singleton.
Qed.

Lemma wake_all_grows popped s x :
  x ∈ ready (sched s) -> x ∈ ready (sched (wake_all popped s)).
Proof.
  intros Hx. destruct (wake_all_ready popped s) as (added & -> & _).
  apply elem_of_app. by left.
Qed.

Lemma wake_all_added popped : forall s x t,
  x ∈ id <$> popped -> manager s !! x = Some t -> _isBlocked t = false ->
  x ∈ ready (sched (wake_all popped s)).
Proof.
  induction popped as [|w popped IH]; intros s x t Hin Ht Hb.
  - by apply elem_of_nil in Hin.
  - change (wake_all (w :: popped) s) with (wake_all popped (wake_entry (id w) s)).
    rewrite fmap_cons in Hin. destruct (decide (x = id w)) as [->|Hne].
    + apply wake_all_grows. by eapply wake_entry_adds.
    + apply elem_of_cons in Hin as [?|Hin]; [done|].
      apply (IH _ x t); [done| |done].
      rewrite wake_entry_manager. by rewrite decide_False.
Qed.

(** What one invocation of the wake handler that returns has done: it popped
    a non-empty prefix of the sleep queue; each popped thread that exists
    has its sleeping flag cleared and its other fields kept; a thread is in
    the ready queue afterwards exactly if it was there before or was popped,
    exists and is not blocked. *)
Lemma handleSleepTimeout_effect clock s s' log :
  handleSleepTimeout SIGALRM clock s = Ok tt s' log ->
  exists popped,
    sleepingThreads s = popped ++ sleepingThreads s' /\ popped <> [] /\
    (forall x, manager s' !! x =
               if decide (x ∈ id <$> popped) then setSleep false <$> manager s !! x
               else manager s !! x) /\
    (exists added, ready (sched s') = ready (sched s) ++ added /\
                   forall a, a ∈ added -> a ∈ id <$> popped) /\
    (forall x, x ∈ ready (sched s') <->
               x ∈ ready (sched s) \/
               (x ∈ id <$> popped /\
                exists t, manager s !! x = Some t /\ _isBlocked t = false)).
Proof.
  intros Hrun.
  destruct (sleepingThreads s) as [|w q] eqn:Eq.
  { rewrite handleSleepTimeout_loop, Eq in Hrun. discriminate. }
  destruct (handleSleepTimeout_spec clock s) as (popped & rest & Hsplit & Hne & Hrun').
  { by rewrite Eq. }
  rewrite Eq in Hsplit.
  assert (manager s' = manager (wake_all popped s) /\
          sched s' = sched (wake_all popped s) /\
          sleepingThreads s' = rest) as (Hm & Hsc & Hsl).
  { cbv zeta in Hrun'. destruct rest as [|nxt rest].
    - rewrite Hrun' in Hrun. by injection Hrun as <- _.
    - destruct Hrun' as [_ Hrun']. rewrite Hrun' in Hrun. by injection Hrun as <- _. }
  exists popped. rewrite Hsl, Hm, Hsc. split; [done|]. split; [done|].
  split; [apply wake_all_manager|].
  destruct (wake_all_ready popped s) as (added & Hr & Hadded).
  split.
  { exists added. split; [done|]. intros a Ha. by destruct (Hadded a Ha). }
  intros x. split.
  - rewrite Hr. intros Hx. apply elem_of_app in Hx as [Hx|Hx]; [by left|].
    right. destruct (Hadded x Hx) as (Hin & _ & Ht). done.
  - intros [Hx|(Hin & t & Ht & Hb)].
    + by apply wake_all_grows.
    + by eapply wake_all_added.
Qed.

(** C6. [uthread_resume] of a thread that is still sleeping returns 0 and
    only clears its blocked flag: the ready queue is unchanged.  The wake
    handler clears the sleeping flag of each thread it pops, and such a
    thread is in the ready queue afterwards exactly if it was there already
    or is not blocked.  Hence a thread that either of the two puts into the
    ready queue is neither blocked nor sleeping, and in every reachable
    state every thread in the ready queue has both flags clear. *)
Theorem blocked_and_sleeping (MAX_THREAD_NUM : Z) (os : OS) :
  (forall s tid t,
     sigprocmask_ok os = true ->
     manager s !! tid = Some t -> _isSleeping t = true ->
     uthread_resume os tid s
     = Ok 0 (set_manager (<[tid := setBlocked false t]> (manager s)) s) []) /\
  (forall clock s s' log,
     handleSleepTimeout SIGALRM clock s = Ok tt s' log ->
     exists popped,
       sleepingThreads s = popped ++ sleepingThreads s' /\ popped <> [] /\
       forall tid t,
         tid ∈ id <$> popped -> manager s !! tid = Some t ->
         manager s' !! tid = Some (setSleep false t) /\
         (tid ∈ ready (sched s') <-> tid ∈ ready (sched s) \/ _isBlocked t = false)) /\
  (forall clock tid s s' v log,
     uthread_resume os tid s = Ok v s' log \/
     handleSleepTimeout SIGALRM clock s = Ok tt s' log ->
     forall x, x ∈ ready (sched s') -> x ∉ ready (sched s) ->
       exists t, manager s' !! x = Some t /\
                 _isBlocked t = false /\ _isSleeping t = false) /\
  (forall s x,
     reachable MAX_THREAD_NUM s -> x ∈ ready (sched s) ->
     exists t, manager s !! x = Some t /\
               _isBlocked t = false /\ _isSleeping t = false).
Proof.
  split; [|split; [|split]];
    [| | |intros s x Hreach; apply (wf_ready _ _ (reachable_wf _ _ Hreach))].
  - intros s tid t Hmask Ht Hs. unfold_ops. rewrite ?Hmask. simpl.
    unfold manager_unBlockThread, manager_setFlag. rewrite Ht. simpl.
    unfold manager_isThreadAsleep. rewrite (lookup_insert_eq (manager s)).
    unfold getSleep. simpl. rewrite Hs. simpl. by rewrite ?Hmask.
  - intros clock s s' log Hrun.
    destruct (handleSleepTimeout_effect clock s s' log Hrun)
      as (popped & Hsplit & Hne & Hm & _ & Hr).
    exists popped. split; [done|]. split; [done|].
    intros tid t Hin Ht. split.
    + rewrite Hm, decide_True by done. by rewrite Ht.
    + rewrite Hr. split.
      * intros [?|(_ & t' & Ht' & Hb)]; [by left|]. right. by simplify_eq.
      * intros [?|Hb]; [by left|]. right. eauto.
  - intros clock tid s s' v log [Hrun|Hrun] x Hx Hnx.
    + revert Hrun. unfold_ops.
      destruct (sigprocmask_ok os); simpl; [|discriminate].
      unfold manager_unBlockThread, manager_setFlag.
      destruct (manager s !! tid) as [t|] eqn:Ht; simpl.
      2:{ intros [= _ <- _]. done. }
      unfold manager_isThreadAsleep. rewrite (lookup_insert_eq (manager s)).
      unfold getSleep. simpl. destruct (_isSleeping t) eqn:Hs; simpl.
      { intros [= _ <- _]. done. }
      intros [= _ <- _]. simpl in *. unfold sched_addThread in Hx. simpl in Hx.
      destruct (decide (tid ∈ ready (sched s))); [done|]. simpl in Hx.
      apply elem_of_app in Hx as [?|Hx]; [done|].
      apply list_elem_of_singleton in Hx as ->.
      exists (setBlocked false t). by rewrite lookup_insert_eq.
    + destruct (handleSleepTimeout_effect clock s s' log Hrun)
        as (popped & _ & _ & Hm & _ & Hr).
      apply Hr in Hx as [?|(Hin & t & Ht & Hb)]; [done|].
      exists (setSleep false t). rewrite Hm, decide_True, Ht by done. done.
Qed.

Lemma blocked_and_sleeping_witness :
  uthread_resume os_ok 1 st_blocked_sleeping1 = Ok 0 st_sleeping1 [] /\
  exists popped,
    sleepingThreads st_blocked_sleeping1 = popped ++ sleepingThreads st_blocked_woken1 /\
    popped <> [] /\
    forall tid t,
      tid ∈ id <$> popped -> manager st_blocked_sleeping1 !! tid = Some t ->
      manager st_blocked_woken1 !! tid = Some (setSleep false t) /\
      (tid ∈ ready (sched st_blocked_woken1)
       <-> tid ∈ ready (sched st_blocked_sleeping1) \/ _isBlocked t = false).
Proof.
  destruct (blocked_and_sleeping 100 os_ok) as (Hresume & Hwake & _). split.
  - rewrite (Hresume st_blocked_sleeping1 1 (Thread 1 true true));
      [by vm_compute|reflexivity|by vm_compute|reflexivity].
  - apply (Hwake (fun _ => Timeval 11 0) st_blocked_sleeping1 st_blocked_woken1 []).
    by vm_compute.
Defined.

(** C7, at the failing input.  Thread 2 sleeps until 11 s and thread 1 until
    15 s.  When the handler runs at 11 s it pops the entry of thread 2, which
    is due.  The entry of thread 1 is due 4000000 microseconds later; the
    product 4000000000 does not fit an [int], [totalTime] is -294967296, and
    the loop pops this entry too: thread 1 is awake and queued four seconds
    before its time.  No context switch takes place. *)
Theorem wake_handler_pops_entry_not_due :
  reachable 100 st_far_sleeper /\
  sleepingThreads st_far_sleeper = [WakeUp 2 (Timeval 11 0); WakeUp 1 (Timeval 15 0)] /\
  usec_until (WakeUp 2 (Timeval 11 0)) (Timeval 11 0) = 0 /\
  usec_until (WakeUp 1 (Timeval 15 0)) (Timeval 11 0) = 4000000 /\
  totalTime_of (WakeUp 1 (Timeval 15 0)) (Timeval 11 0) = -294967296 /\
  handleSleepTimeout SIGALRM (fun _ => Timeval 11 0) st_far_sleeper
  = Ok tt st_far_woken [] /\
  sleepingThreads st_far_woken = [] /\
  ready (sched st_far_woken) = [0; 2; 1] /\
  manager st_far_woken !! 1 = Some (Thread 1 false false) /\
  running (sched st_far_woken) = running (sched st_far_sleeper).
Proof.
  split; [apply st_far_sleeper_reachable|].
  repeat split; by vm_compute.
Qed.

Lemma handleSleepTimeout_returns clock s :
  sleepingThreads s <> [] ->
  exists s' log,
    handleSleepTimeout SIGALRM clock s = Ok tt s' log /\
    (log = [] \/ exists d, log = [RTimerStart d]).
Proof.
  intros Hq.
  destruct (handleSleepTimeout_spec clock s Hq) as (popped & rest & _ & _ & Hrun).
  cbv zeta in Hrun. destruct rest as [|nxt rest].
  - eexists _, _. split; [apply Hrun|by left].
  - destruct Hrun as [_ Hrun]. eexists _, _. split; [apply Hrun|]. right. eauto.
Qed.

(** C3, at the failing input.  Thread 1 sleeps until 11 s and thread 2
    terminates it: the call returns 0, the record is removed and the entry
    stays in the sleep queue.  Thread 2 then spawns a thread, which is given
    the id 1 again; it runs and goes to sleep until 12 s + 300000 us.  When
    the real timer set for the first sleep fires at 11 s, the handler pops
    the entry of the terminated thread and [wakeThread(1)] finds the new
    thread: its sleeping flag is cleared and it is queued, 1300000
    microseconds before its wake time, and the id 1 is in the ready queue
    and in the sleep queue at once. *)
Theorem stale_entry_wakes_new_thread :
  reachable 100 st_sleeper_beside /\
  manager st_sleeper_beside !! 1 = Some (Thread 1 false true) /\
  uthread_terminate os_ok 1 st_sleeper_beside = Ok 0 st_stale_entry [] /\
  manager st_stale_entry !! 1 = None /\
  sleepingThreads st_stale_entry = [WakeUp 1 (Timeval 11 0)] /\
  (exists s, uthread_spawn 100 os_ok st_stale_entry = Ok 1 s []) /\
  run_calls 100 os_ok
    [Spawn; QuantumTimeout SIGVTALRM; QuantumTimeout SIGVTALRM;
     Sleep 2000000 (Timeval 10 300000)] st_stale_entry = Some st_id_reused /\
  reachable 100 st_id_reused /\
  manager st_id_reused !! 1 = Some (Thread 1 false true) /\
  sleepingThreads st_id_reused
  = [WakeUp 1 (Timeval 11 0); WakeUp 1 (Timeval 12 300000)] /\
  handleSleepTimeout SIGALRM (fun _ => Timeval 11 0) st_id_reused
  = Ok tt st_woken_early [RTimerStart 1300000000] /\
  manager st_woken_early !! 1 = Some (Thread 1 false false) /\
  usec_until (WakeUp 1 (Timeval 12 300000)) (Timeval 11 0) = 1300000 /\
  (1 ∈ ready (sched st_woken_early)) /\
  (1 ∈ id <$> sleepingThreads st_woken_early).
Proof.
  split; [apply st_sleeper_beside_reachable|].
  split; [by vm_compute|]. split; [by vm_compute|].
  split; [by vm_compute|]. split; [done|].
  split; [eexists; by vm_compute|].
  split; [by vm_compute|]. split; [apply st_id_reused_reachable|].
  split; [by vm_compute|]. split; [done|].
  split; [by vm_compute|]. split; [by vm_compute|]. split; [done|].
  split; vm_compute; set_solver.
Qed.




(** ** The delay given to the real timer *)

Lemma totalTime_of_usec nextToWake now :
  totalTime_of nextToWake now = to_int (1000 * usec_until nextToWake now).
Proof.
  unfold totalTime_of, usec_until, CONVERT_CONST_SEC_TO_NSEC, CONVERT_CONST_MSEC_TO_NSEC.
  f_equal. lia.
Qed.

Lemma to_int_small x : -2147483648 <= x < 2147483648 -> to_int x = x.
Proof. intros Hx. unfold to_int. rewrite Z.mod_small; lia. Qed.

(** Whenever the handler leaves entries in the sleep queue it has restarted
    the real timer with 1000 times the microseconds left until the head's
    wake time, reduced to an [int]. *)
Lemma handleSleepTimeout_delay clock s s' log nextToWake rest :
  handleSleepTimeout SIGALRM clock s = Ok tt s' log ->
  sleepingThreads s' = nextToWake :: rest ->
  exists inLoop,
    let d := to_int (1000 * usec_until nextToWake (clock inLoop)) in
    0 < d /\ rTimer s' = Some d /\ log = [RTimerStart d].
Proof.
  intros Hrun Hq.
  destruct (sleepingThreads s) as [|w q] eqn:Eq.
  { rewrite handleSleepTimeout_loop, Eq in Hrun. discriminate. }
  destruct (handleSleepTimeout_spec clock s) as (popped & rest' & _ & _ & Hrun').
  { by rewrite Eq. }
  cbv zeta in Hrun'. destruct rest' as [|nxt rest''].
  - rewrite Hrun' in Hrun. injection Hrun as <- _. simpl in Hq. discriminate.
  - destruct Hrun' as [Hd Hrun']. rewrite Hrun' in Hrun. injection Hrun as <- <-.
    simpl in Hq. injection Hq as <- _.
    exists (length popped). cbv zeta. rewrite <- totalTime_of_usec. done.
Qed.

(** C2, at the failing input.  Threads 1 and 2 sleep until 11 s and
    11 s + 500 us.  When the handler runs at 11 s it pops thread 1; the new
    head is due in 500 microseconds, and the real timer is restarted with
    500000. *)
Theorem wake_handler_rearms_with_nanoseconds :
  reachable 100 st_two_sleepers /\
  handleSleepTimeout SIGALRM (fun _ => Timeval 11 0) st_two_sleepers
  = Ok tt st_one_sleeper [RTimerStart 500000] /\
  sleeping_peek (sleepingThreads st_one_sleeper) = Some (WakeUp 2 (Timeval 11 500)) /\
  usec_until (WakeUp 2 (Timeval 11 500)) (Timeval 11 0) = 500 /\
  rTimer st_one_sleeper = Some (1000 * 500).
Proof.
  split; [apply st_two_sleepers_reachable|].
  split; [by vm_compute|]. done.
Qed.

(** A head that is due in 3 s: the product 3000000000 does not fit an [int],
    [totalTime] is negative, and the loop wakes the thread at once. *)
Lemma wake_handler_int_overflow :
  totalTime_of (WakeUp 2 (Timeval 14 0)) (Timeval 11 0) = -1294967296 /\
  exists s',
    handleSleepTimeout SIGALRM (fun _ => Timeval 11 0)
      (set_sleepingThreads [WakeUp 1 (Timeval 11 0); WakeUp 2 (Timeval 14 0)]
         st_two_sleepers)
    = Ok tt s' [] /\
    sleepingThreads s' = [] /\ ready (sched s') = [0; 1; 2].
Proof.
  split; [by vm_compute|]. eexists. split; [by vm_compute|]. done.
Qed.

Lemma totalTime_of_in_range nextToWake now :
  0 <= usec_until nextToWake now <= 2147483 ->
  totalTime_of nextToWake now = 1000 * usec_until nextToWake now.
Proof. intros H. rewrite totalTime_of_usec. apply to_int_small. lia. Qed.

(** * Further properties of the code *)

(** ** Wake-up times *)

Lemma timeradd_usec a b : timeval_usec (timeradd a b) = timeval_usec a + timeval_usec b.
Proof.
  unfold timeradd, timeval_usec.
  destruct (1000000 <=? tv_usec a + tv_usec b); simpl; lia.
Qed.

(** X1. [calcWakUpTimeval] adds exactly [usecs_to_sleep] microseconds to the
    current time, for every argument; the remaining time of the entry, read
    at the same instant, is the requested time again.  When the current time
    is well formed and the argument is not negative, the result is well
    formed too. *)
Theorem calcWakUpTimeval_adds (now : timeval) (usecs_to_sleep tid : Z) :
  timeval_usec (calcWakUpTimeval now usecs_to_sleep)
  = timeval_usec now + usecs_to_sleep /\
  usec_until (WakeUp tid (calcWakUpTimeval now usecs_to_sleep)) now = usecs_to_sleep /\
  (timeval_ok now -> 0 <= usecs_to_sleep ->
   timeval_ok (calcWakUpTimeval now usecs_to_sleep)).
Proof.
  assert (timeval_usec (calcWakUpTimeval now usecs_to_sleep)
          = timeval_usec now + usecs_to_sleep) as Hsum.
  { unfold calcWakUpTimeval. rewrite timeradd_usec. unfold timeval_usec at 2. simpl.
    pose proof (Z.quot_rem' usecs_to_sleep 1000000). lia. }
  split; [done|]. split.
  - unfold usec_until. simpl. unfold timeval_usec in Hsum. lia.
  - intros [Hlo Hhi] Hpos. unfold timeval_ok, calcWakUpTimeval, timeradd. simpl.
    pose proof (Z.rem_bound_pos usecs_to_sleep 1000000 Hpos ltac:(lia)).
    destruct (1000000 <=? tv_usec now + Z.rem usecs_to_sleep 1000000) eqn:E; simpl; lia.
Qed.

Lemma calcWakUpTimeval_adds_witness :
  timeval_ok (Timeval 10 999999) /\ 0 <= 1500002 /\
  timeval_ok (calcWakUpTimeval (Timeval 10 999999) 1500002).
Proof.
  split; [unfold timeval_ok; simpl; lia|]. split; [lia|].
  apply (calcWakUpTimeval_adds (Timeval 10 999999) 1500002 1).
  - unfold timeval_ok. simpl. lia.
  - lia.
Defined.

(** ** System errors *)

(** X2. When [sigprocmask] fails, every call that begins with [maskSignals]
    releases the library objects, writes the system error of [maskSignals]
    and exits with code 1, whatever its argument and the state; this includes
    [uthread_terminate(0)].  [uthread_init], [uthread_get_total_quantums] and
    the two handlers never call [sigprocmask]. *)
Theorem sigprocmask_failure_exits (MAX_THREAD_NUM : Z) (os : OS) (c : call) (s : lib) :
  sigprocmask_ok os = false ->
  if masks c then
    step MAX_THREAD_NUM os c s
    = Exit 1 [ClearMem; Cerr (sysErrorSyntax +:+ "Failed to set signal masking.")]
  else
    step MAX_THREAD_NUM os c s
    = step MAX_THREAD_NUM
        {| sigprocmask_ok := true; setitimer_ok := setitimer_ok os;
           sigaddset_ok := sigaddset_ok os; sigaction_ok := sigaction_ok os;
           alloc_ok := alloc_ok os |} c s.
Proof.
  intros Hmask. destruct c; simpl; unfold_ops; rewrite ?Hmask; reflexivity.
Qed.

Lemma sigprocmask_failure_exits_witness :
  step 100 {| sigprocmask_ok := false; setitimer_ok := true; sigaddset_ok := true;
              sigaction_ok := true; alloc_ok := true |} (Terminate 0) st_spawned
  = Exit 1 [ClearMem; Cerr (sysErrorSyntax +:+ "Failed to set signal masking.")].
Proof.
  apply (sigprocmask_failure_exits 100
           {| sigprocmask_ok := false; setitimer_ok := true; sigaddset_ok := true;
              sigaction_ok := true; alloc_ok := true |} (Terminate 0) st_spawned).
  reflexivity.
Defined.

(** X3. [uthread_init] with a positive quantum never returns -1.  It returns
    0 exactly when the registry set-up, [sigaddset], [sigaction] and the
    start of the virtual timer all succeed; it then leaves a registry that
    holds only the main thread, a ready queue that holds only id 0, an empty
    sleep queue, the virtual timer started with the given quantum, and the
    quantum counter one above its former value, whatever the objects were
    before.  Otherwise it releases the objects and exits with code 1. *)
Theorem uthread_init_outcome (os : OS) (quantum_usecs : Z) (s : lib) :
  0 < quantum_usecs ->
  match uthread_init os quantum_usecs s with
  | Ok v s' log =>
      v = 0 /\ log = [VTimerStart] /\
      alloc_ok os && sigaddset_ok os && sigaction_ok os && setitimer_ok os = true /\
      s' = {| manager := {[ 0 := main_thread ]};
              sched := {| ready := [0]; running := 0 |};
              sleepingThreads := [];
              vTimer := {| vt_quantum := quantum_usecs; vt_armed := true |};
              rTimer := None;
              totalQuants := totalQuants s + 1 |}
  | Exit code log =>
      code = 1 /\ head log = Some ClearMem /\
      alloc_ok os && sigaddset_ok os && sigaction_ok os && setitimer_ok os = false
  | Gone _ _ | Fault _ => False
  end.
Proof.
  intros Hq. unfold_ops. destruct (0 <? quantum_usecs) eqn:E; [|lia]. simpl.
  destruct (alloc_ok os); simpl; [|done].
  destruct (sigaddset_ok os); simpl; [|done].
  destruct (sigaction_ok os); simpl; [|done].
  destruct (setitimer_ok os); simpl; done.
Qed.

Lemma uthread_init_outcome_witness :
  0 < 100000 /\
  match uthread_init os_ok 100000 st_two_sleepers with
  | Ok v s' log =>
      v = 0 /\ log = [VTimerStart] /\
      alloc_ok os_ok && sigaddset_ok os_ok && sigaction_ok os_ok && setitimer_ok os_ok
      = true /\
      s' = {| manager := {[ 0 := main_thread ]};
              sched := {| ready := [0]; running := 0 |};
              sleepingThreads := [];
              vTimer := {| vt_quantum := 100000; vt_armed := true |};
              rTimer := None;
              totalQuants := totalQuants st_two_sleepers + 1 |}
  | Exit code log =>
      code = 1 /\ head log = Some ClearMem /\
      alloc_ok os_ok && sigaddset_ok os_ok && sigaction_ok os_ok && setitimer_ok os_ok
      = false
  | Gone _ _ | Fault _ => False
  end.
Proof.
  split; [lia|]. apply (uthread_init_outcome os_ok 100000 st_two_sleepers). lia.
Defined.

(** ** Blocking and resuming *)

Lemma uthread_block_other os s tid t :
  sigprocmask_ok os = true -> tid <> 0 ->
  manager s !! tid = Some t -> tid <> running (sched s) ->
  uthread_block os tid s
  = Ok 0 {| manager := <[tid := setBlocked true t]> (manager s);
            sched := {| ready := remove_id tid (ready (sched s));
                        running := running (sched s) |};
            sleepingThreads := sleepingThreads s;
            vTimer := vTimer s;
            rTimer := rTimer s;
            totalQuants := totalQuants s |} [].
Proof.
  intros Hmask Hne0 Ht Hner.
  unfold_ops. rewrite ?Hmask. simpl.
  destruct (tid =? 0) eqn:E0; [lia|]. simpl.
  unfold manager_blockThread, manager_setFlag. rewrite Ht. simpl.
  rewrite decide_False by done. simpl.
  rewrite Z.eqb_refl. simpl. by rewrite ?Hmask.
Qed.

Lemma uthread_resume_run os s tid t :
  sigprocmask_ok os = true ->
  manager s !! tid = Some t ->
  uthread_resume os tid s
  = Ok 0 {| manager := <[tid := setBlocked false t]> (manager s);
            sched := if _isSleeping t then sched s else sched_addThread tid (sched s);
            sleepingThreads := sleepingThreads s;
            vTimer := vTimer s;
            rTimer := rTimer s;
            totalQuants := totalQuants s |} [].
Proof.
  intros Hmask Ht.
  unfold_ops. rewrite ?Hmask. simpl.
  unfold manager_unBlockThread, manager_setFlag. rewrite Ht. simpl.
  unfold manager_isThreadAsleep. rewrite (lookup_insert_eq (manager s)).
  unfold getSleep. simpl.
  destruct (_isSleeping t) eqn:Hs; simpl; by rewrite ?Hmask.
Qed.

(** X4. [uthread_block] of an existing thread other than main, in a reachable
    state with the system calls succeeding, returns 0, sets the blocked flag
    and removes the id from the ready queue.  When the caller blocks itself,
    the next thread in the queue becomes the running one, its quantum count
    and the quantum counter grow by one and the virtual timer is restarted;
    when it blocks another thread, nothing else changes. *)
Theorem uthread_block_existing (MAX_THREAD_NUM : Z) (os : OS) (s : lib)
    (tid : Z) (t : thread) :
  sigprocmask_ok os = true ->
  setitimer_ok os = true ->
  reachable MAX_THREAD_NUM s ->
  tid <> 0 ->
  manager s !! tid = Some t ->
  if decide (tid = running (sched s)) then
    exists next,
      head (remove_id tid (ready (sched s))) = Some next /\ next <> tid /\
      uthread_block os tid s
      = Ok 0 {| manager := alter updateQuants next
                             (<[tid := setBlocked true t]> (manager s));
                sched := {| ready := remove_id tid (ready (sched s));
                            running := next |};
                sleepingThreads := sleepingThreads s;
                vTimer := {| vt_quantum := vt_quantum (vTimer s); vt_armed := true |};
                rTimer := rTimer s;
                totalQuants := totalQuants s + 1 |}
           [VTimerStart; SwitchContext tid next]
  else
    uthread_block os tid s
    = Ok 0 {| manager := <[tid := setBlocked true t]> (manager s);
              sched := {| ready := remove_id tid (ready (sched s));
                          running := running (sched s) |};
              sleepingThreads := sleepingThreads s;
              vTimer := vTimer s;
              rTimer := rTimer s;
              totalQuants := totalQuants s |} [].
Proof.
  intros Hmask Htimer Hreach Hne0 Ht. pose proof (reachable_wf _ _ Hreach) as Hwf.
  pose proof (wf_ms_head_after_remove _ _ tid Hwf Hne0) as Hhead.
  destruct (decide (tid = running (sched s))) as [Heq|Hner].
  - set (next := default (running (sched s)) (head (remove_id tid (ready (sched s))))) in *.
    assert (next <> tid) as Hnext.
    { intros Hn. apply head_Some_elem_of, elem_of_remove_id in Hhead. rewrite Hn in Hhead.
      tauto. }
    exists next. split; [done|]. split; [done|].
    unfold_ops. rewrite ?Hmask. simpl.
    destruct (tid =? 0) eqn:E0; [lia|]. simpl.
    unfold manager_blockThread, manager_setFlag. rewrite Ht. simpl.
    rewrite decide_True by done. fold next.
    destruct (next =? running (sched s)) eqn:En; [lia|]. simpl.
    rewrite Htimer. simpl. rewrite <- Heq. rewrite (lookup_insert_eq (manager s)).
    simpl. by rewrite ?Hmask.
  - by apply uthread_block_other.
Qed.

Lemma uthread_block_existing_witness :
  exists next,
    head (remove_id 1 (ready (sched st_running1))) = Some next /\ next <> 1 /\
    uthread_block os_ok 1 st_running1
    = Ok 0 {| manager := alter updateQuants next
                           (<[1 := setBlocked true (Thread 1 false false)]>
                              (manager st_running1));
              sched := {| ready := remove_id 1 (ready (sched st_running1));
                          running := next |};
              sleepingThreads := sleepingThreads st_running1;
              vTimer := {| vt_quantum := vt_quantum (vTimer st_running1);
                           vt_armed := true |};
              rTimer := rTimer st_running1;
              totalQuants := totalQuants st_running1 + 1 |}
         [VTimerStart; SwitchContext 1 next].
Proof.
  apply (uthread_block_existing 100 os_ok st_running1 1 (Thread 1 false false)).
  - reflexivity.
  - reflexivity.
  - apply st_running1_reachable.
  - lia.
  - by vm_compute.
Defined.

(** X5. In a reachable state, [uthread_resume] of an existing thread returns
    0 and changes nothing but the thread's blocked flag and the ready queue:
    a thread that was blocked and is not sleeping is appended to the tail of
    the ready queue; the running id, the counter, every quantum count, the
    sleep queue and both timers stay as they are and no context switch
    happens. *)
Theorem uthread_resume_existing (MAX_THREAD_NUM : Z) (os : OS) (s : lib)
    (tid : Z) (t : thread) :
  sigprocmask_ok os = true ->
  reachable MAX_THREAD_NUM s ->
  manager s !! tid = Some t ->
  exists q,
    uthread_resume os tid s
    = Ok 0 {| manager := <[tid := setBlocked false t]> (manager s);
              sched := {| ready := q; running := running (sched s) |};
              sleepingThreads := sleepingThreads s;
              vTimer := vTimer s;
              rTimer := rTimer s;
              totalQuants := totalQuants s |} [] /\
    (_isBlocked t = true -> _isSleeping t = false -> q = ready (sched s) ++ [tid]) /\
    (_isSleeping t = true -> q = ready (sched s)) /\
    (_isBlocked t = false -> q = ready (sched s) \/ q = ready (sched s) ++ [tid]).
Proof.
  intros Hmask Hreach Ht. pose proof (reachable_wf _ _ Hreach) as Hwf.
  rewrite (uthread_resume_run os s tid t Hmask Ht).
  destruct (_isSleeping t) eqn:Hs.
  - exists (ready (sched s)). rewrite scheduler_eta.
    split; [done|]. split; [done|]. split; [done|]. by left.
  - unfold sched_addThread.
    destruct (decide (tid ∈ ready (sched s))) as [Hin|Hnin].
    + exists (ready (sched s)). rewrite scheduler_eta. split; [done|].
      split; [|split; [done|by left]].
      intros Hb. destruct (wf_ready _ _ Hwf _ Hin) as (t0 & Ht0 & Hb0 & _).
      simplify_eq. congruence.
    + exists (ready (sched s) ++ [tid]). split; [done|].
      split; [done|]. split; [done|by right].
Qed.

Lemma uthread_resume_existing_witness :
  exists q,
    uthread_resume os_ok 1 st_blocked_woken1
    = Ok 0 {| manager := <[1 := setBlocked false (Thread 1 true false)]>
                           (manager st_blocked_woken1);
              sched := {| ready := q; running := running (sched st_blocked_woken1) |};
              sleepingThreads := sleepingThreads st_blocked_woken1;
              vTimer := vTimer st_blocked_woken1;
              rTimer := rTimer st_blocked_woken1;
              totalQuants := totalQuants st_blocked_woken1 |} [] /\
    (_isBlocked (Thread 1 true false) = true ->
     _isSleeping (Thread 1 true false) = false ->
     q = ready (sched st_blocked_woken1) ++ [1]) /\
    (_isSleeping (Thread 1 true false) = true -> q = ready (sched st_blocked_woken1)) /\
    (_isBlocked (Thread 1 true false) = false ->
     q = ready (sched st_blocked_woken1) \/ q = ready (sched st_blocked_woken1) ++ [1]).
Proof.
  apply (uthread_resume_existing 100 os_ok st_blocked_woken1 1 (Thread 1 true false)).
  - reflexivity.
  - apply (reach_step 100 os_ok (SleepTimeout SIGALRM (fun _ => Timeval 11 0))
             st_blocked_sleeping1 st_blocked_woken1 [] st_blocked_sleeping1_reachable);
      [discriminate|by vm_compute].
  - by vm_compute.
Defined.

(** X6. Blocking a ready thread that is not running and resuming it right
    away returns 0 twice and restores the registry; the only change is that
    the thread has moved to the tail of the ready queue. *)
Theorem block_resume_round_trip (MAX_THREAD_NUM : Z) (os : OS) (s : lib) (tid : Z) :
  sigprocmask_ok os = true ->
  reachable MAX_THREAD_NUM s ->
  tid <> 0 -> tid <> running (sched s) -> tid ∈ ready (sched s) ->
  (a <- uthread_block os tid ;; b <- uthread_resume os tid ;; ret (a, b)) s
  = Ok (0, 0) {| manager := manager s;
                 sched := {| ready := remove_id tid (ready (sched s)) ++ [tid];
                             running := running (sched s) |};
                 sleepingThreads := sleepingThreads s;
                 vTimer := vTimer s;
                 rTimer := rTimer s;
                 totalQuants := totalQuants s |} [].
Proof.
  intros Hmask Hreach Hne0 Hner Hin. pose proof (reachable_wf _ _ Hreach) as Hwf.
  destruct (wf_ready _ _ Hwf _ Hin) as (t & Ht & Hb & Hs).
  unfold bind at 1. rewrite (uthread_block_other os s tid t Hmask Hne0 Ht Hner).
  unfold bind.
  rewrite (uthread_resume_run os _ tid (setBlocked true t) Hmask)
    by apply lookup_insert_eq.
  simpl. rewrite Hs.
  assert (setBlocked false (setBlocked true t) = t) as -> by (destruct t; simpl in *; by subst).
  rewrite insert_insert_eq, insert_id by done.
  unfold sched_addThread. simpl.
  rewrite decide_False; [done|].
  rewrite elem_of_remove_id. tauto.
Qed.

Lemma block_resume_round_trip_witness :
  (a <- uthread_block os_ok 1 ;; b <- uthread_resume os_ok 1 ;; ret (a, b)) st_spawned
  = Ok (0, 0) {| manager := manager st_spawned;
                 sched := {| ready := remove_id 1 (ready (sched st_spawned)) ++ [1];
                             running := running (sched st_spawned) |};
                 sleepingThreads := sleepingThreads st_spawned;
                 vTimer := vTimer st_spawned;
                 rTimer := rTimer st_spawned;
                 totalQuants := totalQuants st_spawned |} [].
Proof.
  apply (block_resume_round_trip 100 os_ok st_spawned 1).
  - reflexivity.
  - apply st_spawned_reachable.
  - lia.
  - simpl. lia.
  - vm_compute. apply list_elem_of_further, list_elem_of_here.
Defined.

(** ** Going to sleep *)

Lemma uthread_sleep_run os s usec now t next :
  sigprocmask_ok os = true -> setitimer_ok os = true ->
  running (sched s) <> 0 ->
  manager s !! running (sched s) = Some t ->
  head (remove_id (running (sched s)) (ready (sched s))) = Some next ->
  let tid := running (sched s) in
  let q' := sleeping_add tid (calcWakUpTimeval now (to_int usec)) (sleepingThreads s) in
  let restart :=
    match sleeping_peek (sleepingThreads s), sleeping_peek q' with
    | Some old, Some new => negb (id old =? id new)
    | _, _ => true
    end in
  uthread_sleep os usec now s
  = Ok 0 {| manager := alter updateQuants next (<[tid := setSleep true t]> (manager s));
            sched := {| ready := remove_id tid (ready (sched s)); running := next |};
            sleepingThreads := q';
            vTimer := {| vt_quantum := vt_quantum (vTimer s); vt_armed := true |};
            rTimer := if restart then Some usec else rTimer s;
            totalQuants := totalQuants s + 1 |}
       ((if restart then [RTimerStart usec] else [])
        ++ [VTimerStart; SwitchContext tid next]).
Proof.
  intros Hmask Htimer Hne0 Ht Hnext. cbv zeta.
  unfold_ops. rewrite ?Hmask. simpl.
  destruct (running (sched s) =? 0) eqn:E0; [lia|]. simpl.
  destruct (sleeping_add_peek (running (sched s)) (calcWakUpTimeval now (to_int usec))
              (sleepingThreads s)) as [new Hnew]. rewrite Hnew.
  unfold manager_putThreadToSleep, manager_setFlag, sched_whosNextSleep,
    sched_whosNextBlock.
  destruct (sleeping_peek (sleepingThreads s)) as [old|];
    [destruct (negb (id old =? id new))|]; simpl; rewrite Ht; simpl;
    rewrite decide_True by done; rewrite Hnext; simpl;
    rewrite Htimer; simpl; rewrite (lookup_insert_eq (manager s)); simpl;
    by rewrite ?Hmask.
Qed.

(** X7. When a thread other than main, with no entry of its own left in the
    sleep queue, calls [uthread_sleep] in a reachable state and the system
    calls succeed, the call returns 0; an entry for the caller is queued,
    with the wake time [calcWakUpTimeval] computes from [now] and the [int]
    value of [usec]; the caller is flagged sleeping and leaves the
    ready queue, the next thread in the queue runs with one more quantum and
    the counter grows by one.  The real timer is restarted, with [usec],
    exactly when the caller's entry is the new head of the sleep queue;
    otherwise the head and the timer stay as they were. *)
Theorem uthread_sleep_running (MAX_THREAD_NUM : Z) (os : OS) (s : lib)
    (usec : Z) (now : timeval) :
  sigprocmask_ok os = true -> setitimer_ok os = true ->
  reachable MAX_THREAD_NUM s ->
  running (sched s) <> 0 ->
  running (sched s) ∉ id <$> sleepingThreads s ->
  let tid := running (sched s) in
  let entry := WakeUp tid (calcWakUpTimeval now (to_int usec)) in
  exists t next s' log,
    manager s !! tid = Some t /\
    head (remove_id tid (ready (sched s))) = Some next /\ next <> tid /\
    uthread_sleep os usec now s = Ok 0 s' log /\
    sleepingThreads s' = sleeping_add tid (awaken_tv entry) (sleepingThreads s) /\
    manager s' = alter updateQuants next (<[tid := setSleep true t]> (manager s)) /\
    sched s' = {| ready := remove_id tid (ready (sched s)); running := next |} /\
    totalQuants s' = totalQuants s + 1 /\
    ((head (sleepingThreads s') = Some entry /\
      rTimer s' = Some usec /\
      log = [RTimerStart usec; VTimerStart; SwitchContext tid next]) \/
     (head (sleepingThreads s') <> Some entry /\
      head (sleepingThreads s') = head (sleepingThreads s) /\
      rTimer s' = rTimer s /\
      log = [VTimerStart; SwitchContext tid next])).
Proof.
  intros Hmask Htimer Hreach Hne0 Hfresh. cbv zeta.
  pose proof (reachable_wf _ _ Hreach) as Hwf.
  destruct (wf_ready _ _ Hwf _ (wf_ms_running_in _ _ Hwf)) as (t & Ht & _ & _).
  pose proof (wf_ms_head_after_remove _ _ _ Hwf Hne0) as Hhead.
  set (next := default (running (sched s))
                 (head (remove_id (running (sched s)) (ready (sched s))))) in *.
  assert (next <> running (sched s)) as Hnext.
  { intros Hn. apply head_Some_elem_of, elem_of_remove_id in Hhead. rewrite Hn in Hhead.
    tauto. }
  eexists t, next, _, _. split; [done|]. split; [done|]. split; [done|].
  split; [apply (uthread_sleep_run os s usec now t next); done|].
  simpl. split; [done|]. split; [done|]. split; [done|]. split; [done|].
  unfold sleeping_peek.
  destruct (sleepingThreads s) as [|old q] eqn:Eq; simpl.
  { left. done. }
  rewrite fmap_cons in Hfresh. apply not_elem_of_cons in Hfresh as [Hold _].
  destruct (timer_lt _ _); simpl.
  - left. destruct (id old =? running (sched s)) eqn:E; [lia|]. done.
  - right. rewrite Z.eqb_refl. simpl. split; [|done].
    intros [= H]. apply Hold. by rewrite H.
Qed.

Lemma uthread_sleep_running_witness :
  exists t next s' log,
    manager st_running1 !! 1 = Some t /\
    head (remove_id 1 (ready (sched st_running1))) = Some next /\ next <> 1 /\
    uthread_sleep os_ok 1000000 (Timeval 10 0) st_running1 = Ok 0 s' log /\
    sleepingThreads s' = [WakeUp 1 (Timeval 11 0)] /\
    rTimer s' = Some 1000000.
Proof.
  destruct (uthread_sleep_running 100 os_ok st_running1 1000000 (Timeval 10 0))
    as (t & next & s' & log & Ht & Hn & Hne & Hrun & Hq & _ & _ & _ & Htim).
  - reflexivity.
  - reflexivity.
  - apply st_running1_reachable.
  - simpl. lia.
  - apply not_elem_of_nil.
  - exists t, next, s', log. repeat split; try done.
    destruct Htim as [(_ & Hr & _)|(Hh & _)]; [done|].
    exfalso. apply Hh. rewrite Hq. reflexivity.
Defined.

(** ** Spawning *)







(** ** The running thread and the main thread *)

Lemma has_run_ms_update m sc sc' tid t t' :
  has_run_ms m sc -> running sc' = running sc ->
  m !! tid = Some t -> _quants t' = _quants t ->
  has_run_ms (<[tid := t']> m) sc'.
Proof.
  intros (tr & Htr & Hq) Hrun Ht Hq'. unfold has_run_ms. rewrite Hrun.
  destruct (decide (tid = running sc)) as [->|Hne].
  - exists t'. rewrite lookup_insert_eq. split; [done|]. simplify_eq. lia.
  - exists tr. by rewrite lookup_insert_ne.
Qed.

Lemma has_run_ms_switch m sc : wf_ms m sc -> has_run_ms (alter updateQuants (running sc) m) sc.
Proof.
  intros Hwf.
  destruct (wf_ready _ _ Hwf _ (wf_ms_running_in _ _ Hwf)) as (t & Ht & _).
  exists (updateQuants t). rewrite lookup_alter_eq, Ht. split; [done|].
  simpl. pose proof (wf_quants _ _ Hwf _ _ Ht). lia.
Qed.

Lemma has_run_ms_delete m sc sc' tid :
  has_run_ms m sc -> running sc' = running sc -> tid <> running sc ->
  has_run_ms (delete tid m) sc'.
Proof.
  intros (tr & Htr & Hq) Hrun Hne. exists tr. rewrite Hrun.
  by rewrite lookup_delete_ne.
Qed.

Lemma has_run_ms_fresh m sc sc' tid t' :
  has_run_ms m sc -> running sc' = running sc -> m !! tid = None ->
  has_run_ms (<[tid := t']> m) sc'.
Proof.
  intros (tr & Htr & Hq) Hrun Hnone. exists tr. rewrite Hrun.
  rewrite lookup_insert_ne; [done|]. intros ->. congruence.
Qed.

Lemma sched_addThread_running tid sc : running (sched_addThread tid sc) = running sc.
Proof. unfold sched_addThread. by destruct (decide _). Qed.

Lemma has_run_init os quantum_usecs s0 s log :
  uthread_init os quantum_usecs s0 = Ok 0 s log -> has_run s.
Proof.
  unfold_ops. intros H.
  destruct (0 <? quantum_usecs); simpl in H; [|discriminate].
  destruct (alloc_ok os); simpl in H; [|discriminate].
  destruct (sigaddset_ok os); simpl in H; [|discriminate].
  destruct (sigaction_ok os); simpl in H; [|discriminate].
  destruct (setitimer_ok os); simpl in H; [|discriminate].
  injection H as <- _. exists main_thread. simpl. rewrite lookup_singleton_eq.
  split; [done|]. simpl. lia.
Qed.

Lemma has_run_spawn MAX_THREAD_NUM os s s' log :
  has_run s -> final (uthread_spawn MAX_THREAD_NUM os s) = Some (s', log) -> has_run s'.
Proof.
  intros Hrun. unfold_ops.
  destruct (sigprocmask_ok os); simpl; [|discriminate].
  unfold manager_createThread.
  destruct (MAX_THREAD_NUM <=? Z.of_nat (size (manager s))); simpl.
  { intros [= <- _]. by rewrite set_manager_id. }
  destruct (smallest_unused MAX_THREAD_NUM (manager s)) as [newTid|] eqn:E; simpl.
  2:{ intros [= <- _]. by rewrite set_manager_id. }
  apply smallest_unused_Some in E as [Hrange Hnone].
  destruct (alloc_ok os); simpl; [|discriminate].
  unfold sysError.
  destruct (newTid =? -2) eqn:E1; [lia|].
  destruct (newTid =? -1) eqn:E2; [lia|]. simpl.
  intros [= <- _]. unfold has_run. simpl.
  eapply has_run_ms_fresh; eauto. apply sched_addThread_running.
Qed.

Lemma has_run_terminate os tid s s' log :
  wf s -> has_run s ->
  final (uthread_terminate os tid s) = Some (s', log) -> has_run s'.
Proof.
  intros Hwf Hrun. unfold_ops.
  destruct (sigprocmask_ok os); simpl; [|discriminate].
  destruct (tid =? 0) eqn:E0; simpl; [discriminate|].
  unfold manager_killThread.
  destruct (manager s !! tid) as [t|] eqn:Ht; simpl.
  2:{ intros [= <- _]. by rewrite set_manager_id. }
  pose proof (wf_ms_whosNextTermination _ _ tid Hwf ltac:(lia)) as Hwf'.
  pose proof (wf_ms_head_after_remove _ _ tid Hwf ltac:(lia)) as Hhead.
  destruct (negb _) eqn:En; simpl.
  - destruct (setitimer_ok os); simpl; [|discriminate].
    destruct (delete tid (manager s) !! running (sched s)); simpl;
      intros [= <- _]; apply (has_run_ms_switch _ _ Hwf').
  - apply negb_false_iff, Z.eqb_eq in En.
    intros [= <- _]. unfold has_run. simpl.
    eapply has_run_ms_delete; eauto.
    intros ->. apply head_Some_elem_of, elem_of_remove_id in Hhead.
    rewrite En in Hhead. tauto.
Qed.

Lemma has_run_block os tid s s' log :
  wf s -> has_run s ->
  final (uthread_block os tid s) = Some (s', log) -> has_run s'.
Proof.
  intros Hwf Hrun. unfold_ops.
  destruct (sigprocmask_ok os); simpl; [|discriminate].
  destruct (tid =? 0) eqn:E0; simpl; [by intros [= <- _]|].
  unfold manager_blockThread, manager_setFlag.
  destruct (manager s !! tid) as [t|] eqn:Ht; simpl.
  2:{ intros [= <- _]. by rewrite set_manager_id. }
  pose proof (wf_ms_whosNextBlock _ _ tid t (setBlocked true) Hwf ltac:(lia) Ht eq_refl)
    as Hwf'.
  destruct (negb _) eqn:En; simpl.
  - destruct (setitimer_ok os); simpl; [|discriminate].
    destruct (<[tid:=setBlocked true t]> (manager s) !! running (sched s)); simpl;
      intros [= <- _]; apply (has_run_ms_switch _ _ Hwf').
  - apply negb_false_iff, Z.eqb_eq in En.
    intros [= <- _]. unfold has_run. simpl.
    eapply has_run_ms_update; eauto.
Qed.

Lemma has_run_resume os tid s s' log :
  has_run s -> final (uthread_resume os tid s) = Some (s', log) -> has_run s'.
Proof.
  intros Hrun. unfold_ops.
  destruct (sigprocmask_ok os); simpl; [|discriminate].
  unfold manager_unBlockThread, manager_setFlag.
  destruct (manager s !! tid) as [t|] eqn:Ht; simpl.
  2:{ intros [= <- _]. by rewrite set_manager_id. }
  destruct (negb _); simpl; intros [= <- _]; unfold has_run; simpl;
    eapply has_run_ms_update; eauto. apply sched_addThread_running.
Qed.

Lemma has_run_sleep os usec now s s' log :
  wf s -> has_run s ->
  final (uthread_sleep os usec now s) = Some (s', log) -> has_run s'.
Proof.
  intros Hwf Hrun. unfold_ops.
  destruct (sigprocmask_ok os); simpl; [|discriminate].
  destruct (running (sched s) =? 0) eqn:E0; simpl; [by intros [= <- _]|].
  destruct (wf_ready _ _ Hwf _ (wf_ms_running_in _ _ Hwf)) as (t & Ht & Hb & Hs).
  pose proof (wf_ms_whosNextBlock _ _ (running (sched s)) t (setSleep true)
                Hwf ltac:(lia) Ht eq_refl) as Hwf'.
  destruct (sleeping_add_peek (running (sched s)) (calcWakUpTimeval now (to_int usec))
              (sleepingThreads s)) as [new ->].
  unfold manager_putThreadToSleep, manager_setFlag.
  destruct (sleeping_peek (sleepingThreads s)) as [old|];
    [destruct (negb (id old =? id new))|]; simpl; rewrite Ht; simpl;
    (destruct (setitimer_ok os); simpl; [|discriminate]);
    rewrite (lookup_insert_eq (manager s)); simpl;
    intros [= <- _]; apply (has_run_ms_switch _ _ Hwf').
Qed.

Lemma has_run_quantum os sig s s' log :
  wf s -> has_run s ->
  final (handleQuantumTimeout os sig s) = Some (s', log) -> has_run s'.
Proof.
  intros Hwf Hrun. unfold_ops.
  destruct (sig =? SIGVTALRM); simpl; [|by intros [= <- _]].
  destruct (setitimer_ok os); simpl; [|discriminate].
  pose proof (wf_ms_whosNextTimeout _ _ Hwf) as Hwf'.
  destruct (sched_whosNextTimeout (sched s)) as [next sc'] eqn:E. simpl in *.
  assert (next = running sc') as ->.
  { unfold sched_whosNextTimeout in E. destruct (ready (sched s)); by injection E as <- <-. }
  destruct (manager s !! running (sched s)); simpl;
    intros [= <- _]; apply (has_run_ms_switch _ _ Hwf').
Qed.

Lemma has_run_wake sig clock s s' log :
  has_run s -> final (handleSleepTimeout sig clock s) = Some (s', log) -> has_run s'.
Proof.
  intros (t & Ht & Hq). destruct (decide (sig = SIGALRM)) as [->|Hsig].
  2:{ rewrite handleSleepTimeout_other_signal by done. intros [= <- _]. by exists t. }
  destruct (sleepingThreads s) as [|w q] eqn:Eq.
  { rewrite handleSleepTimeout_loop, Eq. discriminate. }
  destruct (handleSleepTimeout_spec clock s) as (popped & rest & _ & _ & Hrun).
  { by rewrite Eq. }
  assert (has_run (wake_all popped s)) as Hgoal.
  { destruct (wake_all_frame popped s) as (Hr & _).
    unfold has_run, has_run_ms. rewrite Hr, wake_all_manager, Ht.
    destruct (decide _); [exists (setSleep false t)|exists t]; done. }
  cbv zeta in Hrun. destruct rest as [|nxt rest].
  - rewrite Hrun. by intros [= <- _].
  - destruct Hrun as [_ ->]. by intros [= <- _].
Qed.

Lemma has_run_step MAX_THREAD_NUM os c s s' log :
  wf s -> has_run s -> (forall q, c <> Init q) ->
  final (step MAX_THREAD_NUM os c s) = Some (s', log) -> has_run s'.
Proof.
  intros Hwf Hrun Hc. destruct c; cbn [step]; try rewrite final_void.
  - by destruct (Hc quantum_usecs).
  - by apply has_run_spawn.
  - by apply has_run_terminate.
  - by apply has_run_block.
  - by apply has_run_resume.
  - by apply has_run_sleep.
  - intros H. destruct (counter_observers os 0 s s' log) as [-> _]; tauto.
  - intros H. destruct (counter_observers os 0 s s' log) as [-> _]; tauto.
  - intros H. destruct (counter_observers os tid s s' log) as [-> _]; tauto.
  - by apply has_run_quantum.
  - by apply has_run_wake.
Qed.

Lemma reachable_has_run MAX_THREAD_NUM s : reachable MAX_THREAD_NUM s -> has_run s.
Proof.
  induction 1 as [os q s log Hinit|os c s s' log Hreach IH Hc Hstep].
  - by eapply has_run_init.
  - eapply has_run_step; eauto. by eapply reachable_wf.
Qed.

(** X9. In every reachable state the main thread is registered, is neither
    blocked nor sleeping and is in the ready queue; the running thread heads
    the ready queue, is registered, is neither blocked nor sleeping, and its
    quantum count is at least 1.  So a thread that asks for its own quantum
    count, [uthread_get_quantums(uthread_get_tid())], gets a value of at
    least 1 and the state is unchanged. *)
Theorem running_thread_has_run (MAX_THREAD_NUM : Z) (os : OS) (s : lib) :
  sigprocmask_ok os = true ->
  reachable MAX_THREAD_NUM s ->
  (exists t0, manager s !! 0 = Some t0 /\ _isBlocked t0 = false /\
              _isSleeping t0 = false /\ 0 ∈ ready (sched s)) /\
  (exists t, manager s !! running (sched s) = Some t /\ _isBlocked t = false /\
             _isSleeping t = false /\ 1 <= _quants t /\
             head (ready (sched s)) = Some (running (sched s)) /\
             (tid <- uthread_get_tid os ;; uthread_get_quantums os tid) s
             = Ok (_quants t) s []).
Proof.
  intros Hmask Hreach. pose proof (reachable_wf _ _ Hreach) as Hwf.
  destruct (reachable_has_run _ _ Hreach) as (t & Ht & Hq).
  split.
  - destruct (wf_ready _ _ Hwf 0 (wf_main _ _ Hwf)) as (t0 & Ht0 & Hb & Hs).
    exists t0. repeat split; try done. apply Hwf.
  - destruct (wf_ready _ _ Hwf _ (wf_ms_running_in _ _ Hwf)) as (t' & Ht' & Hb & Hs).
    simplify_eq. exists t. repeat split; try done; [apply Hwf|].
    unfold_ops. rewrite ?Hmask. simpl. unfold manager_getThreadQuants. rewrite Ht.
    unfold getQuants. destruct (_quants t =? -1) eqn:E; [lia|]. simpl.
    by rewrite ?Hmask.
Qed.

Lemma running_thread_has_run_witness :
  exists t, manager st_running1 !! running (sched st_running1) = Some t /\
            _isBlocked t = false /\ _isSleeping t = false /\ 1 <= _quants t /\
            head (ready (sched st_running1)) = Some (running (sched st_running1)) /\
            (tid <- uthread_get_tid os_ok ;; uthread_get_quantums os_ok tid) st_running1
            = Ok (_quants t) st_running1 [].
Proof.
  apply (running_thread_has_run 100 os_ok st_running1).
  - reflexivity.
  - apply st_running1_reachable.
Defined.

(** ** What a step leaves alone *)

Ltac framed := intros [= <- <-]; unfold vstarts, switches; simpl.

Lemma frame_spawn MAX_THREAD_NUM os s s' log :
  final (uthread_spawn MAX_THREAD_NUM os s) = Some (s', log) ->
  vTimer s' = vTimer s /\ vstarts log = switches log /\
  sleepingThreads s' = sleepingThreads s /\ rTimer s' = rTimer s /\
  List.filter is_rstart log = [].
Proof.
  unfold_ops.
  destruct (sigprocmask_ok os); simpl; [|discriminate].
  destruct (manager_createThread MAX_THREAD_NUM os (manager s)) as [newTid m]. simpl.
  destruct (newTid =? sysError); simpl; [discriminate|].
  destruct (newTid =? -1); simpl; by framed.
Qed.

Lemma frame_terminate os tid s s' log :
  final (uthread_terminate os tid s) = Some (s', log) ->
  vt_quantum (vTimer s') = vt_quantum (vTimer s) /\ vstarts log = switches log /\
  sleepingThreads s' = sleepingThreads s /\ rTimer s' = rTimer s /\
  List.filter is_rstart log = [].
Proof.
  unfold_ops.
  destruct (sigprocmask_ok os); simpl; [|discriminate].
  destruct (tid =? 0) eqn:E0; simpl; [discriminate|].
  destruct (manager_killThread tid (manager s)) as [r m]. simpl.
  destruct (negb (r =? -1)); simpl; [|by framed].
  destruct (negb _); simpl; [|by framed].
  destruct (setitimer_ok os); simpl; [|discriminate].
  match goal with
  | |- context [match ?x with Some _ => _ | None => _ end] => destruct x
  end; simpl; by framed.
Qed.

Lemma frame_block os tid s s' log :
  final (uthread_block os tid s) = Some (s', log) ->
  vt_quantum (vTimer s') = vt_quantum (vTimer s) /\ vstarts log = switches log /\
  sleepingThreads s' = sleepingThreads s /\ rTimer s' = rTimer s /\
  List.filter is_rstart log = [].
Proof.
  unfold_ops.
  destruct (sigprocmask_ok os); simpl; [|discriminate].
  destruct (tid =? 0) eqn:E0; simpl; [by framed|].
  destruct (manager_blockThread tid (manager s)) as [r m]. simpl.
  destruct (negb (r =? -1)); simpl; [|by framed].
  destruct (negb _); simpl; [|by framed].
  destruct (setitimer_ok os); simpl; [|discriminate].
  match goal with
  | |- context [match ?x with Some _ => _ | None => _ end] => destruct x
  end; simpl; by framed.
Qed.

Lemma frame_resume os tid s s' log :
  final (uthread_resume os tid s) = Some (s', log) ->
  vTimer s' = vTimer s /\ vstarts log = switches log /\
  sleepingThreads s' = sleepingThreads s /\ rTimer s' = rTimer s /\
  List.filter is_rstart log = [].
Proof.
  unfold_ops.
  destruct (sigprocmask_ok os); simpl; [|discriminate].
  destruct (manager_unBlockThread tid (manager s)) as [r m]. simpl.
  destruct (negb (r =? -1)); simpl; [|by framed].
  destruct (negb _); simpl; by framed.
Qed.

Lemma frame_quantum os sig s s' log :
  final (handleQuantumTimeout os sig s) = Some (s', log) ->
  vt_quantum (vTimer s') = vt_quantum (vTimer s) /\ vstarts log = switches log /\
  sleepingThreads s' = sleepingThreads s /\ rTimer s' = rTimer s /\
  List.filter is_rstart log = [].
Proof.
  unfold_ops.
  destruct (sig =? SIGVTALRM); simpl; [|by framed].
  destruct (setitimer_ok os); simpl; [|discriminate].
  destruct (sched_whosNextTimeout (sched s)) as [next sc'] eqn:E. simpl.
  destruct (manager s !! running (sched s)); simpl; by framed.
Qed.

Lemma frame_sleep os usec now s s' log :
  final (uthread_sleep os usec now s) = Some (s', log) ->
  vt_quantum (vTimer s') = vt_quantum (vTimer s) /\ vstarts log = switches log.
Proof.
  unfold_ops.
  destruct (sigprocmask_ok os); simpl; [|discriminate].
  destruct (running (sched s) =? 0) eqn:E0; simpl; [by framed|].
  destruct (sleeping_add_peek (running (sched s)) (calcWakUpTimeval now (to_int usec))
              (sleepingThreads s)) as [new ->].
  destruct (sleeping_peek (sleepingThreads s)) as [old|];
    [destruct (negb (id old =? id new))|]; simpl.
  all: match goal with
       | |- context [manager_putThreadToSleep ?a ?b] =>
           destruct (manager_putThreadToSleep a b) as [r m] eqn:Ep
       end; simpl.
  all: destruct (setitimer_ok os); simpl; [|discriminate].
  all: match goal with
       | |- context [match ?x with Some _ => _ | None => _ end] => destruct x
       end; simpl.
  all: by framed.
Qed.

Lemma frame_wake sig clock s s' log :
  final (handleSleepTimeout sig clock s) = Some (s', log) ->
  vTimer s' = vTimer s /\ vstarts log = switches log.
Proof.
  intros H. destruct (counter_wake _ _ _ _ _ H) as (_ & Hsw & _ & Hv).
  split; [done|]. rewrite Hsw. revert H.
  destruct (decide (sig = SIGALRM)) as [->|Hsig].
  2:{ rewrite handleSleepTimeout_other_signal by done. by intros [= _ <-]. }
  destruct (sleepingThreads s) as [|w q] eqn:Eq.
  { rewrite handleSleepTimeout_loop, Eq. discriminate. }
  destruct (handleSleepTimeout_returns clock s) as (s2 & log2 & -> & Hlog).
  { by rewrite Eq. }
  intros [= _ <-]. by destruct Hlog as [->|[d ->]].
Qed.

(** X10. After [uthread_init], no call or signal changes the length of the
    quantum, and the virtual timer is restarted exactly once for each context
    switch of a step and never otherwise.  Only [uthread_sleep] and the wake
    handler touch the sleep queue and the real timer: every other call and
    the quantum handler leave both as they are.  In particular
    [uthread_terminate] leaves the entry of a sleeping thread it removes in
    the sleep queue. *)
Theorem step_frame (MAX_THREAD_NUM : Z) (os : OS) (c : call) (s s' : lib)
    (log : list effect) :
  (forall q, c <> Init q) ->
  final (step MAX_THREAD_NUM os c s) = Some (s', log) ->
  vt_quantum (vTimer s') = vt_quantum (vTimer s) /\
  vstarts log = switches log /\
  (sleeps c = false ->
   sleepingThreads s' = sleepingThreads s /\ rTimer s' = rTimer s /\
   List.filter is_rstart log = []).
Proof.
  intros Hc. destruct c; cbn [step sleeps]; try rewrite final_void; intros H.
  - by destruct (Hc quantum_usecs).
  - apply frame_spawn in H as (-> & ? & ? & ? & ?). done.
  - apply frame_terminate in H as (? & ? & ? & ? & ?). done.
  - apply frame_block in H as (? & ? & ? & ? & ?). done.
  - apply frame_resume in H as (-> & ? & ? & ? & ?). done.
  - apply frame_sleep in H as (? & ?). done.
  - destruct (counter_observers os 0 s s' log) as [-> Hs]; [tauto|].
    revert H Hs. unfold_ops. destruct (sigprocmask_ok os); simpl; [|discriminate].
    by intros [= <-].
  - revert H. unfold_ops. by intros [= <- <-].
  - destruct (counter_observers os tid s s' log) as [-> Hs]; [tauto|].
    revert H Hs. unfold_ops. destruct (sigprocmask_ok os); simpl; [|discriminate].
    destruct (negb _); simpl; by intros [= <-].
  - apply frame_quantum in H as (? & ? & ? & ? & ?). done.
  - apply frame_wake in H as (-> & ?). done.
Qed.

Lemma step_frame_witness :
  sleepingThreads (set_manager (delete 1 (manager st_sleeping1)) st_sleeping1)
  = sleepingThreads st_sleeping1 /\
  rTimer (set_manager (delete 1 (manager st_sleeping1)) st_sleeping1)
  = rTimer st_sleeping1.
Proof.
  destruct (step_frame 100 os_ok (Terminate 1) st_sleeping1
              (set_manager (delete 1 (manager st_sleeping1)) st_sleeping1) [])
    as (_ & _ & H).
  - discriminate.
  - by vm_compute.
  - destruct (H eq_refl) as (Hq & Hr & _). done.
Defined.

(** ** The cascade of the wake handler *)

Lemma wake_loop_cascade clock q : forall inLoop s,
  q <> [] ->
  exists popped rest,
    q = popped ++ rest /\ popped <> [] /\
    (forall k w, popped !! S k = Some w ->
                 totalTime_of w (clock (inLoop + S k)%nat) <= 0) /\
    let s1 := set_sleepingThreads rest (wake_all popped s) in
    match rest with
    | [] => wake_loop clock inLoop q s = Ok tt s1 []
    | nextToWake :: _ =>
        let d := totalTime_of nextToWake (clock (inLoop + length popped)%nat) in
        0 < d /\
        wake_loop clock inLoop q s = Ok tt (set_rTimer (Some d) s1) [RTimerStart d]
    end.
Proof.
  induction q as [|w rest IH]; intros inLoop s Hq; [done|].
  rewrite wake_loop_cons. cbv zeta.
  destruct rest as [|nxt rest'].
  { exists [w], []. split; [done|]. split; [done|]. split; [by intros [|k] w'|].
    simpl. by rewrite wake_entry_sleeping. }
  destruct (totalTime_of nxt (clock (S inLoop)) <=? 0) eqn:Ed.
  - destruct (IH (S inLoop)
                (wake_entry (id w) (set_sleepingThreads (nxt :: rest') s))
                ltac:(done))
      as (popped & rest & Heq & Hne & Hdue & Hrun).
    exists (w :: popped), rest. split; [by rewrite Heq|]. split; [done|].
    split.
    { intros [|k] w' Hw'; simpl in Hw'.
      - destruct popped as [|p popped]; [done|]. simpl in Hw', Heq.
        injection Hw' as <-. injection Heq as <- _.
        replace (inLoop + 1)%nat with (S inLoop) by lia. lia.
      - specialize (Hdue k w' Hw').
        by replace (inLoop + S (S k))%nat with (S inLoop + S k)%nat by lia. }
    cbv zeta in Hrun |- *.
    assert (set_sleepingThreads rest
              (wake_all popped (wake_entry (id w) (set_sleepingThreads (nxt :: rest') s)))
            = set_sleepingThreads rest (wake_all (w :: popped) s)) as Hst.
    { simpl. by rewrite wake_entry_sleeping, wake_all_sleeping. }
    rewrite Hst in Hrun.
    replace (inLoop + length (w :: popped))%nat with (S inLoop + length popped)%nat
      by (simpl; lia).
    done.
  - exists [w], (nxt :: rest'). split; [done|]. split; [done|].
    split; [by intros [|k] w'|].
    cbv zeta. simpl length. replace (inLoop + 1)%nat with (S inLoop) by lia.
    split; [lia|]. simpl. by rewrite wake_entry_sleeping.
Qed.

(** X11. An invocation of the wake handler on a non-empty sleep queue always
    returns.  It pops the head whether or not it is due, then goes on popping
    exactly while the value it computes for [totalTime] from the next head is
    not positive, and wakes the popped entries in order.  If entries are
    left, the value computed for the head is positive and is what the real
    timer is restarted with; if none is left the timer is not touched.  On an
    empty sleep queue the handler dereferences the null pointer [peek]
    returned; for a signal other than [SIGALRM] it does nothing. *)
Theorem wake_handler_cascade (sig : Z) (clock : nat -> timeval) (s : lib) :
  (sig <> SIGALRM -> handleSleepTimeout sig clock s = Ok tt s []) /\
  (sleepingThreads s = [] -> handleSleepTimeout SIGALRM clock s = Fault []) /\
  (sleepingThreads s <> [] ->
   exists popped rest,
     sleepingThreads s = popped ++ rest /\ popped <> [] /\
     (forall k w, popped !! S k = Some w -> totalTime_of w (clock (S k)) <= 0) /\
     match rest with
     | [] =>
         handleSleepTimeout SIGALRM clock s
         = Ok tt (set_sleepingThreads [] (wake_all popped s)) []
     | nextToWake :: _ =>
         let d := totalTime_of nextToWake (clock (length popped)) in
         0 < d /\
         handleSleepTimeout SIGALRM clock s
         = Ok tt (set_rTimer (Some d) (set_sleepingThreads rest (wake_all popped s)))
              [RTimerStart d]
     end).
Proof.
  split; [apply handleSleepTimeout_other_signal|]. split.
  - intros Hq. by rewrite handleSleepTimeout_loop, Hq.
  - intros Hq. rewrite handleSleepTimeout_loop.
    destruct (wake_loop_cascade clock (sleepingThreads s) 0%nat s Hq)
      as (popped & rest & Heq & Hne & Hdue & Hrun).
    exists popped, rest. split; [done|]. split; [done|]. split; [apply Hdue|].
    cbv zeta in Hrun. destruct rest; apply Hrun.
Qed.

Lemma wake_handler_cascade_witness :
  exists popped rest,
    sleepingThreads st_two_sleepers = popped ++ rest /\ popped <> [] /\
    (forall k w, popped !! S k = Some w ->
                 totalTime_of w ((fun _ => Timeval 11 0) (S k)) <= 0) /\
    match rest with
    | [] =>
        handleSleepTimeout SIGALRM (fun _ => Timeval 11 0) st_two_sleepers
        = Ok tt (set_sleepingThreads [] (wake_all popped st_two_sleepers)) []
    | nextToWake :: _ =>
        let d := totalTime_of nextToWake ((fun _ => Timeval 11 0) (length popped)) in
        0 < d /\
        handleSleepTimeout SIGALRM (fun _ => Timeval 11 0) st_two_sleepers
        = Ok tt (set_rTimer (Some d)
                   (set_sleepingThreads rest (wake_all popped st_two_sleepers)))
             [RTimerStart d]
    end.
Proof.
  apply (wake_handler_cascade SIGALRM (fun _ => Timeval 11 0) st_two_sleepers).
  discriminate.
Defined.

Lemma to_int_range x : -2147483648 <= to_int x < 2147483648.
Proof.
  unfold to_int.
  pose proof (Z.mod_pos_bound (x + 2147483648) 4294967296). lia.
Qed.

(** X12. Whenever the wake handler returns with entries left in the sleep
    queue, it has popped at least one entry and restarted the real timer
    with a positive delay [d], which is its only outside effect: [d] is 1000
    times the microseconds left until the wake time of the new head, counted
    from the time [gettimeofday] gave in the iteration that popped the last
    entry, and reduced to an [int].  When between 1 and 2147483 microseconds
    are left, [d] is exactly 1000 times that number; when more are left, it
    is not. *)
Theorem wake_handler_delay (clock : nat -> timeval) (s s' : lib) (log : list effect)
    (nextToWake : wake_up_info) (rest : list wake_up_info) :
  handleSleepTimeout SIGALRM clock s = Ok tt s' log ->
  sleepingThreads s' = nextToWake :: rest ->
  let popped := (length (sleepingThreads s) - length (sleepingThreads s'))%nat in
  let left := usec_until nextToWake (clock popped) in
  let d := to_int (1000 * left) in
  (0 < popped)%nat /\
  0 < d /\ rTimer s' = Some d /\ log = [RTimerStart d] /\
  (0 < left <= 2147483 -> d = 1000 * left) /\
  (2147483 < left -> d <> 1000 * left).
Proof.
  intros Hrun Hq.
  assert (sleepingThreads s <> []) as Hne0.
  { intros E. rewrite handleSleepTimeout_loop, E in Hrun. discriminate. }
  destruct (handleSleepTimeout_spec clock s Hne0)
    as (popped & rest' & Hsplit & Hne & Hrun').
  cbv zeta in Hrun'. destruct rest' as [|nxt rest''].
  { rewrite Hrun' in Hrun. injection Hrun as <- _. simpl in Hq. discriminate. }
  destruct Hrun' as [Hd Hrun']. rewrite Hrun' in Hrun. injection Hrun as <- <-.
  cbv zeta. rewrite Hq, Hsplit. simpl in Hq. injection Hq as <- <-.
  assert ((length (popped ++ nxt :: rest'') - length (nxt :: rest''))%nat
          = length popped) as ->.
  { rewrite length_app. lia. }
  rewrite <- totalTime_of_usec.
  split. { destruct popped; [done|simpl; lia]. }
  repeat split; try done.
  - intros Hrange. apply totalTime_of_in_range. lia.
  - intros Hbig. rewrite totalTime_of_usec.
    pose proof (to_int_range (1000 * usec_until nxt (clock (length popped)))). lia.
Qed.

Lemma wake_handler_delay_witness :
  let popped := (length (sleepingThreads st_two_sleepers)
                 - length (sleepingThreads st_one_sleeper))%nat in
  let left := usec_until (WakeUp 2 (Timeval 11 500)) ((fun _ => Timeval 11 0) popped) in
  let d := to_int (1000 * left) in
  (0 < popped)%nat /\
  0 < d /\ rTimer st_one_sleeper = Some d /\ [RTimerStart 500000] = [RTimerStart d] /\
  (0 < left <= 2147483 -> d = 1000 * left) /\
  (2147483 < left -> d <> 1000 * left).
Proof.
  apply (wake_handler_delay (fun _ => Timeval 11 0) st_two_sleepers st_one_sleeper
           [RTimerStart 500000] (WakeUp 2 (Timeval 11 500)) []).
  - by vm_compute.
  - reflexivity.
Defined.

(** ** Attribution of quanta *)

Lemma sum_quants_fresh (m : gmap Z thread) i x :
  m !! i = None -> sum_quants (<[i := x]> m) = _quants x + sum_quants m.
Proof.
  intros Hi. unfold sum_quants.
  rewrite (map_fold_insert_L (fun _ t acc => _quants t + acc)); [done| |done].
  intros. lia.
Qed.

Lemma sum_quants_delete (m : gmap Z thread) i x :
  m !! i = Some x -> sum_quants m = _quants x + sum_quants (delete i m).
Proof.
  intros Hi. unfold sum_quants.
  rewrite (map_fold_delete_L (fun _ t acc => _quants t + acc) 0 i x m); [done| |done].
  intros. lia.
Qed.

Lemma sum_quants_insert (m : gmap Z thread) i x y :
  m !! i = Some x -> sum_quants (<[i := y]> m) = sum_quants m - _quants x + _quants y.
Proof.
  intros Hi. rewrite <- (insert_delete_eq m).
  rewrite sum_quants_fresh by apply lookup_delete_eq.
  rewrite (sum_quants_delete m i x Hi). lia.
Qed.

Lemma sum_quants_same (m : gmap Z thread) i x y :
  m !! i = Some x -> _quants y = _quants x -> sum_quants (<[i := y]> m) = sum_quants m.
Proof. intros Hi Hq. rewrite (sum_quants_insert m i x y Hi). lia. Qed.

Lemma sum_quants_switch m sc :
  wf_ms m sc -> sum_quants (alter updateQuants (running sc) m) = sum_quants m + 1.
Proof.
  intros Hwf.
  destruct (wf_ready _ _ Hwf _ (wf_ms_running_in _ _ Hwf)) as (t & Ht & _).
  assert (alter updateQuants (running sc) m = <[running sc := updateQuants t]> m) as ->.
  { apply map_eq. intros i. rewrite lookup_alter, lookup_insert.
    repeat case_decide; subst; try done. by rewrite Ht. }
  rewrite (sum_quants_insert m _ t _ Ht). simpl. lia.
Qed.

Lemma sum_quants_wake_entry tid s :
  sum_quants (manager (wake_entry tid s)) = sum_quants (manager s).
Proof.
  unfold wake_entry. destruct (manager s !! tid) as [t|] eqn:Ht; [|done].
  destruct (_isBlocked t); simpl; by apply (sum_quants_same _ _ t).
Qed.

Lemma sum_quants_wake_all popped : forall s,
  sum_quants (manager (wake_all popped s)) = sum_quants (manager s).
Proof.
  induction popped as [|w popped IH]; intros s; [done|].
  simpl. by rewrite IH, sum_quants_wake_entry.
Qed.

Lemma attr_spawn MAX_THREAD_NUM os s s' log :
  final (uthread_spawn MAX_THREAD_NUM os s) = Some (s', log) ->
  unattributed s' = unattributed s.
Proof.
  unfold_ops.
  destruct (sigprocmask_ok os); simpl; [|discriminate].
  unfold manager_createThread.
  destruct (MAX_THREAD_NUM <=? Z.of_nat (size (manager s))); simpl.
  { intros [= <- _]. by rewrite set_manager_id. }
  destruct (smallest_unused MAX_THREAD_NUM (manager s)) as [newTid|] eqn:E; simpl.
  2:{ intros [= <- _]. by rewrite set_manager_id. }
  apply smallest_unused_Some in E as [Hrange Hnone].
  destruct (alloc_ok os); simpl; [|discriminate].
  unfold sysError.
  destruct (newTid =? -2) eqn:E1; [lia|].
  destruct (newTid =? -1) eqn:E2; [lia|]. simpl.
  intros [= <- _]. unfold unattributed. simpl.
  rewrite sum_quants_fresh by done. simpl. lia.
Qed.

Lemma attr_terminate os tid s s' log :
  wf s -> final (uthread_terminate os tid s) = Some (s', log) ->
  unattributed s <= unattributed s'.
Proof.
  intros Hwf. unfold_ops.
  destruct (sigprocmask_ok os); simpl; [|discriminate].
  destruct (tid =? 0) eqn:E0; simpl; [discriminate|].
  unfold manager_killThread.
  destruct (manager s !! tid) as [t|] eqn:Ht; simpl.
  2:{ intros [= <- _]. rewrite set_manager_id. lia. }
  pose proof (wf_ms_whosNextTermination _ _ tid Hwf ltac:(lia)) as Hwf'.
  pose proof (sum_quants_switch _ _ Hwf') as Hsw. simpl in Hsw.
  pose proof (sum_quants_delete _ _ _ Ht) as Hdel.
  pose proof (wf_quants _ _ Hwf _ _ Ht) as Hq.
  destruct (negb _) eqn:En; simpl.
  - destruct (setitimer_ok os); simpl; [|discriminate].
    destruct (delete tid (manager s) !! running (sched s)); simpl;
      intros [= <- _]; unfold unattributed; simpl; lia.
  - intros [= <- _]. unfold unattributed. simpl. lia.
Qed.

Lemma attr_block os tid s s' log :
  wf s -> final (uthread_block os tid s) = Some (s', log) ->
  unattributed s' = unattributed s.
Proof.
  intros Hwf. unfold_ops.
  destruct (sigprocmask_ok os); simpl; [|discriminate].
  destruct (tid =? 0) eqn:E0; simpl; [by intros [= <- _]|].
  unfold manager_blockThread, manager_setFlag.
  destruct (manager s !! tid) as [t|] eqn:Ht; simpl.
  2:{ intros [= <- _]. by rewrite set_manager_id. }
  pose proof (wf_ms_whosNextBlock _ _ tid t (setBlocked true) Hwf ltac:(lia) Ht eq_refl)
    as Hwf'.
  pose proof (sum_quants_switch _ _ Hwf') as Hsw. simpl in Hsw.
  pose proof (sum_quants_same _ _ _ (setBlocked true t) Ht eq_refl) as Hins.
  destruct (negb _) eqn:En; simpl.
  - destruct (setitimer_ok os); simpl; [|discriminate].
    destruct (<[tid:=setBlocked true t]> (manager s) !! running (sched s)); simpl;
      intros [= <- _]; unfold unattributed; simpl; lia.
  - intros [= <- _]. unfold unattributed. simpl. lia.
Qed.

Lemma attr_resume os tid s s' log :
  final (uthread_resume os tid s) = Some (s', log) ->
  unattributed s' = unattributed s.
Proof.
  unfold_ops.
  destruct (sigprocmask_ok os); simpl; [|discriminate].
  unfold manager_unBlockThread, manager_setFlag.
  destruct (manager s !! tid) as [t|] eqn:Ht; simpl.
  2:{ intros [= <- _]. by rewrite set_manager_id. }
  pose proof (sum_quants_same _ _ _ (setBlocked false t) Ht eq_refl) as Hins.
  destruct (negb _); simpl; intros [= <- _]; unfold unattributed; simpl; lia.
Qed.

Lemma attr_sleep os usec now s s' log :
  wf s -> final (uthread_sleep os usec now s) = Some (s', log) ->
  unattributed s' = unattributed s.
Proof.
  intros Hwf. unfold_ops.
  destruct (sigprocmask_ok os); simpl; [|discriminate].
  destruct (running (sched s) =? 0) eqn:E0; simpl; [by intros [= <- _]|].
  destruct (wf_ready _ _ Hwf _ (wf_ms_running_in _ _ Hwf)) as (t & Ht & Hb & Hs).
  pose proof (wf_ms_whosNextBlock _ _ (running (sched s)) t (setSleep true)
                Hwf ltac:(lia) Ht eq_refl) as Hwf'.
  pose proof (sum_quants_switch _ _ Hwf') as Hsw. simpl in Hsw.
  pose proof (sum_quants_same _ _ _ (setSleep true t) Ht eq_refl) as Hins.
  destruct (sleeping_add_peek (running (sched s)) (calcWakUpTimeval now (to_int usec))
              (sleepingThreads s)) as [new ->].
  unfold manager_putThreadToSleep, manager_setFlag.
  destruct (sleeping_peek (sleepingThreads s)) as [old|];
    [destruct (negb (id old =? id new))|]; simpl; rewrite Ht; simpl;
    (destruct (setitimer_ok os); simpl; [|discriminate]);
    rewrite (lookup_insert_eq (manager s)); simpl;
    intros [= <- _]; unfold unattributed; simpl;
    rewrite ?decide_True in Hsw by done; rewrite ?decide_True by done; lia.
Qed.

Lemma attr_quantum os sig s s' log :
  wf s -> final (handleQuantumTimeout os sig s) = Some (s', log) ->
  unattributed s' = unattributed s.
Proof.
  intros Hwf. unfold_ops.
  destruct (sig =? SIGVTALRM); simpl; [|by intros [= <- _]].
  destruct (setitimer_ok os); simpl; [|discriminate].
  pose proof (wf_ms_whosNextTimeout _ _ Hwf) as Hwf'.
  pose proof (sum_quants_switch _ _ Hwf') as Hsw.
  destruct (sched_whosNextTimeout (sched s)) as [next sc'] eqn:E. simpl in *.
  assert (next = running sc') as ->.
  { unfold sched_whosNextTimeout in E. destruct (ready (sched s)); by injection E as <- <-. }
  destruct (manager s !! running (sched s)); simpl;
    intros [= <- _]; unfold unattributed; simpl; lia.
Qed.

Lemma attr_wake sig clock s s' log :
  final (handleSleepTimeout sig clock s) = Some (s', log) ->
  unattributed s' = unattributed s.
Proof.
  destruct (decide (sig = SIGALRM)) as [->|Hsig].
  2:{ rewrite handleSleepTimeout_other_signal by done. by intros [= <- _]. }
  destruct (sleepingThreads s) as [|w q] eqn:Eq.
  { rewrite handleSleepTimeout_loop, Eq. discriminate. }
  destruct (handleSleepTimeout_spec clock s) as (popped & rest & _ & _ & Hrun).
  { by rewrite Eq. }
  destruct (wake_all_frame popped s) as (_ & _ & _ & _ & Ht).
  pose proof (sum_quants_wake_all popped s) as Hsum.
  cbv zeta in Hrun. destruct rest as [|nxt rest].
  - rewrite Hrun. intros [= <- _]. unfold unattributed. simpl. lia.
  - destruct Hrun as [_ ->]. intros [= <- _]. unfold unattributed. simpl. lia.
Qed.

Lemma attr_step MAX_THREAD_NUM os c s s' log :
  wf s -> (forall q, c <> Init q) ->
  final (step MAX_THREAD_NUM os c s) = Some (s', log) ->
  unattributed s <= unattributed s' /\
  (is_terminate c = false -> unattributed s' = unattributed s).
Proof.
  intros Hwf Hc. destruct c; cbn [step is_terminate]; try rewrite final_void; intros H.
  - by destruct (Hc quantum_usecs).
  - apply attr_spawn in H. split; [lia|done].
  - apply attr_terminate in H; [|done]. split; [lia|done].
  - apply attr_block in H; [|done]. split; [lia|done].
  - apply attr_resume in H. split; [lia|done].
  - apply attr_sleep in H; [|done]. split; [lia|done].
  - destruct (counter_observers os 0 s s' log) as [-> _]; [tauto|]. split; [lia|done].
  - destruct (counter_observers os 0 s s' log) as [-> _]; [tauto|]. split; [lia|done].
  - destruct (counter_observers os tid s s' log) as [-> _]; [tauto|]. split; [lia|done].
  - apply attr_quantum in H; [|done]. split; [lia|done].
  - apply attr_wake in H. split; [lia|done].
Qed.

Lemma attr_init os quantum_usecs s log :
  uthread_init os quantum_usecs boot = Ok 0 s log -> unattributed s = 0.
Proof.
  unfold_ops.
  destruct (0 <? quantum_usecs); simpl; [|discriminate].
  destruct (alloc_ok os); simpl; [|discriminate].
  destruct (sigaddset_ok os); simpl; [|discriminate].
  destruct (sigaction_ok os); simpl; [|discriminate].
  destruct (setitimer_ok os); simpl; [|discriminate].
  intros [= <- _]. by vm_compute.
Qed.

Lemma reachable_attr MAX_THREAD_NUM s : reachable MAX_THREAD_NUM s -> 0 <= unattributed s.
Proof.
  induction 1 as [os q s log Hinit|os c s s' log Hreach IH Hc Hstep].
  - rewrite (attr_init _ _ _ _ Hinit). lia.
  - destruct (attr_step _ _ _ _ _ _ (reachable_wf _ _ Hreach) Hc Hstep). lia.
Qed.

Lemma attr_run MAX_THREAD_NUM os cs : forall s s',
  wf s -> forallb (fun c => negb (is_terminate c)) cs = true ->
  run_calls MAX_THREAD_NUM os cs s = Some s' ->
  unattributed s' = unattributed s.
Proof.
  induction cs as [|c cs IH]; intros s s' Hwf Hnt.
  - by intros [= <-].
  - simpl in Hnt. apply andb_true_iff in Hnt as [Hc Hnt].
    apply negb_true_iff in Hc.
    destruct c; cbn [run_calls]; try discriminate;
      (match goal with
       | |- context [final ?r] => destruct (final r) as [[s1 log]|] eqn:E
       end; [|discriminate]);
      intros H;
      (assert (wf s1) as Hwf1 by (eapply wf_step; eauto; discriminate));
      rewrite (IH s1 s' Hwf1 Hnt H);
      eapply attr_step in E as [_ Heq]; eauto; discriminate.
Qed.

(** X13. In every reachable state the quantum counts of the registered
    threads add up to at most the quantum counter.  The two are equal right
    after [uthread_init] and stay equal over any sequence of calls and
    signals that contains no [uthread_terminate]: every quantum counted by
    [uthread_get_total_quantums] is then counted for exactly one thread. *)
Theorem quantum_attribution (MAX_THREAD_NUM : Z) :
  (forall s, reachable MAX_THREAD_NUM s -> sum_quants (manager s) <= totalQuants s) /\
  (forall os os' quantum_usecs s0 log cs s,
     uthread_init os quantum_usecs boot = Ok 0 s0 log ->
     forallb (fun c => negb (is_terminate c)) cs = true ->
     run_calls MAX_THREAD_NUM os' cs s0 = Some s ->
     sum_quants (manager s) = totalQuants s).
Proof.
  split.
  - intros s Hreach. pose proof (reachable_attr _ _ Hreach). unfold unattributed in *. lia.
  - intros os os' q s0 log cs s Hinit Hnt Hrun.
    pose proof (attr_run _ _ _ _ _ (wf_init _ _ _ _ _ Hinit) Hnt Hrun) as Heq.
    rewrite (attr_init _ _ _ _ Hinit) in Heq. unfold unattributed in Heq. lia.
Qed.

Lemma quantum_attribution_witness :
  sum_quants (manager st_two_sleepers) = totalQuants st_two_sleepers.
Proof.
  destruct (quantum_attribution 100) as [_ H].
  apply (H os_ok os_ok 100000 st_init [VTimerStart]
           [Spawn; Spawn; QuantumTimeout SIGVTALRM;
            Sleep 1000000 (Timeval 10 0); Sleep 1000500 (Timeval 10 0)]).
  - by vm_compute.
  - reflexivity.
  - by vm_compute.
Defined.

(** ** Round robin *)

Lemma sched_whosNextTimeout_fst sc :
  (sched_whosNextTimeout sc).1 = running (sched_whosNextTimeout sc).2.
Proof. unfold sched_whosNextTimeout. by destruct (ready sc). Qed.

Lemma quantum_expiry_final os s :
  setitimer_ok os = true ->
  exists log, final (handleQuantumTimeout os SIGVTALRM s) = Some (credit (rotate s), log).
Proof.
  intros Htimer. unfold_ops. simpl. rewrite Htimer. simpl.
  pose proof (sched_whosNextTimeout_fst (sched s)) as Hfst.
  unfold credit, rotate.
  destruct (sched_whosNextTimeout (sched s)) as [next sc'] eqn:E. simpl in *. subst next.
  destruct (manager s !! running (sched s)); simpl; eauto.
Qed.

Lemma run_calls_quantum MAX_THREAD_NUM os n : forall s,
  setitimer_ok os = true ->
  run_calls MAX_THREAD_NUM os (replicate n (QuantumTimeout SIGVTALRM)) s
  = Some (Nat.iter n (fun s => credit (rotate s)) s).
Proof.
  induction n as [|n IH]; intros s Htimer; [done|].
  rewrite Nat.iter_succ_r. cbn [replicate run_calls step]. rewrite final_void.
  destruct (quantum_expiry_final os s Htimer) as [log ->]. by apply IH.
Qed.

Lemma iter_credit_rotate n s :
  Nat.iter (S n) (fun s => credit (rotate s)) s
  = credit (Nat.iter n (fun s => rotate (credit s)) (rotate s)).
Proof.
  induction n as [|n IH]; [done|].
  rewrite Nat.iter_succ, IH. done.
Qed.

Lemma rotate_credit_iter l1 : forall l2 s,
  ready (sched s) = l1 ++ l2 ->
  head (ready (sched s)) = Some (running (sched s)) ->
  NoDup l1 ->
  let s' := Nat.iter (length l1) (fun s => rotate (credit s)) s in
  ready (sched s') = l2 ++ l1 /\
  head (ready (sched s')) = Some (running (sched s')) /\
  totalQuants s' = totalQuants s + Z.of_nat (length l1) /\
  (forall tid, manager s' !! tid =
               if decide (tid ∈ l1) then updateQuants <$> manager s !! tid
               else manager s !! tid) /\
  sleepingThreads s' = sleepingThreads s /\ rTimer s' = rTimer s /\
  vt_quantum (vTimer s') = vt_quantum (vTimer s).
Proof.
  induction l1 as [|x l1 IH]; intros l2 s Hready Hhead Hnd; cbv zeta.
  - simpl. rewrite app_nil_r. repeat split; try done. lia.
  - apply NoDup_cons in Hnd as [Hx Hnd].
    cbn [length]. rewrite Nat.iter_succ_r.
    assert (running (sched s) = x) as Hrun.
    { rewrite Hready in Hhead. simpl in Hhead. by injection Hhead. }
    set (s1 := rotate (credit s)).
    assert (ready (sched s1) = l1 ++ (l2 ++ [x])) as Hready1.
    { subst s1. unfold rotate, credit, sched_whosNextTimeout. simpl.
      rewrite Hready. simpl. by rewrite app_assoc. }
    assert (head (ready (sched s1)) = Some (running (sched s1))) as Hhead1.
    { subst s1. unfold rotate, credit, sched_whosNextTimeout. simpl.
      rewrite Hready. simpl. by destruct (l1 ++ l2). }
    destruct (IH (l2 ++ [x]) s1 Hready1 Hhead1 Hnd) as (Hr & Hh & Ht & Hm & Hsl & Hrt & Hv).
    split; [by rewrite Hr, <- app_assoc|]. split; [done|].
    split; [rewrite Ht; subst s1; simpl; lia|].
    split; [|by rewrite Hsl, Hrt, Hv].
    intros tid. rewrite Hm. subst s1. simpl. rewrite Hrun, lookup_alter.
    destruct (decide (tid ∈ l1)) as [Hin|Hnin];
      destruct (decide (tid ∈ x :: l1)) as [Hin'|Hnin'];
      destruct (decide (x = tid)) as [->|Hne]; try done; exfalso;
      rewrite ?elem_of_cons, ?not_elem_of_cons in *; intuition congruence.
Qed.

(** X14. Quantum expiries hand the processor round in queue order.  In a
    reachable state whose ready queue is [running :: t], with the virtual
    timer restarting, the [k+1]-th of consecutive expiries makes the thread at
    position [k] of [t ++ [running]] the running one.  After as many
    expiries as the queue is long, the ready queue and the running thread
    are as at the start, every thread in the queue has exactly one more
    quantum, no other record has changed, and the counter has grown by the
    length of the queue. *)
Theorem round_robin (MAX_THREAD_NUM : Z) (os : OS) (s : lib) :
  setitimer_ok os = true ->
  reachable MAX_THREAD_NUM s ->
  (forall k tid,
     (tail (ready (sched s)) ++ [running (sched s)]) !! k = Some tid ->
     exists sk,
       run_calls MAX_THREAD_NUM os (replicate (S k) (QuantumTimeout SIGVTALRM)) s
       = Some sk /\
       running (sched sk) = tid) /\
  (exists s',
     run_calls MAX_THREAD_NUM os
       (replicate (length (ready (sched s))) (QuantumTimeout SIGVTALRM)) s = Some s' /\
     sched s' = sched s /\
     totalQuants s' = totalQuants s + Z.of_nat (length (ready (sched s))) /\
     (forall tid, manager s' !! tid =
                  if decide (tid ∈ ready (sched s)) then updateQuants <$> manager s !! tid
                  else manager s !! tid) /\
     sleepingThreads s' = sleepingThreads s /\ rTimer s' = rTimer s).
Proof.
  intros Htimer Hreach. pose proof (reachable_wf _ _ Hreach) as Hwf.
  destruct (ready (sched s)) as [|h t] eqn:Eq.
  { pose proof (wf_main _ _ Hwf) as H0. rewrite Eq in H0. by apply elem_of_nil in H0. }
  assert (running (sched s) = h) as Hrun.
  { pose proof (wf_head _ _ Hwf) as Hh. rewrite Eq in Hh. simpl in Hh. by injection Hh. }
  pose proof (wf_nodup _ _ Hwf) as Hnd. rewrite Eq in Hnd.
  assert (NoDup (t ++ [h])) as Hndc.
  { apply NoDup_cons in Hnd as [Hh Hnd]. apply NoDup_app. split; [done|].
    split; [|apply NoDup_singleton].
    intros x Hx Hx'. apply list_elem_of_singleton in Hx' as ->. done. }
  assert (ready (sched (rotate s)) = t ++ [h]) as Hready.
  { unfold rotate, sched_whosNextTimeout. by rewrite Eq. }
  assert (head (ready (sched (rotate s))) = Some (running (sched (rotate s)))) as Hhead.
  { unfold rotate, sched_whosNextTimeout. rewrite Eq. simpl. by destruct t. }
  split.
  - intros k tid Hk. simpl in Hk. rewrite Hrun in Hk.
    eexists. split; [by apply run_calls_quantum|].
    rewrite iter_credit_rotate. simpl.
    pose proof (lookup_lt_Some _ _ _ Hk) as Hlen.
    destruct (rotate_credit_iter (take k (t ++ [h])) (drop k (t ++ [h])) (rotate s))
      as (Hr & Hh & _).
    + by rewrite Hready, take_drop.
    + done.
    + rewrite <- (take_drop k (t ++ [h])) in Hndc. by apply NoDup_app in Hndc as [? _].
    + rewrite length_take in Hr, Hh. rewrite Nat.min_l in Hr, Hh by lia.
      rewrite Hr in Hh.
      assert (is_Some (drop k (t ++ [h]) !! 0%nat)) as [y Hy].
      { rewrite lookup_drop, Nat.add_0_r. eauto. }
      rewrite head_lookup, lookup_app_l in Hh by (by eapply lookup_lt_Some).
      rewrite lookup_drop, Nat.add_0_r, Hk in Hh. by injection Hh.
  - eexists. split; [by apply run_calls_quantum|].
    cbn [length]. rewrite iter_credit_rotate.
    destruct (rotate_credit_iter t [h] (rotate s) Hready Hhead)
      as (Hr & Hh & Ht & Hm & Hsl & Hrt & _).
    { by apply NoDup_cons in Hnd as [_ ?]. }
    cbv zeta in *. simpl in Hr.
    remember (Nat.iter (length t) (fun s => rotate (credit s)) (rotate s)) as sn eqn:Esn.
    clear Esn.
    assert (running (sched sn) = h) as Hrunn.
    { rewrite Hr in Hh. simpl in Hh. by injection Hh. }
    split; [|split; [|split; [|split]]].
    + simpl. destruct (sched sn) as [rd rn] eqn:Es. simpl in *. subst rd rn.
      destruct (sched s) as [rd rn]. simpl in *. by subst.
    + simpl. rewrite Ht. simpl. lia.
    + intros tid. simpl. rewrite Hrunn, lookup_alter, !Hm.
      change (manager (rotate s)) with (manager s).
      apply NoDup_cons in Hnd as [Hh' _].
      destruct (decide (h = tid)) as [->|Hne].
      * rewrite (decide_False (P := tid ∈ t)) by done.
        by rewrite (decide_True (P := tid ∈ tid :: t)) by apply list_elem_of_here.
      * destruct (decide (tid ∈ t)) as [Hin|Hnin];
          destruct (decide (tid ∈ h :: t)) as [Hin'|Hnin']; try done; exfalso;
          rewrite ?elem_of_cons, ?not_elem_of_cons in *; intuition congruence.
    + simpl. by rewrite Hsl.
    + simpl. by rewrite Hrt.
Qed.

Lemma round_robin_witness :
  exists s',
    run_calls 100 os_ok
      (replicate (length (ready (sched st_spawned))) (QuantumTimeout SIGVTALRM))
      st_spawned = Some s' /\
    sched s' = sched st_spawned /\
    totalQuants s' = totalQuants st_spawned + Z.of_nat (length (ready (sched st_spawned))).
Proof.
  destruct (round_robin 100 os_ok st_spawned eq_refl st_spawned_reachable)
    as (_ & s' & Hrun & Hsc & Ht & _).
  exists s'. done.
Defined.

(** ** Leaving the process *)

Lemma exit_spawn MAX_THREAD_NUM os s code log :
  uthread_spawn MAX_THREAD_NUM os s = Exit code log -> In ClearMem log /\ code = 1.
Proof.
  unfold_ops.
  destruct (sigprocmask_ok os); simpl; [|intros [= <- <-]; simpl; tauto].
  destruct (manager_createThread MAX_THREAD_NUM os (manager s)) as [newTid m]. simpl.
  destruct (newTid =? sysError); simpl; [intros [= <- <-]; simpl; tauto|].
  destruct (newTid =? -1); simpl; discriminate.
Qed.

Lemma exit_terminate os tid s code log :
  uthread_terminate os tid s = Exit code log ->
  In ClearMem log /\ (code = 1 \/ (code = 0 /\ tid = 0 /\ log = [ClearMem])).
Proof.
  unfold_ops.
  destruct (sigprocmask_ok os); simpl; [|intros [= <- <-]; simpl; tauto].
  destruct (tid =? 0) eqn:E0; simpl.
  { intros [= <- <-]. simpl. split; [tauto|]. right. repeat split. lia. }
  destruct (manager_killThread tid (manager s)) as [r m]. simpl.
  destruct (negb (r =? -1)); simpl; [|discriminate].
  destruct (negb _); simpl; [|discriminate].
  destruct (setitimer_ok os); simpl; [|intros [= <- <-]; simpl; tauto].
  match goal with
  | |- context [match ?x with Some _ => _ | None => _ end] => destruct x
  end; simpl; discriminate.
Qed.

Lemma exit_block os tid s code log :
  uthread_block os tid s = Exit code log -> In ClearMem log /\ code = 1.
Proof.
  unfold_ops.
  destruct (sigprocmask_ok os); simpl; [|intros [= <- <-]; simpl; tauto].
  destruct (tid =? 0) eqn:E0; simpl; [discriminate|].
  destruct (manager_blockThread tid (manager s)) as [r m]. simpl.
  destruct (negb (r =? -1)); simpl; [|discriminate].
  destruct (negb _); simpl; [|discriminate].
  destruct (setitimer_ok os); simpl; [|intros [= <- <-]; simpl; tauto].
  match goal with
  | |- context [match ?x with Some _ => _ | None => _ end] => destruct x
  end; simpl; discriminate.
Qed.

Lemma exit_resume os tid s code log :
  uthread_resume os tid s = Exit code log -> In ClearMem log /\ code = 1.
Proof.
  unfold_ops.
  destruct (sigprocmask_ok os); simpl; [|intros [= <- <-]; simpl; tauto].
  destruct (manager_unBlockThread tid (manager s)) as [r m]. simpl.
  destruct (negb (r =? -1)); simpl; [|discriminate].
  destruct (negb _); simpl; discriminate.
Qed.

Lemma exit_sleep os usec now s code log :
  uthread_sleep os usec now s = Exit code log -> In ClearMem log /\ code = 1.
Proof.
  unfold_ops.
  destruct (sigprocmask_ok os); simpl; [|intros [= <- <-]; simpl; tauto].
  destruct (running (sched s) =? 0) eqn:E0; simpl; [discriminate|].
  destruct (sleeping_add_peek (running (sched s)) (calcWakUpTimeval now (to_int usec))
              (sleepingThreads s)) as [new ->].
  destruct (sleeping_peek (sleepingThreads s)) as [old|];
    [destruct (negb (id old =? id new))|]; simpl.
  all: match goal with
       | |- context [manager_putThreadToSleep ?a ?b] =>
           destruct (manager_putThreadToSleep a b) as [r m] eqn:Ep
       end; simpl.
  all: destruct (setitimer_ok os); simpl; [|intros [= <- <-]; simpl; tauto].
  all: match goal with
       | |- context [match ?x with Some _ => _ | None => _ end] => destruct x
       end; simpl; discriminate.
Qed.

Lemma exit_observers os tid s code log :
  uthread_get_tid os s = Exit code log \/
  uthread_get_quantums os tid s = Exit code log ->
  In ClearMem log /\ code = 1.
Proof.
  unfold_ops.
  destruct (sigprocmask_ok os); simpl.
  - destruct (negb _); simpl; intros [H|H]; discriminate.
  - intros [H|H]; injection H as <- <-; simpl; tauto.
Qed.

Lemma exit_quantum os sig s code log :
  handleQuantumTimeout os sig s = Exit code log -> In ClearMem log /\ code = 1.
Proof.
  unfold_ops.
  destruct (sig =? SIGVTALRM); simpl; [|discriminate].
  destruct (setitimer_ok os); simpl; [|intros [= <- <-]; simpl; tauto].
  destruct (sched_whosNextTimeout (sched s)) as [next sc'] eqn:E. simpl.
  destruct (manager s !! running (sched s)); simpl; discriminate.
Qed.

Lemma exit_init os quantum_usecs s code log :
  uthread_init os quantum_usecs s = Exit code log -> In ClearMem log /\ code = 1.
Proof.
  unfold_ops. destruct (0 <? quantum_usecs); simpl; [|discriminate].
  destruct (alloc_ok os); simpl; [|intros [= <- <-]; simpl; tauto].
  destruct (sigaddset_ok os); simpl; [|intros [= <- <-]; simpl; tauto].
  destruct (sigaction_ok os); simpl; [|intros [= <- <-]; simpl; tauto].
  destruct (setitimer_ok os); simpl; [discriminate|intros [= <- <-]; simpl; tauto].
Qed.

Lemma handleSleepTimeout_never_exits sig clock s :
  match handleSleepTimeout sig clock s with
  | Exit _ _ | Gone _ _ => False
  | _ => True
  end.
Proof.
  destruct (decide (sig = SIGALRM)) as [->|Hsig].
  2:{ by rewrite handleSleepTimeout_other_signal. }
  destruct (sleepingThreads s) as [|w q] eqn:Eq.
  { by rewrite handleSleepTimeout_loop, Eq. }
  destruct (handleSleepTimeout_returns clock s) as (s2 & log2 & -> & _); [|done].
  by rewrite Eq.
Qed.

Lemma void_Exit (m : M unit) s code log :
  void m s = Exit code log -> m s = Exit code log.
Proof. unfold void. destruct (m s); try discriminate. by intros [= <- <-]. Qed.

(** X15. The process never exits without first releasing the library
    objects.  It exits with code 0 only from [uthread_terminate(0)], and
    then nothing is written; every other exit has code 1.  The wake handler
    never exits. *)
Theorem exit_releases_memory (MAX_THREAD_NUM : Z) (os : OS) (c : call) (s : lib)
    (code : Z) (log : list effect) :
  step MAX_THREAD_NUM os c s = Exit code log ->
  In ClearMem log /\
  (code = 1 \/ (code = 0 /\ c = Terminate 0 /\ log = [ClearMem])) /\
  (forall sig clock, c <> SleepTimeout sig clock).
Proof.
  destruct c; cbn [step]; intros H; try apply void_Exit in H.
  - apply exit_init in H as [? ->]. repeat split; try done. by left.
  - apply exit_spawn in H as [? ->]. repeat split; try done. by left.
  - apply exit_terminate in H as [? [->|(-> & -> & ->)]]; repeat split; try done.
    + by left.
    + by right.
  - apply exit_block in H as [? ->]. repeat split; try done. by left.
  - apply exit_resume in H as [? ->]. repeat split; try done. by left.
  - apply exit_sleep in H as [? ->]. repeat split; try done. by left.
  - destruct (exit_observers os 0 s code log) as [? ->]; [tauto|].
    repeat split; try done. by left.
  - discriminate.
  - destruct (exit_observers os tid s code log) as [? ->]; [tauto|].
    repeat split; try done. by left.
  - apply exit_quantum in H as [? ->]. repeat split; try done. by left.
  - exfalso. pose proof (handleSleepTimeout_never_exits sig clock s) as Haux.
    by rewrite H in Haux.
Qed.

Lemma exit_releases_memory_witness :
  In ClearMem [ClearMem] /\
  (0 = 1 \/ (0 = 0 /\ Terminate 0 = Terminate 0 /\ [ClearMem] = [ClearMem])) /\
  (forall sig clock, Terminate 0 <> SleepTimeout sig clock).
Proof.
  apply (exit_releases_memory 100 os_ok (Terminate 0) st_two_sleepers 0 [ClearMem]).
  reflexivity.
Defined.

(** ** The outcomes of a step *)

Lemma wf_running_registered s : wf s -> is_Some (manager s !! running (sched s)).
Proof.
  intros Hwf. destruct (wf_ready _ _ Hwf _ (wf_ms_running_in _ _ Hwf)) as (t & Ht & _).
  by exists t.
Qed.

Lemma kept_spawn MAX_THREAD_NUM os s :
  wf s -> caller_kept s (uthread_spawn MAX_THREAD_NUM os s).
Proof.
  intros Hwf. pose proof (wf_running_registered s Hwf) as [t Ht]. unfold_ops.
  destruct (sigprocmask_ok os); simpl; [|done].
  unfold manager_createThread.
  destruct (MAX_THREAD_NUM <=? _); simpl; [by rewrite Ht|].
  destruct (smallest_unused MAX_THREAD_NUM (manager s)) as [i|] eqn:Ei; simpl;
    [|by rewrite Ht].
  destruct (alloc_ok os); simpl; [|done].
  assert (is_Some (<[i := new_thread]> (manager s) !! running (sched s))) as Hin.
  { destruct (decide (i = running (sched s))) as [->|Hne].
    - by rewrite (lookup_insert_eq (manager s)).
    - rewrite (lookup_insert_ne (manager s)) by done. by rewrite Ht. }
  destruct (i =? sysError); simpl; [done|].
  destruct (i =? -1); simpl; (split; [done|]); intros _; [done|apply sched_addThread_running].
Qed.

Lemma kept_block os tid s : wf s -> caller_kept s (uthread_block os tid s).
Proof.
  intros Hwf. pose proof (wf_running_registered s Hwf) as [tr Htr]. unfold_ops.
  destruct (sigprocmask_ok os); simpl; [|done].
  destruct (tid =? 0) eqn:E0; simpl; [by rewrite Htr|].
  unfold manager_blockThread, manager_setFlag.
  destruct (manager s !! tid) as [t|] eqn:Ht; simpl; [|by rewrite Htr].
  assert (is_Some (<[tid := setBlocked true t]> (manager s) !! running (sched s))) as Hin.
  { destruct (decide (tid = running (sched s))) as [->|Hne].
    - by rewrite (lookup_insert_eq (manager s)).
    - rewrite (lookup_insert_ne (manager s)) by done. by rewrite Htr. }
  destruct (negb _) eqn:En; simpl.
  - destruct (setitimer_ok os); simpl; [|done].
    destruct Hin as [x Hx]. rewrite Hx. simpl. split; [|done].
    rewrite lookup_alter_is_Some. by exists x.
  - apply negb_false_iff, Z.eqb_eq in En. split; [done|]. intros _. apply En.
Qed.

Lemma kept_resume os tid s : wf s -> caller_kept s (uthread_resume os tid s).
Proof.
  intros Hwf. pose proof (wf_running_registered s Hwf) as [tr Htr]. unfold_ops.
  destruct (sigprocmask_ok os); simpl; [|done].
  unfold manager_unBlockThread, manager_setFlag.
  destruct (manager s !! tid) as [t|] eqn:Ht; simpl; [|by rewrite Htr].
  assert (is_Some (<[tid := setBlocked false t]> (manager s) !! running (sched s))) as Hin.
  { destruct (decide (tid = running (sched s))) as [->|Hne].
    - by rewrite (lookup_insert_eq (manager s)).
    - rewrite (lookup_insert_ne (manager s)) by done. by rewrite Htr. }
  destruct (negb _); simpl; split; try done.
  intros _. apply sched_addThread_running.
Qed.

Lemma kept_sleep os usec now s : wf s -> caller_kept s (uthread_sleep os usec now s).
Proof.
  intros Hwf. pose proof (wf_running_registered s Hwf) as [t Ht]. unfold_ops.
  destruct (sigprocmask_ok os); simpl; [|done].
  destruct (running (sched s) =? 0) eqn:E0; simpl; [by rewrite Ht|].
  destruct (sleeping_add_peek (running (sched s)) (calcWakUpTimeval now (to_int usec))
              (sleepingThreads s)) as [new ->].
  unfold manager_putThreadToSleep, manager_setFlag.
  destruct (sleeping_peek (sleepingThreads s)) as [old|];
    [destruct (negb (id old =? id new))|]; simpl; rewrite Ht; simpl;
    (destruct (setitimer_ok os); simpl; [|done]);
    rewrite (lookup_insert_eq (manager s)); simpl; (split; [|done]);
    rewrite lookup_alter_is_Some; by rewrite (lookup_insert_eq (manager s)).
Qed.

Lemma kept_observers os tid s :
  wf s ->
  caller_kept s (uthread_get_tid os s) /\
  caller_kept s (uthread_get_total_quantums s) /\
  caller_kept s (uthread_get_quantums os tid s).
Proof.
  intros Hwf. pose proof (wf_running_registered s Hwf) as [t Ht]. unfold_ops.
  destruct (sigprocmask_ok os); simpl; [|by rewrite Ht].
  destruct (negb _); simpl; by rewrite Ht.
Qed.

Lemma kept_quantum os sig s : wf s -> caller_kept s (handleQuantumTimeout os sig s).
Proof.
  intros Hwf. pose proof (wf_running_registered s Hwf) as [t Ht]. unfold_ops.
  destruct (sig =? SIGVTALRM); simpl; [|by rewrite Ht].
  destruct (setitimer_ok os); simpl; [|done].
  destruct (sched_whosNextTimeout (sched s)) as [next sc'] eqn:E. simpl.
  rewrite Ht. simpl. split; [|done].
  rewrite lookup_alter_is_Some. by rewrite Ht.
Qed.

Lemma kept_wake sig clock s :
  wf s -> (sig = SIGALRM -> sleepingThreads s <> []) ->
  caller_kept s (handleSleepTimeout sig clock s).
Proof.
  intros Hwf Hq. pose proof (wf_running_registered s Hwf) as [t Ht].
  destruct (decide (sig = SIGALRM)) as [->|Hsig].
  2:{ rewrite handleSleepTimeout_other_signal by done. simpl. by rewrite Ht. }
  destruct (handleSleepTimeout_returns clock s (Hq eq_refl)) as (s2 & log2 & Hrun & _).
  rewrite Hrun. simpl.
  destruct (counter_wake SIGALRM clock s s2 log2) as (_ & _ & Hr & _).
  { by rewrite Hrun. }
  split; [|done].
  destruct (handleSleepTimeout_effect clock s s2 log2 Hrun) as (popped & _ & _ & Hm & _).
  rewrite Hm, Ht. by destruct (decide _).
Qed.

Lemma terminate_outcome os tid s :
  wf s ->
  match uthread_terminate os tid s with
  | Ok _ s' log =>
      tid <> running (sched s) /\
      is_Some (manager s' !! running (sched s)) /\
      running (sched s') = running (sched s)
  | Exit _ _ => True
  | Gone s' _ =>
      tid = running (sched s) /\ tid <> 0 /\ manager s' !! tid = None /\
      sigprocmask_ok os = true /\ setitimer_ok os = true
  | Fault _ => False
  end.
Proof.
  intros Hwf. pose proof (wf_running_registered s Hwf) as [tr Htr]. unfold_ops.
  destruct (sigprocmask_ok os); simpl; [|done].
  destruct (tid =? 0) eqn:E0; simpl; [done|].
  unfold manager_killThread.
  destruct (manager s !! tid) as [t|] eqn:Ht; simpl.
  2:{ rewrite Htr. repeat split; try done. intros ->. congruence. }
  destruct (decide (tid = running (sched s))) as [->|Hne].
  - destruct (negb _) eqn:En; simpl.
    + destruct (setitimer_ok os); simpl; [|done].
      rewrite (lookup_delete_eq (manager s)). simpl. repeat split; try done; try lia.
      rewrite lookup_alter_None. apply lookup_delete_eq.
    + exfalso. apply negb_false_iff, Z.eqb_eq in En.
      pose proof (wf_ms_head_after_remove _ _ (running (sched s)) Hwf ltac:(lia)) as Hh.
      rewrite En in Hh.
      apply head_Some_elem_of, elem_of_remove_id in Hh as [_ Hh]. done.
  - pose proof (head_remove_id_ne tid _ _ (wf_head _ _ Hwf) (not_eq_sym Hne)) as Hh.
    rewrite Hh. simpl. rewrite Z.eqb_refl. simpl.
    repeat split; try done.
    rewrite (lookup_delete_ne (manager s)) by done. by rewrite Htr.
Qed.

Lemma terminate_self os s :
  wf s -> running (sched s) <> 0 ->
  sigprocmask_ok os = true -> setitimer_ok os = true ->
  exists s' log, uthread_terminate os (running (sched s)) s = Gone s' log.
Proof.
  intros Hwf Hne Hmask Htimer. pose proof (wf_running_registered s Hwf) as [tr Htr].
  pose proof (terminate_outcome os (running (sched s)) s Hwf) as H.
  revert H. unfold_ops. rewrite ?Hmask. simpl.
  destruct (running (sched s) =? 0) eqn:E0; [lia|]. simpl.
  unfold manager_killThread. rewrite Htr. simpl.
  destruct (negb _); simpl.
  - rewrite Htimer. simpl. rewrite (lookup_delete_eq (manager s)). simpl. eauto.
  - rewrite ?Hmask. simpl. by intros [? _].
Qed.

Lemma uthread_init_ends os quantum_usecs s :
  match uthread_init os quantum_usecs s with
  | Ok _ _ _ | Exit _ _ => True
  | Gone _ _ | Fault _ => False
  end.
Proof.
  unfold_ops. destruct (0 <? quantum_usecs); simpl; [|done].
  destruct (alloc_ok os); simpl; [|done].
  destruct (sigaddset_ok os); simpl; [|done].
  destruct (sigaction_ok os); simpl; [|done].
  destruct (setitimer_ok os); simpl; done.
Qed.

(** X16. In a reachable state a call or signal has one of four outcomes.
    The thread that runs is removed from the registry and control passes on,
    so that the call can never return: this happens exactly when the running
    thread, not the main thread, terminates itself and [sigprocmask] and
    [setitimer] succeed.  The wake handler dereferences a null pointer:
    exactly when it is invoked for [SIGALRM] on an empty sleep queue.  The
    process exits.  Or the step completes, and then ([uthread_init] aside,
    which builds a new registry) the thread that ran when the step began is
    still registered, and it is still the running thread when the step made
    no context switch; after a context switch it is suspended, and whether
    it runs again is up to later steps. *)
Theorem step_outcomes (MAX_THREAD_NUM : Z) (os : OS) (c : call) (s : lib) :
  reachable MAX_THREAD_NUM s ->
  match step MAX_THREAD_NUM os c s with
  | Ok _ s' log =>
      (exists q, c = Init q) \/
      (is_Some (manager s' !! running (sched s)) /\
       (switches log = 0%nat -> running (sched s') = running (sched s)))
  | Exit _ _ => True
  | Gone s' _ =>
      c = Terminate (running (sched s)) /\ running (sched s) <> 0 /\
      manager s' !! running (sched s) = None /\
      sigprocmask_ok os = true /\ setitimer_ok os = true
  | Fault _ => exists clock, c = SleepTimeout SIGALRM clock /\ sleepingThreads s = []
  end /\
  (c = Terminate (running (sched s)) -> running (sched s) <> 0 ->
   sigprocmask_ok os = true -> setitimer_ok os = true ->
   exists s' log, step MAX_THREAD_NUM os c s = Gone s' log) /\
  (forall clock, c = SleepTimeout SIGALRM clock -> sleepingThreads s = [] ->
   exists log, step MAX_THREAD_NUM os c s = Fault log).
Proof.
  intros Hreach. pose proof (reachable_wf _ _ Hreach) as Hwf.
  split; [|split].
  - destruct c; cbn [step]; unfold void.
    + pose proof (uthread_init_ends os quantum_usecs s) as H.
      destruct (uthread_init os quantum_usecs s); try done. left. eauto.
    + pose proof (kept_spawn MAX_THREAD_NUM os s Hwf) as H.
      destruct (uthread_spawn MAX_THREAD_NUM os s); try done. by right.
    + pose proof (terminate_outcome os tid s Hwf) as H.
      destruct (uthread_terminate os tid s); try done.
      * destruct H as (_ & Hin & Hr). right. done.
      * destruct H as (-> & ? & ? & ? & ?). done.
    + pose proof (kept_block os tid s Hwf) as H.
      destruct (uthread_block os tid s); try done. by right.
    + pose proof (kept_resume os tid s Hwf) as H.
      destruct (uthread_resume os tid s); try done. by right.
    + pose proof (kept_sleep os usec now s Hwf) as H.
      destruct (uthread_sleep os usec now s); try done. by right.
    + destruct (kept_observers os 0 s Hwf) as (H & _ & _).
      destruct (uthread_get_tid os s); try done. by right.
    + destruct (kept_observers os 0 s Hwf) as (_ & H & _).
      destruct (uthread_get_total_quantums s); try done. by right.
    + destruct (kept_observers os tid s Hwf) as (_ & _ & H).
      destruct (uthread_get_quantums os tid s); try done. by right.
    + pose proof (kept_quantum os sig s Hwf) as H.
      destruct (handleQuantumTimeout os sig s); try done. by right.
    + destruct (decide (sig = SIGALRM /\ sleepingThreads s = [])) as [[-> Hq]|Hn].
      { rewrite handleSleepTimeout_loop, Hq. simpl. eauto. }
      assert (sig = SIGALRM -> sleepingThreads s <> []) as Hq.
      { intros -> Hq. by apply Hn. }
      pose proof (kept_wake sig clock s Hwf Hq) as H.
      destruct (handleSleepTimeout sig clock s); try done. by right.
  - intros -> Hne Hmask Htimer. cbn [step]. by apply terminate_self.
  - intros clock -> Hq. cbn [step]. unfold void.
    rewrite handleSleepTimeout_loop, Hq. simpl. eauto.
Qed.

Lemma step_outcomes_witness :
  match step 100 os_ok (Terminate 1) st_running1 with
  | Ok _ s' log =>
      (exists q, Terminate 1 = Init q) \/
      (is_Some (manager s' !! running (sched st_running1)) /\
       (switches log = 0%nat -> running (sched s') = running (sched st_running1)))
  | Exit _ _ => True
  | Gone s' _ =>
      Terminate 1 = Terminate (running (sched st_running1)) /\
      running (sched st_running1) <> 0 /\
      manager s' !! running (sched st_running1) = None /\
      sigprocmask_ok os_ok = true /\ setitimer_ok os_ok = true
  | Fault _ =>
      exists clock, Terminate 1 = SleepTimeout SIGALRM clock /\
                    sleepingThreads st_running1 = []
  end /\
  (Terminate 1 = Terminate (running (sched st_running1)) ->
   running (sched st_running1) <> 0 ->
   sigprocmask_ok os_ok = true -> setitimer_ok os_ok = true ->
   exists s' log, step 100 os_ok (Terminate 1) st_running1 = Gone s' log) /\
  (forall clock, Terminate 1 = SleepTimeout SIGALRM clock ->
   sleepingThreads st_running1 = [] ->
   exists log, step 100 os_ok (Terminate 1) st_running1 = Fault log).
Proof.
  apply (step_outcomes 100 os_ok (Terminate 1) st_running1 st_running1_reachable).
Defined.

(** A caller suspended by a context switch need not run again: thread 1
    blocks itself, the main thread terminates it, and the call of
    [uthread_block] never returns. *)
Lemma suspended_caller_removed :
  exists s1 s2,
    uthread_block os_ok 1 st_running1 = Ok 0 s1 [VTimerStart; SwitchContext 1 0] /\
    uthread_terminate os_ok 1 s1 = Ok 0 s2 [] /\
    manager s2 !! 1 = None.
Proof. eexists _, _. split; [by vm_compute|]. split; by vm_compute. Qed.

(** ** Quantum counts of single threads *)

Lemma same_quants_refl m : same_quants m m.
Proof. intros tid t t' Ht Ht'. by simplify_eq. Qed.

Lemma same_quants_insert m tid t y :
  m !! tid = Some t -> _quants y = _quants t -> same_quants m (<[tid := y]> m).
Proof.
  intros Ht Hq x u u' Hu Hu'.
  apply lookup_insert_Some in Hu' as [[<- <-]|[_ Hu']]; by simplify_eq.
Qed.

Lemma same_quants_fresh m tid y : m !! tid = None -> same_quants m (<[tid := y]> m).
Proof.
  intros Hnone x u u' Hu Hu'.
  apply lookup_insert_Some in Hu' as [[<- <-]|[_ Hu']]; by simplify_eq.
Qed.

Lemma same_quants_delete m tid : same_quants m (delete tid m).
Proof.
  intros x u u' Hu Hu'. apply lookup_delete_Some in Hu' as [_ Hu']. by simplify_eq.
Qed.

Lemma quants_step_same s s' : same_quants (manager s) (manager s') -> quants_step s s'.
Proof. intros H tid t t' Ht Ht'. left. by eapply H. Qed.

Lemma quants_step_switch s s' m1 :
  same_quants (manager s) m1 ->
  manager s' = alter updateQuants (running (sched s')) m1 ->
  quants_step s s'.
Proof.
  intros Hsame Hm tid t t' Ht Ht'. rewrite Hm, lookup_alter in Ht'.
  destruct (decide (running (sched s') = tid)) as [Heq|Hne].
  - rewrite Heq in Ht'. destruct (m1 !! tid) as [t1|] eqn:Ht1; [|done].
    simpl in Ht'. injection Ht' as <-. right. split; [|done].
    simpl. by rewrite (Hsame _ _ _ Ht Ht1).
  - left. by eapply Hsame.
Qed.

Lemma quants_spawn MAX_THREAD_NUM os s s' log :
  final (uthread_spawn MAX_THREAD_NUM os s) = Some (s', log) -> quants_step s s'.
Proof.
  unfold_ops.
  destruct (sigprocmask_ok os); simpl; [|discriminate].
  unfold manager_createThread.
  destruct (MAX_THREAD_NUM <=? Z.of_nat (size (manager s))); simpl.
  { intros [= <- _]. apply quants_step_same, same_quants_refl. }
  destruct (smallest_unused MAX_THREAD_NUM (manager s)) as [newTid|] eqn:E; simpl.
  2:{ intros [= <- _]. apply quants_step_same, same_quants_refl. }
  apply smallest_unused_Some in E as [Hrange Hnone].
  destruct (alloc_ok os); simpl; [|discriminate].
  unfold sysError.
  destruct (newTid =? -2) eqn:E1; [lia|].
  destruct (newTid =? -1) eqn:E2; [lia|]. simpl.
  intros [= <- _]. apply quants_step_same. by apply same_quants_fresh.
Qed.

Lemma quants_terminate os tid s s' log :
  final (uthread_terminate os tid s) = Some (s', log) -> quants_step s s'.
Proof.
  unfold_ops.
  destruct (sigprocmask_ok os); simpl; [|discriminate].
  destruct (tid =? 0) eqn:E0; simpl; [discriminate|].
  unfold manager_killThread.
  destruct (manager s !! tid) as [t|] eqn:Ht; simpl.
  2:{ intros [= <- _]. apply quants_step_same, same_quants_refl. }
  destruct (negb _) eqn:En; simpl.
  - destruct (setitimer_ok os); simpl; [|discriminate].
    destruct (delete tid (manager s) !! running (sched s)); simpl;
      intros [= <- _];
      by apply (quants_step_switch _ _ (delete tid (manager s)) (same_quants_delete _ _)).
  - intros [= <- _]. apply quants_step_same, same_quants_delete.
Qed.

Lemma quants_block os tid s s' log :
  final (uthread_block os tid s) = Some (s', log) -> quants_step s s'.
Proof.
  unfold_ops.
  destruct (sigprocmask_ok os); simpl; [|discriminate].
  destruct (tid =? 0) eqn:E0; simpl.
  { intros [= <- _]. apply quants_step_same, same_quants_refl. }
  unfold manager_blockThread, manager_setFlag.
  destruct (manager s !! tid) as [t|] eqn:Ht; simpl.
  2:{ intros [= <- _]. apply quants_step_same, same_quants_refl. }
  pose proof (same_quants_insert _ _ _ (setBlocked true t) Ht eq_refl) as Hsame.
  destruct (negb _) eqn:En; simpl.
  - destruct (setitimer_ok os); simpl; [|discriminate].
    destruct (<[tid:=setBlocked true t]> (manager s) !! running (sched s)); simpl;
      intros [= <- _]; by apply (quants_step_switch _ _ _ Hsame).
  - intros [= <- _]. by apply quants_step_same.
Qed.

Lemma quants_resume os tid s s' log :
  final (uthread_resume os tid s) = Some (s', log) -> quants_step s s'.
Proof.
  unfold_ops.
  destruct (sigprocmask_ok os); simpl; [|discriminate].
  unfold manager_unBlockThread, manager_setFlag.
  destruct (manager s !! tid) as [t|] eqn:Ht; simpl.
  2:{ intros [= <- _]. apply quants_step_same, same_quants_refl. }
  pose proof (same_quants_insert _ _ _ (setBlocked false t) Ht eq_refl) as Hsame.
  destruct (negb _); simpl; intros [= <- _]; by apply quants_step_same.
Qed.

Lemma quants_sleep os usec now s s' log :
  final (uthread_sleep os usec now s) = Some (s', log) -> quants_step s s'.
Proof.
  unfold_ops.
  destruct (sigprocmask_ok os); simpl; [|discriminate].
  destruct (running (sched s) =? 0) eqn:E0; simpl.
  { intros [= <- _]. apply quants_step_same, same_quants_refl. }
  destruct (sleeping_add_peek (running (sched s)) (calcWakUpTimeval now (to_int usec))
              (sleepingThreads s)) as [new ->].
  unfold manager_putThreadToSleep, manager_setFlag.
  destruct (manager s !! running (sched s)) as [t|] eqn:Ht.
  - pose proof (same_quants_insert _ _ _ (setSleep true t) Ht eq_refl) as Hsame.
    destruct (sleeping_peek (sleepingThreads s)) as [old|];
      [destruct (negb (id old =? id new))|]; simpl; rewrite Ht; simpl;
      (destruct (setitimer_ok os); simpl; [|discriminate]);
      rewrite (lookup_insert_eq (manager s)); simpl;
      intros [= <- _]; by apply (quants_step_switch _ _ _ Hsame).
  - destruct (sleeping_peek (sleepingThreads s)) as [old|];
      [destruct (negb (id old =? id new))|]; simpl; rewrite Ht; simpl;
      (destruct (setitimer_ok os); simpl; [|discriminate]);
      rewrite Ht; simpl;
      intros [= <- _]; by apply (quants_step_switch _ _ _ (same_quants_refl _)).
Qed.

Lemma quants_quantum os sig s s' log :
  final (handleQuantumTimeout os sig s) = Some (s', log) -> quants_step s s'.
Proof.
  unfold_ops.
  destruct (sig =? SIGVTALRM); simpl.
  2:{ intros [= <- _]. apply quants_step_same, same_quants_refl. }
  destruct (setitimer_ok os); simpl; [|discriminate].
  pose proof (sched_whosNextTimeout_fst (sched s)) as Hfst.
  destruct (sched_whosNextTimeout (sched s)) as [next sc'] eqn:E. simpl in *. subst next.
  destruct (manager s !! running (sched s)); simpl;
    intros [= <- _]; by apply (quants_step_switch _ _ _ (same_quants_refl _)).
Qed.

Lemma quants_wake sig clock s s' log :
  final (handleSleepTimeout sig clock s) = Some (s', log) -> quants_step s s'.
Proof.
  destruct (decide (sig = SIGALRM)) as [->|Hsig].
  2:{ rewrite handleSleepTimeout_other_signal by done.
      intros [= <- _]. apply quants_step_same, same_quants_refl. }
  destruct (sleepingThreads s) as [|w q] eqn:Eq.
  { rewrite handleSleepTimeout_loop, Eq. discriminate. }
  destruct (handleSleepTimeout_spec clock s) as (popped & rest & _ & _ & Hrun).
  { by rewrite Eq. }
  assert (same_quants (manager s) (manager (wake_all popped s))) as Hsame.
  { intros tid t t' Ht Ht'. rewrite wake_all_manager, Ht in Ht'.
    destruct (decide _); by injection Ht' as <-. }
  cbv zeta in Hrun. destruct rest as [|nxt rest].
  - rewrite Hrun. intros [= <- _]. by apply quants_step_same.
  - destruct Hrun as [_ ->]. intros [= <- _]. by apply quants_step_same.
Qed.

(** X17. In one call or signal after [uthread_init], the quantum count of a
    thread that stays registered never decreases; it grows by at most one,
    and only for the thread that is running when the step ends. *)
Theorem quantum_counts_step (MAX_THREAD_NUM : Z) (os : OS) (c : call) (s s' : lib)
    (log : list effect) (tid : Z) (t t' : thread) :
  (forall q, c <> Init q) ->
  final (step MAX_THREAD_NUM os c s) = Some (s', log) ->
  manager s !! tid = Some t -> manager s' !! tid = Some t' ->
  _quants t' = _quants t \/
  (_quants t' = _quants t + 1 /\ tid = running (sched s')).
Proof.
  intros Hc Hstep. revert tid t t'. fold (quants_step s s'). revert Hstep.
  destruct c; cbn [step]; try rewrite final_void.
  - by destruct (Hc quantum_usecs).
  - apply quants_spawn.
  - apply quants_terminate.
  - apply quants_block.
  - apply quants_resume.
  - apply quants_sleep.
  - intros H. destruct (counter_observers os 0 s s' log) as [-> _]; [tauto|].
    apply quants_step_same, same_quants_refl.
  - intros H. destruct (counter_observers os 0 s s' log) as [-> _]; [tauto|].
    apply quants_step_same, same_quants_refl.
  - intros H. destruct (counter_observers os tid s s' log) as [-> _]; [tauto|].
    apply quants_step_same, same_quants_refl.
  - apply quants_quantum.
  - apply quants_wake.
Qed.

Lemma quantum_counts_step_witness :
  _quants (Thread 1 false false) = _quants new_thread \/
  (_quants (Thread 1 false false) = _quants new_thread + 1 /\
   1 = running (sched st_running1)).
Proof.
  apply (quantum_counts_step 100 os_ok (QuantumTimeout SIGVTALRM) st_spawned st_running1
           [VTimerStart; SwitchContext 0 1] 1 new_thread (Thread 1 false false)).
  - discriminate.
  - by vm_compute.
  - by vm_compute.
  - by vm_compute.
Defined.

(** ** Sleeping and waking up *)

(** X18. Let a thread other than main go to sleep while the sleep queue is
    empty, and let the wake handler run next.  The thread's record is as
    before the sleep, the thread is at the tail of the ready queue, the sleep
    queue is empty again and the real timer still shows the delay of the
    sleep; what remains of the sleep is the context switch: the next thread
    in the queue runs with one more quantum and the counter has grown by
    one. *)
Theorem sleep_wake_round_trip (MAX_THREAD_NUM : Z) (os : OS) (s : lib)
    (usec : Z) (now : timeval) (clock : nat -> timeval) :
  sigprocmask_ok os = true -> setitimer_ok os = true ->
  reachable MAX_THREAD_NUM s ->
  running (sched s) <> 0 ->
  sleepingThreads s = [] ->
  let tid := running (sched s) in
  exists next,
    head (remove_id tid (ready (sched s))) = Some next /\ next <> tid /\
    (uthread_sleep os usec now ;;; handleSleepTimeout SIGALRM clock) s
    = Ok tt {| manager := alter updateQuants next (manager s);
               sched := {| ready := remove_id tid (ready (sched s)) ++ [tid];
                           running := next |};
               sleepingThreads := [];
               vTimer := {| vt_quantum := vt_quantum (vTimer s); vt_armed := true |};
               rTimer := Some usec;
               totalQuants := totalQuants s + 1 |}
         [RTimerStart usec; VTimerStart; SwitchContext tid next].
Proof.
  intros Hmask Htimer Hreach Hne0 Hempty. cbv zeta.
  pose proof (reachable_wf _ _ Hreach) as Hwf.
  destruct (wf_ready _ _ Hwf _ (wf_ms_running_in _ _ Hwf)) as (t & Ht & Hb & Hs).
  pose proof (wf_ms_head_after_remove _ _ _ Hwf Hne0) as Hhead.
  set (tid := running (sched s)) in *.
  set (next := default tid (head (remove_id tid (ready (sched s))))) in *.
  assert (next <> tid) as Hnext.
  { intros Hn. apply head_Some_elem_of, elem_of_remove_id in Hhead. rewrite Hn in Hhead.
    tauto. }
  exists next. split; [done|]. split; [done|].
  unfold bind. rewrite (uthread_sleep_run os s usec now t next Hmask Htimer Hne0 Ht Hhead).
  rewrite Hempty. simpl.
  rewrite handleSleepTimeout_loop. cbn [sleepingThreads]. rewrite wake_loop_cons.
  cbv zeta. unfold wake_entry. simpl. fold tid.
  rewrite lookup_alter_ne by done. rewrite (lookup_insert_eq (manager s)). simpl.
  rewrite Hb. simpl. unfold sched_addThread. simpl.
  rewrite decide_False by (rewrite elem_of_remove_id; tauto).
  assert (<[tid := setSleep false (setSleep true t)]>
            (alter updateQuants next (<[tid := setSleep true t]> (manager s)))
          = alter updateQuants next (manager s)) as Hm.
  { apply map_eq. intros i. destruct (decide (i = tid)) as [->|Hi].
    - rewrite lookup_insert_eq, lookup_alter_ne, Ht by done.
      f_equal. destruct t; simpl in *; by subst.
    - rewrite lookup_insert_ne by done. rewrite !lookup_alter.
      destruct (decide (next = i)); by rewrite lookup_insert_ne. }
  unfold set_sched, set_manager, set_sleepingThreads. simpl. by rewrite Hm.
Qed.

Lemma sleep_wake_round_trip_witness :
  exists next,
    head (remove_id 1 (ready (sched st_running1))) = Some next /\ next <> 1 /\
    (uthread_sleep os_ok 1000000 (Timeval 10 0) ;;;
     handleSleepTimeout SIGALRM (fun _ => Timeval 11 0)) st_running1
    = Ok tt {| manager := alter updateQuants next (manager st_running1);
               sched := {| ready := remove_id 1 (ready (sched st_running1)) ++ [1];
                           running := next |};
               sleepingThreads := [];
               vTimer := {| vt_quantum := vt_quantum (vTimer st_running1);
                            vt_armed := true |};
               rTimer := Some 1000000;
               totalQuants := totalQuants st_running1 + 1 |}
         [RTimerStart 1000000; VTimerStart; SwitchContext 1 next].
Proof.
  apply (sleep_wake_round_trip 100 os_ok st_running1 1000000 (Timeval 10 0)
           (fun _ => Timeval 11 0)).
  - reflexivity.
  - reflexivity.
  - apply st_running1_reachable.
  - simpl. lia.
  - reflexivity.
Defined.

(** ** The wake handler and the running thread *)

(** X19. An invocation of the wake handler performs no context switch and
    leaves the running id, the quantum counter, the virtual timer and every
    thread's quantum count and blocked flag as they were.  It pops a prefix
    of the sleep queue, appends ids of popped entries to the ready queue, and
    either restarts the real timer with a positive delay or has no outside
    effect.  (On an empty sleep queue it dereferences a null pointer.) *)
Theorem wake_handler_no_switch (sig : Z) (clock : nat -> timeval) (s : lib) :
  match handleSleepTimeout sig clock s with
  | Ok _ s' log =>
      running (sched s') = running (sched s) /\
      switches log = 0%nat /\
      totalQuants s' = totalQuants s /\
      vTimer s' = vTimer s /\
      (forall x,
         manager_getThreadQuants x (manager s') = manager_getThreadQuants x (manager s) /\
         manager_isThreadBlocked x (manager s') = manager_isThreadBlocked x (manager s)) /\
      (exists popped added,
         sleepingThreads s = popped ++ sleepingThreads s' /\
         ready (sched s') = ready (sched s) ++ added /\
         forall a, a ∈ added -> a ∈ id <$> popped) /\
      ((log = [] /\ rTimer s' = rTimer s) \/
       (exists d, 0 < d /\ log = [RTimerStart d] /\ rTimer s' = Some d))
  | Fault _ => sig = SIGALRM /\ sleepingThreads s = []
  | Exit _ _ | Gone _ _ => False
  end.
Proof.
  destruct (decide (sig = SIGALRM)) as [->|Hsig].
  2:{ rewrite handleSleepTimeout_other_signal by done.
      repeat split; try done.
      - exists [], []. by rewrite app_nil_r.
      - by left. }
  destruct (sleepingThreads s) as [|w q] eqn:Eq.
  { rewrite handleSleepTimeout_loop, Eq. done. }
  destruct (handleSleepTimeout_spec clock s) as (popped & rest & Hsplit & Hne & Hrun).
  { by rewrite Eq. }
  rewrite Eq in Hsplit.
  destruct (wake_all_frame popped s) as (Hr & _ & Hv & Hrt & Ht).
  destruct (wake_all_ready popped s) as (added & Hrd & Hadded).
  assert (forall a, a ∈ added -> a ∈ id <$> popped) as Hadded'.
  { intros a Ha. by destruct (Hadded a Ha). }
  assert (forall x,
    manager_getThreadQuants x (manager (wake_all popped s))
    = manager_getThreadQuants x (manager s) /\
    manager_isThreadBlocked x (manager (wake_all popped s))
    = manager_isThreadBlocked x (manager s)) as Hfl.
  { intros x. by destruct (wake_all_flags popped s x). }
  cbv zeta in Hrun. destruct rest as [|nxt rest].
  - rewrite Hrun. simpl. repeat split; try done; try apply Hfl.
    + exists popped, added. done.
    + by left.
  - destruct Hrun as [Hd ->]. simpl. repeat split; try done; try apply Hfl.
    + exists popped, added. done.
    + right. eauto.
Qed.

(** ** Termination of a sleeping thread *)

(** X20. Let a sleeping thread be terminated while its entry heads the sleep
    queue and no other entry carries its id.  [uthread_terminate] returns 0,
    removes the thread from the registry and leaves the entry in the sleep
    queue.  If the wake handler is the next to run, it returns, writes no
    error, and afterwards the id is in neither the ready queue nor the sleep
    queue nor the registry. *)
Theorem terminate_sleeping_then_wake (MAX_THREAD_NUM : Z) (os : OS) (s : lib)
    (tid : Z) (t : thread) (tv : timeval) (rest : list wake_up_info)
    (clock : nat -> timeval) :
  sigprocmask_ok os = true ->
  reachable MAX_THREAD_NUM s ->
  manager s !! tid = Some t -> _isSleeping t = true ->
  sleepingThreads s = WakeUp tid tv :: rest -> tid ∉ id <$> rest ->
  exists s1,
    uthread_terminate os tid s = Ok 0 s1 [] /\
    manager s1 !! tid = None /\
    sleepingThreads s1 = WakeUp tid tv :: rest /\
    exists s2 log,
      handleSleepTimeout SIGALRM clock s1 = Ok tt s2 log /\
      (log = [] \/ exists d, log = [RTimerStart d]) /\
      (tid ∉ ready (sched s2)) /\
      (tid ∉ id <$> sleepingThreads s2) /\
      manager s2 !! tid = None.
Proof.
  intros Hmask Hreach Ht Hs Hq Hrest. pose proof (reachable_wf _ _ Hreach) as Hwf.
  assert (tid ∉ ready (sched s)) as Hnin.
  { intros Hin. destruct (wf_ready _ _ Hwf _ Hin) as (t0 & Ht0 & _ & Hs0).
    simplify_eq. congruence. }
  assert (tid <> 0) as Hne0.
  { intros ->. apply Hnin, Hwf. }
  exists (set_manager (delete tid (manager s)) s). split.
  { unfold_ops. rewrite ?Hmask. simpl.
    destruct (tid =? 0) eqn:E0; [lia|]. simpl.
    unfold manager_killThread. rewrite Ht. simpl.
    unfold sched_whosNextTermination. rewrite remove_id_absent by done.
    rewrite (wf_head _ _ Hwf). simpl. rewrite scheduler_eta. simpl.
    rewrite Z.eqb_refl. simpl. rewrite ?Hmask. by destruct s. }
  split; [apply lookup_delete_eq|]. split; [done|].
  set (s1 := set_manager (delete tid (manager s)) s).
  destruct (handleSleepTimeout_returns clock s1) as (s2 & log & Hrun & Hlog).
  { subst s1. simpl. by rewrite Hq. }
  exists s2, log. split; [done|]. split; [done|].
  destruct (handleSleepTimeout_effect clock s1 s2 log Hrun)
    as (popped & Hsplit & Hne & Hm & _ & Hr).
  assert (manager s1 !! tid = None) as Hnone by apply lookup_delete_eq.
  split; [|split].
  - rewrite Hr. intros [Hin|(_ & t' & Ht' & _)]; [done|]. congruence.
  - subst s1. simpl in Hsplit. rewrite Hq in Hsplit.
    destruct popped as [|w popped]; [done|]. injection Hsplit as _ Hsplit.
    intros Hin. apply Hrest. rewrite Hsplit, fmap_app. apply elem_of_app. by right.
  - rewrite Hm. rewrite Hnone. by destruct (decide _).
Qed.

Lemma terminate_sleeping_then_wake_witness :
  exists s1,
    uthread_terminate os_ok 1 st_sleeping1 = Ok 0 s1 [] /\
    manager s1 !! 1 = None /\
    sleepingThreads s1 = [WakeUp 1 (Timeval 11 0)] /\
    exists s2 log,
      handleSleepTimeout SIGALRM (fun _ => Timeval 11 0) s1 = Ok tt s2 log /\
      (log = [] \/ exists d, log = [RTimerStart d]) /\
      (1 ∉ ready (sched s2)) /\
      (1 ∉ id <$> sleepingThreads s2) /\
      manager s2 !! 1 = None.
Proof.
  apply (terminate_sleeping_then_wake 100 os_ok st_sleeping1 1 (Thread 1 false true)
           (Timeval 11 0) [] (fun _ => Timeval 11 0)).
  - reflexivity.
  - apply st_sleeping1_reachable.
  - by vm_compute.
  - reflexivity.
  - reflexivity.
  - apply not_elem_of_nil.
Defined.
